(** * xc-course-examples: the two GPU notebooks, embedded and verified

    The repository holds two notebooks.

    - The TensorFlow notebook times one matrix product on the CPU and on
      the GPU with the helper [measure_time] and prints a comparison.
      It is embedded in [Module Timing] as a state-and-exception monad
      over a [World] (globals, standard output, the instant of the run,
      the trace of library calls).
    - The PyCUDA notebook launches two element-wise addition kernels,
      [matrix_add_unoptimized] and [matrix_add_shared_memory], over
      device buffers.  It is embedded in [Module Cuda]: a thread is a
      function of its [blockIdx], [blockDim] and [threadIdx] over the
      device memory; a launch runs the blocks of the grid and the
      threads of each block in an order that the theorems leave free.

    Python floats are IEEE binary64 values and the arrays hold binary32
    values; both are modelled with the [spec_float] operations of the
    standard library ([Module Float]). *)

From stdpp Require Import base list.
From Stdlib Require Import ZArith String Ascii List Bool Lia DecimalString.
From Stdlib Require Import Floats.SpecFloat.

Open Scope Z_scope.

(* ================================================================== *)
(** * Floating-point numbers *)
(* ================================================================== *)

Module Float.

(** A Python [float]: IEEE 754 binary64. *)
Definition float := spec_float.
Definition prec64 : Z := 53.
Definition emax64 : Z := 1024.

(** A [float] in C and a [np.float32]: IEEE 754 binary32. *)
Definition float32 := spec_float.
Definition prec32 : Z := 24.
Definition emax32 : Z := 128.

Definition fsub : float -> float -> float := SFsub prec64 emax64.
Definition fdiv : float -> float -> float := SFdiv prec64 emax64.
Definition feqb : float -> float -> bool := SFeqb.

(** [a + b] on two C floats. *)
Definition fadd32 : float32 -> float32 -> float32 := SFadd prec32 emax32.

Definition fzero : float := S754_zero false.

(** The float nearest to the integer [z] (used to write literals). *)
Definition of_Z (z : Z) : float := binary_normalize prec64 emax64 z 0 false.
Definition of_Z32 (z : Z) : float32 := binary_normalize prec32 emax32 z 0 false.

Definition is_finite (x : spec_float) : bool :=
  match x with
  | S754_zero _ | S754_finite _ _ _ => true
  | S754_infinity _ | S754_nan => false
  end.



(** ** Fixed-point formatting: the format specification [.pf]

    Python converts the exact binary value to [p] decimals, rounding
    to nearest with ties to even, and keeps the sign of the float. *)

Definition digit (d : Z) : ascii := ascii_of_N (48 + Z.to_N d).

(** The [p] lowest decimal digits of [n], zero padded. *)
Fixpoint frac_digits (p : nat) (n : Z) : string :=
  match p with
  | O => EmptyString
  | S p' => (frac_digits p' (n / 10) ++ String (digit (n mod 10)) EmptyString)%string
  end.

Definition int_digits (n : Z) : string :=
  NilZero.string_of_uint (N.to_uint (Z.to_N n)).

(** [m * 2^e * 10^p] rounded to the nearest integer, ties to even. *)
Definition scaled_round (m : positive) (e : Z) (p : nat) : Z :=
  let n := Zpos m * 10 ^ Z.of_nat p in
  if 0 <=? e then n * 2 ^ e
  else
    let d := 2 ^ (- e) in
    let q := n / d in
    let r := n mod d in
    match (2 * r ?= d) with
    | Lt => q
    | Gt => q + 1
    | Eq => if Z.even q then q else q + 1
    end.

Definition sign_str (s : bool) : string :=
  if s then String "-"%char EmptyString else EmptyString.

(** The digits of the scaled integer [n] with the point [p] places from
    the right (no point when [p = 0]). *)
Definition fixed (p : nat) (n : Z) : string :=
  match p with
  | O => int_digits n
  | S _ => (int_digits (n / 10 ^ Z.of_nat p) ++ String "."%char (frac_digits p n))%string
  end.

Definition format_f (p : nat) (x : float) : string :=
  match x with
  | S754_nan => "nan"%string
  | S754_infinity s => (sign_str s ++ "inf")%string
  | S754_zero s => (sign_str s ++ fixed p 0)%string
  | S754_finite s m e => (sign_str s ++ fixed p (scaled_round m e p))%string
  end.

Definition is_digit (c : ascii) : bool :=
  let n := N_of_ascii c in ((48 <=? n) && (n <=? 57))%N.

Fixpoint all_digits (s : string) : bool :=
  match s with
  | EmptyString => true
  | String c s' => is_digit c && all_digits s'
  end.

Fixpoint strip_digits (s : string) : string :=
  match s with
  | EmptyString => EmptyString
  | String c s' => if is_digit c then strip_digits s' else s
  end.

Definition unsigned_part (s : string) : string :=
  match s with
  | String "-"%char s' => s'
  | _ => s
  end.

(** [s] is a number written with exactly [p] decimal places: an optional
    minus sign, at least one digit, the point, and [p] digits. *)
Definition has_decimals (p : nat) (s : string) : bool :=
  let body := unsigned_part s in
  match body with
  | EmptyString => false
  | String d _ =>
      is_digit d &&
      match strip_digits body with
      | String "."%char fp => all_digits fp && Nat.eqb (String.length fp) p
      | _ => false
      end
  end.

End Float.

(* ================================================================== *)
(** * The TensorFlow notebook: CPU against GPU *)
(* ================================================================== *)

Module Timing.
Import Float.
Open Scope string_scope.

(** The failures a cell can end with.  [ShapeMismatch] is the library's
    reply to operands it cannot multiply and [InvalidSelector] its reply
    to a string it cannot read as a device; [ZeroDivisionError] and
    [NameError] are Python's own.  [DeviceUnavailable] is the condition
    the specification names for a device that cannot be bound: nothing
    in the notebook raises it. *)
Inductive exn :=
| DeviceUnavailable
| ShapeMismatch
| InvalidSelector
| ZeroDivisionError
| NameError (name : string).

Inductive outcome (T : Type) :=
| Ok (v : T)
| Raise (e : exn).
Arguments Ok {T} v.
Arguments Raise {T} e.

(** A tensor: its shape (rows, columns) and the value at each row and
    column. *)
Record tensor := { shape : Z * Z; data : Z -> Z -> float32 }.

(** The library calls that take time. *)
Inductive op :=
| OpProbe                      (* tf.test.is_gpu_available() *)
| OpRandomNormal (s : Z * Z)   (* tf.random.normal(s) *)
| OpBind (d : string)          (* entering [with tf.device(d)] *)
| OpMatmul (d : string)        (* tf.matmul inside [with tf.device(d)] *)
| OpNumpy (d : string)         (* result.numpy() inside [with tf.device(d)] *)
| OpPrint.

(** What the run observes: a library call, or a reading of the clock
    taken at an instant. *)
Inductive event :=
| Did (o : op)
| Clock (t : Z).

(** The machine the notebook runs on.  Instants are integers (ticks
    since the run began); [wall t] is what [time.time()] returns at
    instant [t], [cost o] the ticks the call [o] takes, [normal k s] the
    values of the [k]-th random tensor drawn and [product x y] the values
    the library computes for the product of [x] and [y].  [accepts d]
    tells whether the library reads the string [d] as a device, for the
    strings the notebook does not use. *)
Record Env := {
  gpu : bool;
  wall : Z -> float;
  cost : op -> Z;
  normal : nat -> Z * Z -> Z -> Z -> float32;
  product : tensor -> tensor -> Z -> Z -> float32;
  accepts : string -> bool
}.

(** The state of the kernel running the cells: the instant, the stack
    of device contexts, what was printed, the trace, and the globals
    of the notebook ([None] for a name not yet bound). *)
Record World := {
  now : Z;
  placement : list string;
  stdout : string;
  trace : list event;
  draws : nat;
  A : option tensor;
  B : option tensor;
  cpu_time : option float;
  gpu_time : option float
}.

Definition initial : World :=
  {| now := 0; placement := []; stdout := EmptyString; trace := [];
     draws := O; A := None; B := None; cpu_time := None; gpu_time := None |}.

Definition M (T : Type) : Type := World -> outcome T * World.

Definition ret {T} (v : T) : M T := fun w => (Ok v, w).
Definition raise {T} (e : exn) : M T := fun w => (Raise e, w).
Definition bind {T U} (c : M T) (k : T -> M U) : M U :=
  fun w =>
    match c w with
    | (Ok v, w') => k v w'
    | (Raise e, w') => (Raise e, w')
    end.

Notation "x <- c ;; k" := (bind c (fun x => k))
  (at level 100, c at next level, right associativity).
Notation "c ;;; k" := (bind c (fun _ => k))
  (at level 100, right associativity).

Definition nl : string := String "010"%char EmptyString.

Definition with_now (t : Z) (w : World) : World :=
  {| now := t; placement := placement w; stdout := stdout w;
     trace := trace w; draws := draws w; A := A w; B := B w;
     cpu_time := cpu_time w; gpu_time := gpu_time w |}.
Definition with_placement (p : list string) (w : World) : World :=
  {| now := now w; placement := p; stdout := stdout w;
     trace := trace w; draws := draws w; A := A w; B := B w;
     cpu_time := cpu_time w; gpu_time := gpu_time w |}.
Definition with_stdout (s : string) (w : World) : World :=
  {| now := now w; placement := placement w; stdout := s;
     trace := trace w; draws := draws w; A := A w; B := B w;
     cpu_time := cpu_time w; gpu_time := gpu_time w |}.
Definition with_trace (l : list event) (w : World) : World :=
  {| now := now w; placement := placement w; stdout := stdout w;
     trace := l; draws := draws w; A := A w; B := B w;
     cpu_time := cpu_time w; gpu_time := gpu_time w |}.
Definition with_draws (n : nat) (w : World) : World :=
  {| now := now w; placement := placement w; stdout := stdout w;
     trace := trace w; draws := n; A := A w; B := B w;
     cpu_time := cpu_time w; gpu_time := gpu_time w |}.
Definition with_A (t : tensor) (w : World) : World :=
  {| now := now w; placement := placement w; stdout := stdout w;
     trace := trace w; draws := draws w; A := Some t; B := B w;
     cpu_time := cpu_time w; gpu_time := gpu_time w |}.
Definition with_B (t : tensor) (w : World) : World :=
  {| now := now w; placement := placement w; stdout := stdout w;
     trace := trace w; draws := draws w; A := A w; B := Some t;
     cpu_time := cpu_time w; gpu_time := gpu_time w |}.
Definition with_cpu_time (x : float) (w : World) : World :=
  {| now := now w; placement := placement w; stdout := stdout w;
     trace := trace w; draws := draws w; A := A w; B := B w;
     cpu_time := Some x; gpu_time := gpu_time w |}.
Definition with_gpu_time (x : float) (w : World) : World :=
  {| now := now w; placement := placement w; stdout := stdout w;
     trace := trace w; draws := draws w; A := A w; B := B w;
     cpu_time := cpu_time w; gpu_time := Some x |}.

(** Reading a global: [NameError] when the name is not bound. *)
Definition global {T} (name : string) (field : World -> option T) : M T :=
  fun w =>
    match field w with
    | Some v => (Ok v, w)
    | None => (Raise (NameError name), w)
    end.

Definition assign (set : World -> World) : M unit :=
  fun w => (Ok tt, set w).

Section Notebook.
Variable env : Env.

(** A library call: it is recorded and the run moves on by its cost. *)
Definition perform (o : op) : M unit :=
  fun w => (Ok tt, with_trace (trace w ++ [Did o]) (with_now (now w + cost env o) w)).

(** [time.time()] *)
Definition time_time : M float :=
  fun w => (Ok (wall env (now w)), with_trace (trace w ++ [Clock (now w)]) w).

(** [print(s)] *)
Definition print (s : string) : M unit :=
  perform OpPrint ;;;
  assign (fun w => with_stdout (stdout w ++ s ++ nl) w).

(** [tf.test.is_gpu_available()] *)
Definition is_gpu_available : M bool :=
  perform OpProbe ;;; ret (gpu env).

(** [tf.test.gpu_device_name()]: the name of the GPU, empty without one. *)
Definition gpu_device_name : M string :=
  perform OpProbe ;;;
  ret (if gpu env then "/device:GPU:0" else EmptyString).

(** The strings the library reads as a device: the two the notebook
    passes, ["/CPU:0"] and ["/GPU:0"], and those the machine says.
    Whether the device is there plays no part. *)
Definition selector_accepted (d : string) : bool :=
  String.eqb d "/CPU:0" || String.eqb d "/GPU:0" || accepts env d.

(** [with tf.device(d): body].  Neither [measure_time] nor the library
    checks, when the block is entered, that the device is there: the
    library reads the string, and places each call of the body when it
    runs; placement being soft by default, a call asked for a device the
    machine lacks runs on another one.  So the body runs with [d] on top
    of the placement stack, which is restored when the block is left,
    normally or by an exception.  A string the library cannot read is
    refused before the body starts. *)
Definition tf_device {T} (d : string) (body : M T) : M T :=
  if selector_accepted d then
    perform (OpBind d) ;;;
    fun w =>
      let saved := placement w in
      let '(r, w') := body (with_placement (d :: saved) w) in
      (r, with_placement saved w')
  else raise InvalidSelector.

Definition current_device : M string :=
  fun w => (Ok (hd "/CPU:0" (placement w)), w).

(** [tf.random.normal(s)]: a fresh tensor of shape [s]. *)
Definition tf_random_normal (s : Z * Z) : M tensor :=
  perform (OpRandomNormal s) ;;;
  fun w => (Ok {| shape := s; data := normal env (draws w) s |},
            with_draws (S (draws w)) w).

(** [tf.matmul(x, y)] asks that the columns of [x] equal the rows of
    [y]; the library refuses other operands, a failure the specification
    calls [ShapeMismatch].  The operands are not touched: the result is
    a new tensor. *)
Definition tf_matmul (x y : tensor) : M tensor :=
  if Z.eqb (snd (shape x)) (fst (shape y)) then
    d <- current_device ;;
    perform (OpMatmul d) ;;;
    ret {| shape := (fst (shape x), snd (shape y)); data := product env x y |}
  else raise ShapeMismatch.

(** [t.numpy()]: waits for the value and brings it to the host. *)
Definition numpy (t : tensor) : M (Z -> Z -> float32) :=
  d <- current_device ;;
  perform (OpNumpy d) ;;;
  ret (data t).

(** Python's [x / y] on floats. *)
Definition truediv (x y : float) : M float :=
  match y with
  | S754_zero _ => raise ZeroDivisionError
  | _ => ret (fdiv x y)
  end.

(** Step 2: what the device enumeration reports.

<<
    print("Is there a GPU available?:", tf.test.is_gpu_available())
    print("GPU Device Name:", tf.test.gpu_device_name())
>> *)
Definition step2 : M unit :=
  available <- is_gpu_available ;;
  print ("Is there a GPU available?: " ++ (if available then "True" else "False")) ;;;
  name <- gpu_device_name ;;
  print ("GPU Device Name: " ++ name).

(** Step 3: the two matrices and the helper.

<<
matrix_size = 5000
A = tf.random.normal((matrix_size, matrix_size))
B = tf.random.normal((matrix_size, matrix_size))
>> *)
Definition matrix_size : Z := 5000.

Definition step3 : M unit :=
  a <- tf_random_normal (matrix_size, matrix_size) ;;
  assign (with_A a) ;;;
  b <- tf_random_normal (matrix_size, matrix_size) ;;
  assign (with_B b).

(**
<<
def measure_time(device_name):
    with tf.device(device_name):
        start_time = time.time()
        result = tf.matmul(A, B)
        _ = result.numpy()
        end_time = time.time()
    return end_time - start_time
>> *)
Definition measure_time (device_name : string) : M float :=
  times <- tf_device device_name (
    start_time <- time_time ;;
    a <- global "A" A ;;
    b <- global "B" B ;;
    result <- tf_matmul a b ;;
    _ <- numpy result ;;
    end_time <- time_time ;;
    ret (start_time, end_time)) ;;
  ret (fsub (snd times) (fst times)).

(** Step 4: the CPU run. *)
Definition step4 : M unit :=
  print (nl ++ "Performing computation on CPU...") ;;;
  t <- measure_time "/CPU:0" ;;
  assign (with_cpu_time t) ;;;
  t <- global "cpu_time" cpu_time ;;
  print ("Time taken on CPU: " ++ format_f 4 t ++ " seconds").

(** Step 5: the GPU run, when there is a GPU. *)
Definition step5 : M unit :=
  available <- is_gpu_available ;;
  if available then
    print (nl ++ "Performing computation on GPU...") ;;;
    t <- measure_time "/GPU:0" ;;
    assign (with_gpu_time t) ;;;
    t <- global "gpu_time" gpu_time ;;
    print ("Time taken on GPU: " ++ format_f 4 t ++ " seconds")
  else
    print (nl ++ "No GPU available. Skipping GPU computation.").

(** Step 6: the comparison. *)
Definition step6 : M unit :=
  available <- is_gpu_available ;;
  if available then
    print (nl ++ "Comparison:") ;;;
    c <- global "cpu_time" cpu_time ;;
    print ("CPU time: " ++ format_f 4 c ++ " seconds") ;;;
    g <- global "gpu_time" gpu_time ;;
    print ("GPU time: " ++ format_f 4 g ++ " seconds") ;;;
    c <- global "cpu_time" cpu_time ;;
    g <- global "gpu_time" gpu_time ;;
    ratio <- truediv c g ;;
    print ("Speedup: " ++ format_f 2 ratio ++ "x faster on GPU!")
  else
    print (nl ++ "Comparison not available as no GPU is detected.").

(** The cells in order (step 1 imports the library). *)
Definition notebook : M unit :=
  step2 ;;; step3 ;;; step4 ;;; step5 ;;; step6.

(** ** Conditions on the machine *)




End Notebook.

(** ** Machines for the examples *)

(** A clock that shows [base] and then, from each of the listed instants
    on, the reading listed with it. *)
Fixpoint staircase (base : float) (steps : list (Z * float)) (t : Z) : float :=
  match steps with
  | [] => base
  | (from, x) :: rest => if Z.ltb t from then base else staircase x rest t
  end.

(** What the calls cost on the example machines: the product takes 2
    ticks on the GPU and 30 on the CPU, where it also runs when it is
    asked for a GPU that is not there. *)
Definition demo_cost (g : bool) (o : op) : Z :=
  match o with
  | OpProbe => 3
  | OpRandomNormal _ => 7
  | OpBind _ => 0
  | OpMatmul d => if g && String.eqb d "/GPU:0" then 2 else 30
  | OpNumpy _ => 1
  | OpPrint => 0
  end.

(** Other ways of writing the two devices. *)
Definition other_selectors : list string :=
  ["/cpu:0"; "/gpu:0"; "CPU:0"; "GPU:0"; "/device:CPU:0"; "/device:GPU:0"].

(** The product of two tensors, row by column, in binary32. *)
Definition dot (x y : tensor) (i j : Z) : float32 :=
  fold_left
    (fun acc k => SFadd prec32 emax32 acc (SFmul prec32 emax32 (data x i k) (data y k j)))
    (seqZ 0 (snd (shape x))) (S754_zero false).

Definition machine (g : bool) (clock : Z -> float) : Env :=
  {| gpu := g; wall := clock; cost := demo_cost g;
     normal := fun k _ i j => of_Z32 (Z.of_nat k + i - j);
     product := dot;
     accepts := fun d => existsb (String.eqb d) other_selectors |}.

(** Two tensors of the same shape that cannot be multiplied. *)
Definition wide : tensor :=
  {| shape := (2, 3); data := fun i j => of_Z32 (i + 2 * j) |}.

(** A clock that advances. *)
Definition steady : Z -> float :=
  staircase (of_Z 1700000000)
    [(20, of_Z 1700000020); (51, of_Z 1700000051);
     (54, of_Z 1700000054); (57, of_Z 1700000057)].


(** A clock too coarse to see the GPU run. *)
Definition coarse : Z -> float :=
  staircase (of_Z 1700000000) [(32, of_Z 1700000032); (64, of_Z 1700000064)].

(** A 2 by 2 tensor, for the examples. *)
Definition small : tensor :=
  {| shape := (2, 2); data := fun i j => of_Z32 (i + 2 * j) |}.

Definition ready : World :=
  with_B small (with_A small initial).

(** The same after two runs of 31 and 3 seconds. *)
Definition timed : World :=
  with_gpu_time (of_Z 3) (with_cpu_time (of_Z 31) ready).

End Timing.


(* ================================================================== *)
(** * The PyCUDA notebook: three runs of an addition kernel *)
(* ================================================================== *)

Module Cuda.
Import Float.

(** ** Machine integers of the kernels *)

(** [unsigned int] arithmetic, then the conversion to [int]. *)
Definition to_int (z : Z) : Z :=
  let u := z mod 2 ^ 32 in
  if u <? 2 ^ 31 then u else u - 2 ^ 32.

(** [np.int32(n)]: defined for the values an [int] holds. *)
Definition np_int32 (n : Z) : option Z :=
  if (- 2 ^ 31 <=? n) && (n <? 2 ^ 31) then Some n else None.

(** ** Device memory *)

(** The three device allocations of the notebook. *)
Inductive buffer := a_gpu | b_gpu | c_gpu.

Record gmem := {
  mem_a : list float32;
  mem_b : list float32;
  mem_c : list float32
}.

Definition buf (p : buffer) (m : gmem) : list float32 :=
  match p with
  | a_gpu => mem_a m
  | b_gpu => mem_b m
  | c_gpu => mem_c m
  end.

Definition with_buf (p : buffer) (l : list float32) (m : gmem) : gmem :=
  match p with
  | a_gpu => {| mem_a := l; mem_b := mem_b m; mem_c := mem_c m |}
  | b_gpu => {| mem_a := mem_a m; mem_b := l; mem_c := mem_c m |}
  | c_gpu => {| mem_a := mem_a m; mem_b := mem_b m; mem_c := l |}
  end.

(** The [__shared__] arrays of [matrix_add_shared_memory]; each block has
    its own pair.  A cell holds [None] until it is written. *)
Inductive shared_array := shared_a | shared_b.

(** [__shared__ float shared_a[256]; __shared__ float shared_b[256];] *)
Definition shared_size : Z := 256.

Record smem := {
  sh_a : list (option float32);
  sh_b : list (option float32)
}.

Definition fresh_shared : smem :=
  {| sh_a := repeat None (Z.to_nat shared_size);
     sh_b := repeat None (Z.to_nat shared_size) |}.

Definition sbuf (a : shared_array) (m : smem) : list (option float32) :=
  match a with
  | shared_a => sh_a m
  | shared_b => sh_b m
  end.

Definition with_sbuf (a : shared_array) (l : list (option float32)) (m : smem) : smem :=
  match a with
  | shared_a => {| sh_a := l; sh_b := sh_b m |}
  | shared_b => {| sh_a := sh_a m; sh_b := l |}
  end.

(** ** Threads *)

(** What a thread knows about itself. *)
Record ctx := { blockIdx : Z; blockDim : Z; threadIdx : Z }.

Inductive access :=
| GRead (p : buffer) (i : Z)
| GWrite (p : buffer) (i : Z) (v : float32)
| SRead (a : shared_array) (i : Z)
| SWrite (a : shared_array) (i : Z) (v : float32).

(** One memory access, with the block and the thread that made it. *)
Record entry := { by_block : Z; by_thread : Z; what : access }.

Record state := {
  global : gmem;
  shared : smem;
  log : list entry
}.

(** What the driver refuses: the call raises an error on the host and
    the cell stops. *)
Inductive fault :=
| InvalidValue.

(** What CUDA leaves undefined: an access outside an array, the value
    of a shared cell read before it is written, and a [__syncthreads()]
    that only a part of a block comes to. *)
Inductive undefined :=
| GlobalOutOfBounds (p : buffer) (i : Z)
| SharedOutOfBounds (a : shared_array) (i : Z)
| SharedUninitialised (a : shared_array) (i : Z)
| BarrierDivergence (block : Z).

(** The outcome of a piece of code: a value and the state it leaves;
    a refusal of the driver; or [Undefined u], when the code has come to
    the operation [u].  From there on the program does not determine
    what happens, on the device or on the host, and the model says
    nothing of it: no state is given, and what is run after it, the
    copy back included, is undefined with it. *)
Inductive result (T : Type) :=
| Done (v : T) (s : state)
| Fault (f : fault)
| Undefined (u : undefined).
Arguments Done {T} v s.
Arguments Fault {T} f.
Arguments Undefined {T} u.

(** Straight-line code of one thread. *)
Definition code (T : Type) : Type := ctx -> state -> result T.

Definition ret {T} (v : T) : code T := fun _ s => Done v s.
Definition bind {T U} (c : code T) (k : T -> code U) : code U :=
  fun x s =>
    match c x s with
    | Done v s' => k v x s'
    | Fault f => Fault f
    | Undefined u => Undefined u
    end.

Notation "x <- c ;; k" := (bind c (fun x => k))
  (at level 100, c at next level, right associativity).
Notation "c ;;; k" := (bind c (fun _ => k))
  (at level 100, right associativity).

Definition record (a : access) (x : ctx) (s : state) : state :=
  {| global := global s; shared := shared s;
     log := log s ++ [{| by_block := blockIdx x; by_thread := threadIdx x; what := a |}] |}.

Definition in_bounds {T} (i : Z) (l : list T) : bool :=
  (0 <=? i) && (i <? Z.of_nat (length l)).

(** [p[i]] read from global memory. *)
Definition gload (p : buffer) (i : Z) : code float32 :=
  fun x s =>
    if in_bounds i (buf p (global s)) then
      match buf p (global s) !! Z.to_nat i with
      | Some v => Done v (record (GRead p i) x s)
      | None => Undefined (GlobalOutOfBounds p i)
      end
    else Undefined (GlobalOutOfBounds p i).

(** [p[i] = v] in global memory. *)
Definition gstore (p : buffer) (i : Z) (v : float32) : code unit :=
  fun x s =>
    if in_bounds i (buf p (global s)) then
      Done tt (record (GWrite p i v) x
        {| global := with_buf p (<[Z.to_nat i := v]> (buf p (global s))) (global s);
           shared := shared s; log := log s |})
    else Undefined (GlobalOutOfBounds p i).

(** [a[i]] read from the block's shared memory. *)
Definition sload (a : shared_array) (i : Z) : code float32 :=
  fun x s =>
    if in_bounds i (sbuf a (shared s)) then
      match sbuf a (shared s) !! Z.to_nat i with
      | Some (Some v) => Done v (record (SRead a i) x s)
      | Some None => Undefined (SharedUninitialised a i)
      | None => Undefined (SharedOutOfBounds a i)
      end
    else Undefined (SharedOutOfBounds a i).

(** [a[i] = v] in the block's shared memory. *)
Definition sstore (a : shared_array) (i : Z) (v : float32) : code unit :=
  fun x s =>
    if in_bounds i (sbuf a (shared s)) then
      Done tt (record (SWrite a i v) x
        {| global := global s;
           shared := with_sbuf a (<[Z.to_nat i := Some v]> (sbuf a (shared s))) (shared s);
           log := log s |})
    else Undefined (SharedOutOfBounds a i).

(** [threadIdx.x] *)
Definition thread_idx : code Z := fun x s => Done (to_int (threadIdx x)) s.

(** [blockIdx.x * blockDim.x + threadIdx.x] as an [int]. *)
Definition global_id : code Z :=
  fun x s => Done (to_int (blockIdx x * blockDim x + threadIdx x)) s.

(** Where a thread stands when it stops running: at the end of the
    kernel, or at [__syncthreads()] with the rest of its code. *)
Inductive reached :=
| Returned
| AtBarrier (rest : state -> result unit).

Definition kernel : Type := code reached.

Definition returned : code reached := ret Returned.

(** [__syncthreads(); rest] *)
Definition syncthreads (rest : code unit) : code reached :=
  fun x s => Done (AtBarrier (rest x)) s.

(** ** The two kernels *)

(**
<<
__global__ void matrix_add_unoptimized(float *a, float *b, float *c, int N) {
    int gid = blockIdx.x * blockDim.x + threadIdx.x;
    if (gid < N) {
        c[gid] = a[gid] + b[gid];
    }
}
>> *)
Definition matrix_add_unoptimized (a b c : buffer) (N : Z) : kernel :=
  gid <- global_id ;;
  if gid <? N then
    x <- gload a gid ;;
    y <- gload b gid ;;
    gstore c gid (fadd32 x y) ;;;
    returned
  else returned.

(**
<<
__global__ void matrix_add_shared_memory(float *a, float *b, float *c, int N) {
    __shared__ float shared_a[256];
    __shared__ float shared_b[256];
    int tid = threadIdx.x;
    int gid = blockIdx.x * blockDim.x + threadIdx.x;
    if (gid < N) {
        shared_a[tid] = a[gid];
        shared_b[tid] = b[gid];
        __syncthreads();
        c[gid] = shared_a[tid] + shared_b[tid];
    }
}
>> *)
Definition matrix_add_shared_memory (a b c : buffer) (N : Z) : kernel :=
  tid <- thread_idx ;;
  gid <- global_id ;;
  if gid <? N then
    x <- gload a gid ;;
    sstore shared_a tid x ;;;
    y <- gload b gid ;;
    sstore shared_b tid y ;;;
    syncthreads (
      x <- sload shared_a tid ;;
      y <- sload shared_b tid ;;
      gstore c gid (fadd32 x y))
  else returned.

(** ** Blocks and grids *)

(** The order in which the hardware runs a launch: the blocks of the
    grid one after the other in [block_order]; the threads of block [b]
    in [thread_order b] up to the barrier or the end of the kernel, and
    in [resume_order b] after the barrier. *)
Record schedule := {
  block_order : list Z;
  thread_order : Z -> list Z;
  resume_order : Z -> list Z
}.

(** Every block of the grid and every thread of each block runs once. *)
Definition fair (sch : schedule) (block_size grid_size : Z) : Prop :=
  block_order sch ≡ₚ seqZ 0 grid_size /\
  (forall b, thread_order sch b ≡ₚ seqZ 0 block_size) /\
  (forall b, resume_order sch b ≡ₚ seqZ 0 block_size).

(** Blocks and threads by increasing index. *)
Definition in_order (block_size grid_size : Z) : schedule :=
  {| block_order := seqZ 0 grid_size;
     thread_order := fun _ => seqZ 0 block_size;
     resume_order := fun _ => seqZ 0 block_size |}.

(** Blocks and threads by decreasing index. *)
Definition backwards (block_size grid_size : Z) : schedule :=
  {| block_order := rev (seqZ 0 grid_size);
     thread_order := fun _ => rev (seqZ 0 block_size);
     resume_order := fun _ => rev (seqZ 0 block_size) |}.

(** The threads [tids] of block [bid], each up to its barrier or its end;
    the result tells where each thread stands. *)
Fixpoint run_threads (k : kernel) (bid bdim : Z) (tids : list Z) (s : state)
  : result (list (Z * reached)) :=
  match tids with
  | [] => Done [] s
  | t :: ts =>
      match k {| blockIdx := bid; blockDim := bdim; threadIdx := t |} s with
      | Fault f => Fault f
      | Undefined u => Undefined u
      | Done r s' =>
          match run_threads k bid bdim ts s' with
          | Fault f => Fault f
          | Undefined u => Undefined u
          | Done rs s'' => Done ((t, r) :: rs) s''
          end
      end
  end.

Fixpoint reached_by (t : Z) (rs : list (Z * reached)) : option reached :=
  match rs with
  | [] => None
  | (t', r) :: rs' => if Z.eqb t t' then Some r else reached_by t rs'
  end.

(** After the barrier: the threads [tids] run the rest of their code. *)
Fixpoint resume (bid : Z) (rs : list (Z * reached)) (tids : list Z) (s : state)
  : result unit :=
  match tids with
  | [] => Done tt s
  | t :: ts =>
      match reached_by t rs with
      | Some (AtBarrier rest) =>
          match rest s with
          | Fault f => Fault f
          | Undefined u => Undefined u
          | Done _ s' => resume bid rs ts s'
          end
      | _ => Undefined (BarrierDivergence bid)
      end
  end.

Definition is_returned (r : reached) : bool :=
  match r with Returned => true | AtBarrier _ => false end.

Definition with_shared (m : smem) (s : state) : state :=
  {| global := global s; shared := m; log := log s |}.

(** One block: fresh shared memory, the threads up to the barrier, then,
    when all of them wait there, the threads after the barrier.  CUDA
    defines [__syncthreads()] under a condition only when the condition
    is the same for the whole block: a barrier that some threads come to
    and others do not is undefined. *)
Definition run_block (k : kernel) (sch : schedule) (bdim bid : Z) (s : state)
  : result unit :=
  match run_threads k bid bdim (thread_order sch bid) (with_shared fresh_shared s) with
  | Fault f => Fault f
  | Undefined u => Undefined u
  | Done rs s' =>
      if forallb (fun r => is_returned (snd r)) rs then Done tt s'
      else if forallb (fun r => negb (is_returned (snd r))) rs
           then resume bid rs (resume_order sch bid) s'
           else Undefined (BarrierDivergence bid)
  end.

Fixpoint run_blocks (k : kernel) (sch : schedule) (bdim : Z) (bids : list Z)
    (s : state) : result unit :=
  match bids with
  | [] => Done tt s
  | b :: bs =>
      match run_block k sch bdim b s with
      | Fault f => Fault f
      | Undefined u => Undefined u
      | Done _ s' => run_blocks k sch bdim bs s'
      end
  end.

(** [kernel(..., block=(block_size, 1, 1), grid=(grid_size, 1))], run in
    the order [sch].  The driver refuses a block of more than 1024
    threads and an empty block or grid. *)
Definition launch (k : kernel) (sch : schedule) (block_size grid_size : Z)
    (m : gmem) : result unit :=
  if (1 <=? block_size) && (block_size <=? 1024) &&
     (1 <=? grid_size) && (grid_size <? 2 ^ 31) then
    run_blocks k sch block_size (block_order sch)
      {| global := m; shared := fresh_shared; log := [] |}
  else Fault InvalidValue.

(** ** The host side *)

(** The arrays of the notebook: [a], [b], [c] on the host and the three
    device allocations. *)
Record host := {
  a : list float32;
  b : list float32;
  c : list float32;
  device : gmem
}.

(** [N = 1024 * 1024] *)
Definition N : Z := 1024 * 1024.

(** [np.zeros_like(a)] *)
Definition zeros_like (l : list float32) : list float32 :=
  repeat (S754_zero false) (length l).

(** [cuda.mem_alloc(l.nbytes)]: room for as many values as [l] has; what
    it holds at first is not specified ([junk]). *)
Definition mem_alloc (l : list float32) (junk : nat -> float32) : list float32 :=
  map junk (seq 0 (length l)).

(** [grid_size = (N + block_size - 1) // block_size] *)
Definition grid_size_for (n block_size : Z) : Z :=
  (n + block_size - 1) / block_size.

(** Step 1, before the clock is started: the arrays [a] and [b] (random
    in the notebook, given here), [c], the allocations, and the copies of
    [a] and [b] to the device. *)
Definition initialize (a0 b0 : list float32) (junk : nat -> float32) : host :=
  let c0 := zeros_like a0 in
  {| a := a0; b := b0; c := c0;
     device := {| mem_a := a0; mem_b := b0; mem_c := mem_alloc c0 junk |} |}.

(** [cuda.memcpy_dtoh(c, c_gpu)]: as many values as [c] holds. *)
Definition memcpy_dtoh (dst src : list float32) : option (list float32) :=
  if (length dst <=? length src)%nat then Some (take (length dst) src) else None.

(** What stands between the two readings of the clock in each step:

<<
    kernel(a_gpu, b_gpu, c_gpu, np.int32(N),
           block=(block_size, 1, 1), grid=(grid_size, 1))
    cuda.memcpy_dtoh(c, c_gpu)
>>

    When the driver refuses the launch, the call raises and the copy is
    not reached.  When the launch completes, the copy brings to [c] what
    the launch left in [c_gpu].  When the launch comes to an operation
    CUDA leaves undefined, the copy is still called, on a device whose
    state the program no longer determines: the outcome of the timed
    call is undefined, and no content of [c] is asserted. *)
Definition timed_call (k : buffer -> buffer -> buffer -> Z -> kernel)
    (sch : schedule) (n block_size grid_size : Z) (h : host) : result host :=
  match np_int32 n with
  | None => Fault InvalidValue
  | Some n32 =>
      match launch (k a_gpu b_gpu c_gpu n32) sch block_size grid_size (device h) with
      | Fault f => Fault f
      | Undefined u => Undefined u
      | Done _ s =>
          match memcpy_dtoh (c h) (mem_c (global s)) with
          | None => Fault InvalidValue
          | Some c' =>
              Done {| a := a h; b := b h; c := c'; device := global s |} s
          end
      end
  end.

(** Step 1: [block_size = 256] and the naive kernel. *)
Definition step1 (sch : schedule) (n : Z) (h : host) : result host :=
  let block_size := 256 in
  let grid_size := grid_size_for n block_size in
  timed_call matrix_add_unoptimized sch n block_size grid_size h.

(** Step 2: the shared-memory kernel, same sizes. *)
Definition step2 (sch : schedule) (n : Z) (h : host) : result host :=
  let block_size := 256 in
  let grid_size := grid_size_for n block_size in
  timed_call matrix_add_shared_memory sch n block_size grid_size h.

(** Step 3: the shared-memory kernel again, [block_size = 512]. *)
Definition step3 (sch : schedule) (n : Z) (h : host) : result host :=
  let block_size := 512 in
  let grid_size := grid_size_for n block_size in
  timed_call matrix_add_shared_memory sch n block_size grid_size h.

(** ** What a launch is expected to leave behind *)

(** [a[g] + b[g]] in the memory [m], when both values exist. *)
Definition sum_at (m : gmem) (g : Z) : option float32 :=
  match mem_a m !! Z.to_nat g, mem_b m !! Z.to_nat g with
  | Some x, Some y => Some (fadd32 x y)
  | _, _ => None
  end.

Definition put_sum (m : gmem) (l : list float32) (g : Z) : list float32 :=
  match sum_at m g with
  | Some v => <[Z.to_nat g := v]> l
  | None => l
  end.

(** The output buffer once the sums of the indices [done] are written,
    in that order. *)
Definition c_after (m : gmem) (done : list Z) : list float32 :=
  fold_left (put_sum m) done (mem_c m).

Definition gmem_after (m : gmem) (done : list Z) : gmem :=
  {| mem_a := mem_a m; mem_b := mem_b m; mem_c := c_after m done |}.

(** The global indices below [n] of the threads [tids] of block [bid]. *)
Definition gids (n bs bid : Z) (tids : list Z) : list Z :=
  List.filter (fun g => Z.ltb g n) (map (fun t => bid * bs + t) tids).

(** The indices done by a launch of the naive kernel, in the order of
    the schedule. *)
Definition naive_done (sch : schedule) (n bs : Z) : list Z :=
  flat_map (fun b => gids n bs b (thread_order sch b)) (block_order sch).

(** The indices done by a launch of the shared-memory kernel, in the
    order of the schedule. *)
Definition shared_done (sch : schedule) (bs : Z) : list Z :=
  flat_map (fun b => map (fun t => b * bs + t) (resume_order sch b)) (block_order sch).

(** The accesses of the thread of global index [g] in the naive kernel,
    launched with blocks of [bs] threads on the memory [m]. *)
Definition naive_accesses (m : gmem) (bs : Z) (g : Z) : list entry :=
  match mem_a m !! Z.to_nat g, mem_b m !! Z.to_nat g with
  | Some x, Some y =>
      map (fun acc => {| by_block := g / bs; by_thread := g mod bs; what := acc |})
        [GRead a_gpu g; GRead b_gpu g; GWrite c_gpu g (fadd32 x y)]
  | _, _ => []
  end.

(** The state of a naive launch once the threads of global indices
    [done] have run. *)
Definition naive_state (m : gmem) (bs : Z) (done : list Z) : state :=
  {| global := gmem_after m done;
     shared := fresh_shared;
     log := flat_map (naive_accesses m bs) done |}.

Definition put_staged (l : list float32) (g0 : Z) (sh : list (option float32)) (t : Z)
  : list (option float32) :=
  match l !! Z.to_nat (g0 + t) with
  | Some x => <[Z.to_nat t := Some x]> sh
  | None => sh
  end.

(** A shared array of a block whose first thread has global index [g0],
    once the threads [tids] have staged their value of [l]. *)
Definition staged (l : list float32) (g0 : Z) (tids : list Z) : list (option float32) :=
  fold_left (put_staged l g0) tids (repeat None (Z.to_nat shared_size)).

Definition smem_staged (m : gmem) (g0 : Z) (tids : list Z) : smem :=
  {| sh_a := staged (mem_a m) g0 tids; sh_b := staged (mem_b m) g0 tids |}.

(** The code of [matrix_add_shared_memory] after the barrier. *)
Definition after_barrier (c : buffer) (tid gid : Z) : code unit :=
  x <- sload shared_a tid ;;
  y <- sload shared_b tid ;;
  gstore c gid (fadd32 x y).

(** The accesses of thread [t] of block [bid] in the shared-memory
    kernel: before the barrier, and after it. *)
Definition staging_accesses (m : gmem) (bs bid t : Z) : list entry :=
  let g := bid * bs + t in
  match mem_a m !! Z.to_nat g, mem_b m !! Z.to_nat g with
  | Some x, Some y =>
      map (fun acc => {| by_block := bid; by_thread := t; what := acc |})
        [GRead a_gpu g; SWrite shared_a t x; GRead b_gpu g; SWrite shared_b t y]
  | _, _ => []
  end.

Definition adding_accesses (m : gmem) (bs bid t : Z) : list entry :=
  let g := bid * bs + t in
  match mem_a m !! Z.to_nat g, mem_b m !! Z.to_nat g with
  | Some x, Some y =>
      map (fun acc => {| by_block := bid; by_thread := t; what := acc |})
        [SRead shared_a t; SRead shared_b t; GWrite c_gpu g (fadd32 x y)]
  | _, _ => []
  end.

(** The threads [tids] of a block waiting at the barrier. *)
Definition waiting (bs bid : Z) (tids : list Z) : list (Z * reached) :=
  map (fun t => (t, AtBarrier
         (after_barrier c_gpu t (bid * bs + t)
            {| blockIdx := bid; blockDim := bs; threadIdx := t |}))) tids.

(** The operands are as they were. *)
Definition same_inputs (s s' : state) : Prop :=
  mem_a (global s') = mem_a (global s) /\ mem_b (global s') = mem_b (global s).

(** The code a thread runs after the barrier leaves the operands alone. *)
Definition resumes_keep (r : reached) : Prop :=
  match r with
  | Returned => True
  | AtBarrier rest => forall s v s', rest s = Done v s' -> same_inputs s s'
  end.

Definition kernel_keeps (k : kernel) : Prop :=
  forall x s r s', k x s = Done r s' -> same_inputs s s' /\ resumes_keep r.

(** ** Reading a log *)

Definition access_index (acc : access) : Z :=
  match acc with
  | GRead _ i | GWrite _ i _ | SRead _ i | SWrite _ i _ => i
  end.

Definition is_global (acc : access) : bool :=
  match acc with
  | GRead _ _ | GWrite _ _ _ => true
  | SRead _ _ | SWrite _ _ _ => false
  end.

(** The entry is a write to [c[i]]. *)
Definition writes_c (i : Z) (e : entry) : bool :=
  match what e with
  | GWrite c_gpu j _ => Z.eqb i j
  | _ => false
  end.

(** The entry is an access to global memory at an index in [0, n). *)
Definition within (n : Z) (e : entry) : Prop :=
  is_global (what e) = true /\ 0 <= access_index (what e) < n.

(** ** Lengths that are not a whole number of blocks *)

(** The threads of [tids] whose element exists. *)
Definition staging (n bs bid : Z) (tids : list Z) : list Z :=
  List.filter (fun t => Z.ltb (bid * bs + t) n) tids.

(** Where the threads [tids] of block [bid] of the shared-memory kernel
    stand once each has run as far as it can: at the barrier when its
    element exists, at the end of the kernel when it does not. *)
Definition stopped (n bs bid : Z) (tids : list Z) : list (Z * reached) :=
  map (fun t =>
         (t, if Z.ltb (bid * bs + t) n
             then AtBarrier (after_barrier c_gpu t (bid * bs + t)
                               {| blockIdx := bid; blockDim := bs; threadIdx := t |})
             else Returned)) tids.

(** ** The log of the shared-memory kernel *)

(** The accesses of block [b] in a launch of the shared-memory kernel:
    those before the barrier, then those after it. *)
Definition shared_block_log (m : gmem) (bs : Z) (sch : schedule) (b : Z) : list entry :=
  flat_map (staging_accesses m bs b) (thread_order sch b) ++
  flat_map (adding_accesses m bs b) (resume_order sch b).

Definition shared_log (m : gmem) (bs : Z) (sch : schedule) : list entry :=
  flat_map (shared_block_log m bs sch) (block_order sch).

(** The entry is an access to global memory. *)
Definition global_access (e : entry) : bool := is_global (what e).

(** An access to shared memory is to the cell of the thread that makes
    it, inside the array. *)
Definition own_cell (e : entry) : Prop :=
  match what e with
  | SRead _ i | SWrite _ i _ => i = by_thread e /\ 0 <= i < shared_size
  | GRead _ _ | GWrite _ _ _ => True
  end.

(** ** Arrays for the examples *)

Definition ramp (n : nat) (k : Z) : list float32 :=
  map (fun i => of_Z32 (k * Z.of_nat i)) (seq 0 n).

Definition no_junk (i : nat) : float32 := S754_nan.

End Cuda.


(* ================================================================== *)
(** * Facts about floats and their printed form *)
(* ================================================================== *)

Module FloatFacts.
Import Float.

(** ** The sign of a difference *)



















(** ** Printing with a fixed number of decimals *)

Section Strings.
Open Scope string_scope.

Lemma string_app_assoc (s1 s2 s3 : string) : (s1 ++ s2) ++ s3 = s1 ++ (s2 ++ s3).
Proof. induction s1 as [| ch s1 IH]; simpl; congruence. Qed.

Lemma string_length_app (s1 s2 : string) :
  String.length (s1 ++ s2) = (String.length s1 + String.length s2)%nat.
Proof. induction s1 as [| ch s1 IH]; simpl; congruence. Qed.

Lemma all_digits_app (s1 s2 : string) :
  all_digits (s1 ++ s2) = all_digits s1 && all_digits s2.
Proof.
  induction s1 as [| ch s1 IH]; simpl; [reflexivity |].
  now rewrite IH, andb_assoc.
Qed.

Lemma digit_is_digit (d : Z) : 0 <= d < 10 -> is_digit (digit d) = true.
Proof.
  intros Hd. unfold is_digit, digit.
  rewrite N_ascii_embedding by lia.
  apply andb_true_intro. split; apply N.leb_le; lia.
Qed.

Lemma frac_digits_length (p : nat) (n : Z) : String.length (frac_digits p n) = p.
Proof.
  revert n. induction p as [| p IH]; intros n; simpl; [reflexivity |].
  rewrite string_length_app, IH. simpl. lia.
Qed.

Lemma frac_digits_all (p : nat) (n : Z) : all_digits (frac_digits p n) = true.
Proof.
  revert n. induction p as [| p IH]; intros n; simpl; [reflexivity |].
  rewrite all_digits_app, IH. simpl.
  rewrite digit_is_digit by (apply Z.mod_pos_bound; lia). reflexivity.
Qed.

Lemma uint_digits_all (d : Decimal.uint) : all_digits (NilEmpty.string_of_uint d) = true.
Proof. induction d; simpl; auto. Qed.

Lemma int_digits_all (n : Z) : all_digits (int_digits n) = true.
Proof.
  unfold int_digits, NilZero.string_of_uint.
  destruct (N.to_uint (Z.to_N n)) eqn:E; try reflexivity;
    rewrite <- E; apply uint_digits_all.
Qed.

Lemma int_digits_nonempty (n : Z) : int_digits n <> EmptyString.
Proof.
  unfold int_digits, NilZero.string_of_uint.
  destruct (N.to_uint (Z.to_N n)); simpl; discriminate.
Qed.

Lemma strip_digits_point (ip fp : string) :
  all_digits ip = true ->
  strip_digits (ip ++ String "."%char fp) = String "."%char fp.
Proof.
  induction ip as [| ch ip IH]; simpl; intros H; [reflexivity |].
  apply andb_prop in H as [Hc Hip]. rewrite Hc. auto.
Qed.

Lemma unsigned_part_digit (ch : ascii) (s : string) :
  is_digit ch = true -> unsigned_part (String ch s) = String ch s.
Proof.
  destruct ch as [[] [] [] [] [] [] [] []]; intros H; try reflexivity; discriminate H.
Qed.

Lemma has_decimals_unsigned (p : nat) (ip fp : string) :
  ip <> EmptyString -> all_digits ip = true -> all_digits fp = true ->
  String.length fp = p ->
  match ip ++ String "."%char fp with
  | EmptyString => false
  | String d _ =>
      is_digit d &&
      match strip_digits (ip ++ String "."%char fp) with
      | String "."%char fp' => all_digits fp' && Nat.eqb (String.length fp') p
      | _ => false
      end
  end = true.
Proof.
  intros Hne Hip Hfp Hlen.
  rewrite strip_digits_point by assumption.
  destruct ip as [| d ip]; [congruence |].
  simpl in Hip. apply andb_prop in Hip as [Hd _].
  cbn [append]. rewrite Hd, Hfp, Hlen, Nat.eqb_refl. reflexivity.
Qed.

Lemma has_decimals_intro (p : nat) (sg : bool) (ip fp : string) :
  ip <> EmptyString -> all_digits ip = true -> all_digits fp = true ->
  String.length fp = p ->
  has_decimals p (sign_str sg ++ ip ++ String "."%char fp) = true.
Proof.
  intros Hne Hip Hfp Hlen. unfold has_decimals.
  destruct sg; simpl sign_str; simpl append.
  - change (unsigned_part (String "-"%char (ip ++ String "."%char fp)))
      with (ip ++ String "."%char fp).
    now apply has_decimals_unsigned.
  - destruct ip as [| d ip]; [congruence |].
    pose proof Hip as Hd. simpl in Hd. apply andb_prop in Hd as [Hd _].
    cbn [append]. rewrite unsigned_part_digit by assumption.
    now apply (has_decimals_unsigned p (String d ip) fp).
Qed.

(** A finite float printed with [.pf], [p > 0], shows exactly [p] decimals. *)
Lemma format_f_decimals (p : nat) (x : float) :
  (0 < p)%nat -> is_finite x = true -> has_decimals p (format_f p x) = true.
Proof.
  intros Hp Hx.
  destruct p as [| p]; [lia |].
  destruct x as [s | s | | s m e]; try discriminate; unfold format_f, fixed;
    apply has_decimals_intro;
    auto using int_digits_nonempty, int_digits_all, frac_digits_all, frac_digits_length.
Qed.

End Strings.

End FloatFacts.


(* ================================================================== *)
(** * The TensorFlow notebook: what a run does *)
(* ================================================================== *)

Module TimingFacts.
Import Float Timing FloatFacts.
Open Scope string_scope.

Section Runs.
Variable env : Env.

(** Two worlds with the same components are the same. *)
Lemma world_ext (w1 w2 : World) :
  now w1 = now w2 -> placement w1 = placement w2 -> stdout w1 = stdout w2 ->
  trace w1 = trace w2 -> draws w1 = draws w2 -> A w1 = A w2 -> B w1 = B w2 ->
  cpu_time w1 = cpu_time w2 -> gpu_time w1 = gpu_time w2 -> w1 = w2.
Proof. destruct w1, w2; cbn; intros; subst; reflexivity. Qed.

(** One call of [measure_time] for a selector the library reads, with
    the two globals bound to tensors that can be multiplied: the result,
    the instants of the two readings and the calls made. *)
Lemma measure_time_run (w : World) (d : string) (x y : tensor) :
  selector_accepted env d = true ->
  A w = Some x -> B w = Some y ->
  snd (shape x) = fst (shape y) ->
  let t0 := now w + cost env (OpBind d) in
  let t1 := t0 + cost env (OpMatmul d) + cost env (OpNumpy d) in
  measure_time env d w =
    (Ok (fsub (wall env t1) (wall env t0)),
     with_trace (trace w ++ [Did (OpBind d); Clock t0; Did (OpMatmul d);
                             Did (OpNumpy d); Clock t1])
       (with_now t1 w)).
Proof.
  intros Hd HA HB Hs t0 t1.
  unfold measure_time, tf_device. rewrite Hd.
  unfold bind, perform, time_time, global, tf_matmul, numpy, current_device, ret.
  cbn. rewrite HA. cbn. rewrite HB. cbn.
  apply Z.eqb_eq in Hs. rewrite Hs. cbn.
  f_equal. apply world_ext; cbn; try reflexivity.
  repeat rewrite <- app_assoc. reflexivity.
Qed.

(** [print] adds one line to the output and nothing else changes but the
    instant and the trace. *)
Lemma print_run (s : string) (w : World) :
  print env s w =
    (Ok tt, with_stdout (stdout w ++ s ++ nl)
              (with_trace (trace w ++ [Did OpPrint])
                 (with_now (now w + cost env OpPrint) w))).
Proof. reflexivity. Qed.

Lemma probe_run (w : World) :
  is_gpu_available env w =
    (Ok (gpu env), with_trace (trace w ++ [Did OpProbe])
                     (with_now (now w + cost env OpProbe) w)).
Proof. reflexivity. Qed.

Lemma global_run {T} (name : string) (field : World -> option T) (w : World) (v : T) :
  field w = Some v -> global name field w = (Ok v, w).
Proof. intros H. unfold global. now rewrite H. Qed.

(** One step of a cell: the first call of a sequence is replaced by what
    it returns. *)
Ltac run_bind :=
  unfold bind at 1;
  first [ rewrite probe_run
        | rewrite print_run
        | erewrite global_run by (cbn; eassumption) ];
  cbv beta iota.


(** C2. Without a GPU, step 5 prints a blank line and the line
    [No GPU available. Skipping GPU computation.], and makes no timing
    call: the only calls are the probe and the print, no device is bound,
    the clock is not read, [gpu_time] stays as it was. *)
Theorem step5_without_gpu (w : World) :
  gpu env = false ->
  exists w' : World,
    step5 env w = (Ok tt, w') /\
    stdout w' = stdout w ++ nl ++ "No GPU available. Skipping GPU computation." ++ nl /\
    trace w' = (trace w ++ [Did OpProbe; Did OpPrint])%list /\
    gpu_time w' = gpu_time w.
Proof.
  intros Hg. unfold step5, is_gpu_available, bind, perform, ret. cbn.
  rewrite Hg. rewrite print_run. eexists. split; [reflexivity |]. cbn.
  repeat split. now rewrite <- app_assoc.
Qed.

(** C3 (as amended). [measure_time] makes no check that the device is
    there.  On a machine without a GPU, a call for ["/GPU:0"] goes the
    way of any other call: the selector is bound, the clock is read
    around the product and its transfer, and the difference of the two
    readings is returned.  No call of [measure_time], whatever the
    selector and the state of the notebook, ends with
    [DeviceUnavailable]. *)
Theorem measure_time_checks_no_device (w : World) (x y : tensor) :
  gpu env = false ->
  A w = Some x -> B w = Some y ->
  snd (shape x) = fst (shape y) ->
  (exists (t0 t1 : Z) (w' : World),
     measure_time env "/GPU:0" w = (Ok (fsub (wall env t1) (wall env t0)), w') /\
     trace w' = (trace w ++ [Did (OpBind "/GPU:0"); Clock t0; Did (OpMatmul "/GPU:0");
                             Did (OpNumpy "/GPU:0"); Clock t1])%list /\
     t1 - t0 = cost env (OpMatmul "/GPU:0") + cost env (OpNumpy "/GPU:0")) /\
  (forall (d : string) (w0 : World),
     fst (measure_time env d w0) <> Raise DeviceUnavailable).
Proof.
  intros _ HA HB Hs. split.
  - rewrite (measure_time_run w "/GPU:0" x y eq_refl HA HB Hs).
    eexists _, _, _. split; [reflexivity |]. cbn [trace with_trace with_now].
    split; [reflexivity | lia].
  - intros d w0.
    unfold measure_time, tf_device, bind, perform, time_time, global,
      tf_matmul, numpy, current_device, ret, raise.
    destruct (selector_accepted env d); cbn; [| discriminate].
    destruct (A w0) as [x0 |]; cbn; [| discriminate].
    destruct (B w0) as [y0 |]; cbn; [| discriminate].
    destruct (Z.eqb (snd (shape x0)) (fst (shape y0))); cbn; discriminate.
Qed.

(** C5. In every call of [measure_time] that goes through, the first
    reading of the clock comes after the device is bound and before the
    product is asked for, the second after the result has been brought
    to the host; the duration is the difference of the two readings,
    and the window between them lasts what the product and the transfer
    take.  Whatever ran before the call, the generation of the inputs
    included, is before the window opens. *)
Theorem measure_time_window (w : World) (d : string) (x y : tensor) :
  selector_accepted env d = true ->
  A w = Some x -> B w = Some y ->
  snd (shape x) = fst (shape y) ->
  exists (t0 t1 : Z) (w' : World),
    measure_time env d w = (Ok (fsub (wall env t1) (wall env t0)), w') /\
    trace w' = (trace w ++ [Did (OpBind d); Clock t0; Did (OpMatmul d);
                            Did (OpNumpy d); Clock t1])%list /\
    t0 = now w + cost env (OpBind d) /\
    t1 - t0 = cost env (OpMatmul d) + cost env (OpNumpy d).
Proof.
  intros Hd HA HB Hs.
  rewrite (measure_time_run w d x y Hd HA HB Hs).
  eexists _, _, _. split; [reflexivity |]. cbn. repeat split. lia.
Qed.

(** Step 3 binds [A] and [B] to two fresh square tensors; its trace is
    the two generations. *)
Lemma step3_run (w : World) :
  exists w3 : World,
    step3 env w = (Ok tt, w3) /\
    A w3 = Some {| shape := (matrix_size, matrix_size);
                   data := normal env (draws w) (matrix_size, matrix_size) |} /\
    B w3 = Some {| shape := (matrix_size, matrix_size);
                   data := normal env (S (draws w)) (matrix_size, matrix_size) |} /\
    now w3 = now w + cost env (OpRandomNormal (matrix_size, matrix_size))
                   + cost env (OpRandomNormal (matrix_size, matrix_size)) /\
    trace w3 = (trace w ++ [Did (OpRandomNormal (matrix_size, matrix_size));
                            Did (OpRandomNormal (matrix_size, matrix_size))])%list.
Proof.
  eexists. split; [reflexivity |]. cbn. repeat split.
  now rewrite <- app_assoc.
Qed.

(** The notebook generates the inputs, then calls [measure_time]: both
    generations are in the trace before the first reading of the clock,
    and the window does not depend on what they cost. *)
Lemma generation_before_window (w : World) (d : string) :
  selector_accepted env d = true ->
  exists (t0 t1 : Z) (w' : World),
    (step3 env ;;; measure_time env d) w
      = (Ok (fsub (wall env t1) (wall env t0)), w') /\
    trace w' = (trace w ++ [Did (OpRandomNormal (matrix_size, matrix_size));
                            Did (OpRandomNormal (matrix_size, matrix_size));
                            Did (OpBind d); Clock t0; Did (OpMatmul d);
                            Did (OpNumpy d); Clock t1])%list /\
    t1 - t0 = cost env (OpMatmul d) + cost env (OpNumpy d).
Proof.
  intros Hd.
  destruct (step3_run w) as (w3 & Hrun & HA & HB & Hnow & Htrace).
  unfold bind at 1. rewrite Hrun.
  rewrite (measure_time_run w3 d _ _ Hd HA HB eq_refl).
  eexists _, _, _. split; [reflexivity |].
  cbn [trace with_trace with_now]. rewrite Htrace, <- app_assoc. split; [reflexivity | lia].
Qed.

(** C6 (as amended). With a GPU, once both durations are known, step 6
    prints the comparison and, when [gpu_time] is not zero, ends with
    the line [Speedup: <r>x faster on GPU!] where [r] is
    [cpu_time / gpu_time] printed with [.2f]; when the quotient is
    finite, that is a number with exactly two decimal places. *)
Theorem step6_speedup (w : World) (c g : float) :
  gpu env = true ->
  cpu_time w = Some c -> gpu_time w = Some g ->
  feqb g fzero = false ->
  is_finite (fdiv c g) = true ->
  exists w' : World,
    step6 env w = (Ok tt, w') /\
    stdout w' =
      stdout w ++ nl ++ "Comparison:" ++ nl ++
      "CPU time: " ++ format_f 4 c ++ " seconds" ++ nl ++
      "GPU time: " ++ format_f 4 g ++ " seconds" ++ nl ++
      "Speedup: " ++ format_f 2 (fdiv c g) ++ "x faster on GPU!" ++ nl /\
    has_decimals 2 (format_f 2 (fdiv c g)) = true.
Proof.
  intros Hg Hc Hgt Hnz Hfin.
  assert (Hdiv : forall w0, truediv c g w0 = (Ok (fdiv c g), w0)).
  { intros w0. destruct g; try reflexivity. discriminate Hnz. }
  unfold step6.
  run_bind. rewrite Hg.
  do 7 run_bind.
  unfold bind at 1. rewrite Hdiv. cbv beta iota.
  rewrite print_run.
  eexists. split; [reflexivity |].
  cbn [stdout with_stdout with_trace with_now]. split.
  - repeat rewrite string_app_assoc. reflexivity.
  - apply format_f_decimals; [lia | assumption].
Qed.

(** [measure_time] never rebinds or changes the globals [A] and [B],
    however the call ends. *)
Lemma measure_time_keeps_inputs (w : World) (d : string) :
  A (snd (measure_time env d w)) = A w /\ B (snd (measure_time env d w)) = B w.
Proof.
  unfold measure_time, tf_device, bind, perform, time_time, global,
    tf_matmul, numpy, current_device, ret, raise.
  destruct (selector_accepted env d); cbn; [| split; reflexivity].
  destruct (A w) as [x |] eqn:HA; cbn; [| split; congruence].
  destruct (B w) as [y |] eqn:HB; cbn; [| split; congruence].
  destruct (Z.eqb (snd (shape x)) (fst (shape y))); cbn; split; congruence.
Qed.

End Runs.

(** ** The example machines *)







(** Two tensors of the same shape need not be valid operands: the
    product of two tensors of 2 rows and 3 columns is refused, and no
    duration is returned. *)
Example same_shape_not_square :
  let w := with_B wide (with_A wide initial) in
  shape wide = (2, 3) /\
  fst (measure_time (machine true steady) "/CPU:0" w) = Raise ShapeMismatch.
Proof. split; reflexivity. Qed.

Lemma step5_without_gpu_witness :
  exists w' : World,
    step5 (machine false steady) initial = (Ok tt, w') /\
    stdout w' = stdout initial ++ nl ++ "No GPU available. Skipping GPU computation." ++ nl /\
    trace w' = (trace initial ++ [Did OpProbe; Did OpPrint])%list /\
    gpu_time w' = gpu_time initial.
Proof.
  apply (step5_without_gpu (machine false steady) initial). reflexivity.
Defined.

Lemma measure_time_checks_no_device_witness :
  (exists (t0 t1 : Z) (w' : World),
     measure_time (machine false steady) "/GPU:0" ready
       = (Ok (fsub (steady t1) (steady t0)), w') /\
     trace w' = [Did (OpBind "/GPU:0"); Clock t0; Did (OpMatmul "/GPU:0");
                 Did (OpNumpy "/GPU:0"); Clock t1] /\
     t1 - t0 = 30 + 1) /\
  (forall (d : string) (w0 : World),
     fst (measure_time (machine false steady) d w0) <> Raise DeviceUnavailable).
Proof.
  exact (measure_time_checks_no_device (machine false steady) ready small small
           eq_refl eq_refl eq_refl eq_refl).
Defined.

(** C3, as stated, fails: on a machine without a GPU the call for
    ["/GPU:0"] is not stopped; it returns a duration, here the 20
    seconds the clock advanced while the product ran on the CPU. *)
Lemma measure_time_absent_gpu_returns :
  gpu (machine false steady) = false /\
  exists w' : World,
    measure_time (machine false steady) "/GPU:0" ready = (Ok (of_Z 20), w') /\
    trace w' = [Did (OpBind "/GPU:0"); Clock 0; Did (OpMatmul "/GPU:0");
                Did (OpNumpy "/GPU:0"); Clock 31].
Proof.
  split; [reflexivity |].
  eexists. split; [vm_compute; reflexivity | reflexivity].
Qed.

Lemma measure_time_window_witness :
  exists (t0 t1 : Z) (w' : World),
    measure_time (machine true steady) "/GPU:0" ready
      = (Ok (fsub (steady t1) (steady t0)), w') /\
    trace w' = [Did (OpBind "/GPU:0"); Clock t0; Did (OpMatmul "/GPU:0");
                Did (OpNumpy "/GPU:0"); Clock t1] /\
    t0 = 0 /\ t1 - t0 = 3.
Proof.
  apply (measure_time_window (machine true steady) ready "/GPU:0" small small);
    reflexivity.
Defined.

Lemma step6_speedup_witness :
  exists w' : World,
    step6 (machine true steady) timed = (Ok tt, w') /\
    stdout w' =
      stdout timed ++ nl ++ "Comparison:" ++ nl ++
      "CPU time: " ++ format_f 4 (of_Z 31) ++ " seconds" ++ nl ++
      "GPU time: " ++ format_f 4 (of_Z 3) ++ " seconds" ++ nl ++
      "Speedup: " ++ format_f 2 (fdiv (of_Z 31) (of_Z 3)) ++ "x faster on GPU!" ++ nl /\
    has_decimals 2 (format_f 2 (fdiv (of_Z 31) (of_Z 3))) = true.
Proof.
  apply (step6_speedup (machine true steady) timed (of_Z 31) (of_Z 3));
    vm_compute; reflexivity.
Defined.

Example speedup_line : format_f 2 (fdiv (of_Z 31) (of_Z 3)) = "10.33".
Proof. vm_compute. reflexivity. Qed.

(** The whole notebook on a machine with a GPU and a clock that
    advances, and on a machine without a GPU. *)
Example notebook_with_gpu :
  let r := notebook (machine true steady) initial in
  fst r = Ok tt /\
  stdout (snd r) =
    "Is there a GPU available?: True" ++ nl ++
    "GPU Device Name: /device:GPU:0" ++ nl ++ nl ++
    "Performing computation on CPU..." ++ nl ++
    "Time taken on CPU: 31.0000 seconds" ++ nl ++ nl ++
    "Performing computation on GPU..." ++ nl ++
    "Time taken on GPU: 3.0000 seconds" ++ nl ++ nl ++
    "Comparison:" ++ nl ++
    "CPU time: 31.0000 seconds" ++ nl ++
    "GPU time: 3.0000 seconds" ++ nl ++
    "Speedup: 10.33x faster on GPU!" ++ nl.
Proof. split; vm_compute; reflexivity. Qed.

Example notebook_without_gpu :
  let r := notebook (machine false steady) initial in
  fst r = Ok tt /\
  stdout (snd r) =
    "Is there a GPU available?: False" ++ nl ++
    "GPU Device Name: " ++ nl ++ nl ++
    "Performing computation on CPU..." ++ nl ++
    "Time taken on CPU: 31.0000 seconds" ++ nl ++ nl ++
    "No GPU available. Skipping GPU computation." ++ nl ++ nl ++
    "Comparison not available as no GPU is detected." ++ nl /\
  gpu_time (snd r) = None.
Proof. repeat split; vm_compute; reflexivity. Qed.

(** C6, as stated, fails: on a machine whose clock shows the same
    reading before and after the GPU run, [gpu_time] is [0.0], the
    division raises [ZeroDivisionError] and no speedup is printed. *)
Lemma step6_zero_gpu_time :
  let m := machine true coarse in
  let r := (step2 m ;;; step3 m ;;; step4 m ;;; step5 m) initial in
  gpu m = true /\
  fst r = Ok tt /\
  cpu_time (snd r) = Some (of_Z 32) /\
  gpu_time (snd r) = Some (S754_zero false) /\
  fst (step6 m (snd r)) = Raise ZeroDivisionError /\
  stdout (snd (step6 m (snd r))) =
    stdout (snd r) ++ nl ++ "Comparison:" ++ nl ++
    "CPU time: 32.0000 seconds" ++ nl ++ "GPU time: 0.0000 seconds" ++ nl.
Proof. repeat split; vm_compute; reflexivity. Qed.

(** ** The cells, one by one

    What each cell leaves behind, as a world; then what the cells do
    together. *)

Section Cells.
Variable env : Env.

Lemma cpu_accepted : selector_accepted env "/CPU:0" = true.
Proof. reflexivity. Qed.

Lemma gpu_accepted : selector_accepted env "/GPU:0" = true.
Proof. reflexivity. Qed.

Ltac run_call :=
  unfold bind at 1;
  first [ rewrite probe_run
        | rewrite print_run
        | erewrite global_run by (cbn; eassumption) ];
  cbv beta iota.

Ltac fields :=
  cbn [now placement stdout trace draws A B cpu_time gpu_time
       with_now with_placement with_stdout with_trace with_draws with_A with_B
       with_cpu_time with_gpu_time].

Ltac same_world :=
  apply world_ext; fields; try reflexivity;
  try (rewrite !string_app_assoc; reflexivity);
  try (rewrite <- !app_assoc; reflexivity).

Lemma assign_run (set : World -> World) (w : World) :
  assign set w = (Ok tt, set w).
Proof. reflexivity. Qed.

Lemma device_name_run (w : World) :
  gpu_device_name env w =
    (Ok (if gpu env then "/device:GPU:0" else EmptyString),
     with_trace (trace w ++ [Did OpProbe]) (with_now (now w + cost env OpProbe) w)).
Proof. reflexivity. Qed.

Lemma random_normal_run (s : Z * Z) (w : World) :
  tf_random_normal env s w =
    (Ok {| shape := s; data := normal env (draws w) s |},
     with_draws (S (draws w))
       (with_trace (trace w ++ [Did (OpRandomNormal s)])
          (with_now (now w + cost env (OpRandomNormal s)) w))).
Proof. reflexivity. Qed.

(** Step 2, whatever the world. *)
Lemma cell2_run (w : World) :
  step2 env w =
    (Ok tt,
     with_stdout (stdout w ++
                  "Is there a GPU available?: " ++ (if gpu env then "True" else "False") ++ nl ++
                  "GPU Device Name: " ++ (if gpu env then "/device:GPU:0" else EmptyString) ++ nl)
       (with_trace (trace w ++ [Did OpProbe; Did OpPrint; Did OpProbe; Did OpPrint])
          (with_now (now w + cost env OpProbe + cost env OpPrint
                     + cost env OpProbe + cost env OpPrint) w))).
Proof.
  unfold step2. do 2 run_call.
  unfold bind at 1. rewrite device_name_run. cbv beta iota.
  rewrite print_run. f_equal.
  same_world.
Qed.

(** Step 3, whatever the world. *)
Lemma cell3_run (w : World) :
  let s := (matrix_size, matrix_size) in
  step3 env w =
    (Ok tt,
     with_B {| shape := s; data := normal env (S (draws w)) s |}
       (with_A {| shape := s; data := normal env (draws w) s |}
          (with_draws (S (S (draws w)))
             (with_trace (trace w ++ [Did (OpRandomNormal s); Did (OpRandomNormal s)])
                (with_now (now w + cost env (OpRandomNormal s)
                           + cost env (OpRandomNormal s)) w))))).
Proof.
  intros s. unfold step3.
  unfold bind at 1. rewrite random_normal_run. cbv beta iota.
  unfold bind at 1. rewrite assign_run. cbv beta iota.
  unfold bind at 1. rewrite random_normal_run. cbv beta iota.
  rewrite assign_run. f_equal.
  same_world.
Qed.

(** Step 4 when the inputs are there. *)
Lemma cell4_run (w : World) (x y : tensor) :
  A w = Some x -> B w = Some y -> snd (shape x) = fst (shape y) ->
  let t0 := now w + cost env OpPrint + cost env (OpBind "/CPU:0") in
  let t1 := t0 + cost env (OpMatmul "/CPU:0") + cost env (OpNumpy "/CPU:0") in
  let dur := fsub (wall env t1) (wall env t0) in
  step4 env w =
    (Ok tt,
     with_stdout (stdout w ++ nl ++ "Performing computation on CPU..." ++ nl ++
                  "Time taken on CPU: " ++ format_f 4 dur ++ " seconds" ++ nl)
       (with_trace (trace w ++ [Did OpPrint; Did (OpBind "/CPU:0"); Clock t0;
                                Did (OpMatmul "/CPU:0"); Did (OpNumpy "/CPU:0");
                                Clock t1; Did OpPrint])
          (with_now (t1 + cost env OpPrint) (with_cpu_time dur w)))).
Proof.
  intros HA HB Hs t0 t1 dur. unfold step4.
  run_call.
  unfold bind at 1.
  rewrite (measure_time_run env _ "/CPU:0" x y cpu_accepted) by (fields; assumption).
  cbv beta iota zeta.
  unfold bind at 1. rewrite assign_run. cbv beta iota.
  unfold bind at 1. erewrite global_run by (fields; reflexivity). cbv beta iota.
  rewrite print_run. f_equal.
  subst dur t1 t0. same_world.
Qed.

(** Step 5 on a machine with a GPU, when the inputs are there. *)
Lemma cell5_gpu_run (w : World) (x y : tensor) :
  gpu env = true ->
  A w = Some x -> B w = Some y -> snd (shape x) = fst (shape y) ->
  let t0 := now w + cost env OpProbe + cost env OpPrint + cost env (OpBind "/GPU:0") in
  let t1 := t0 + cost env (OpMatmul "/GPU:0") + cost env (OpNumpy "/GPU:0") in
  let dur := fsub (wall env t1) (wall env t0) in
  step5 env w =
    (Ok tt,
     with_stdout (stdout w ++ nl ++ "Performing computation on GPU..." ++ nl ++
                  "Time taken on GPU: " ++ format_f 4 dur ++ " seconds" ++ nl)
       (with_trace (trace w ++ [Did OpProbe; Did OpPrint; Did (OpBind "/GPU:0"); Clock t0;
                                Did (OpMatmul "/GPU:0"); Did (OpNumpy "/GPU:0");
                                Clock t1; Did OpPrint])
          (with_now (t1 + cost env OpPrint) (with_gpu_time dur w)))).
Proof.
  intros Hg HA HB Hs t0 t1 dur. unfold step5.
  run_call. rewrite Hg. run_call.
  unfold bind at 1.
  rewrite (measure_time_run env _ "/GPU:0" x y gpu_accepted) by (fields; assumption).
  cbv beta iota zeta.
  unfold bind at 1. rewrite assign_run. cbv beta iota.
  unfold bind at 1. erewrite global_run by (fields; reflexivity). cbv beta iota.
  rewrite print_run. f_equal.
  subst dur t1 t0. same_world.
Qed.

(** Step 5 on a machine without a GPU. *)
Lemma cell5_skip_run (w : World) :
  gpu env = false ->
  step5 env w =
    (Ok tt,
     with_stdout (stdout w ++ nl ++ "No GPU available. Skipping GPU computation." ++ nl)
       (with_trace (trace w ++ [Did OpProbe; Did OpPrint])
          (with_now (now w + cost env OpProbe + cost env OpPrint) w))).
Proof.
  intros Hg. unfold step5. run_call. rewrite Hg. rewrite print_run. f_equal.
  same_world.
Qed.

(** Step 6 on a machine without a GPU. *)
Lemma cell6_skip_run (w : World) :
  gpu env = false ->
  step6 env w =
    (Ok tt,
     with_stdout (stdout w ++ nl ++ "Comparison not available as no GPU is detected." ++ nl)
       (with_trace (trace w ++ [Did OpProbe; Did OpPrint])
          (with_now (now w + cost env OpProbe + cost env OpPrint) w))).
Proof.
  intros Hg. unfold step6. run_call. rewrite Hg. rewrite print_run. f_equal.
  same_world.
Qed.

(** Step 6 with a GPU and both durations: up to the division. *)
Lemma cell6_gpu_run (w : World) (c g : float) :
  gpu env = true -> cpu_time w = Some c -> gpu_time w = Some g ->
  let out := stdout w ++ nl ++ "Comparison:" ++ nl ++
             "CPU time: " ++ format_f 4 c ++ " seconds" ++ nl ++
             "GPU time: " ++ format_f 4 g ++ " seconds" ++ nl in
  let w3 := with_stdout out
              (with_trace (trace w ++ [Did OpProbe; Did OpPrint; Did OpPrint; Did OpPrint])
                 (with_now (now w + cost env OpProbe + cost env OpPrint
                            + cost env OpPrint + cost env OpPrint) w)) in
  step6 env w =
    match g with
    | S754_zero _ => (Raise ZeroDivisionError, w3)
    | _ =>
        (Ok tt,
         with_stdout (out ++ "Speedup: " ++ format_f 2 (fdiv c g) ++ "x faster on GPU!" ++ nl)
           (with_trace (trace w ++ [Did OpProbe; Did OpPrint; Did OpPrint; Did OpPrint;
                                    Did OpPrint])
              (with_now (now w + cost env OpProbe + cost env OpPrint + cost env OpPrint
                         + cost env OpPrint + cost env OpPrint) w)))
    end.
Proof.
  intros Hg Hc Hgt out w3. unfold step6.
  run_call. rewrite Hg. do 7 run_call.
  unfold bind at 1, truediv.
  destruct g as [sg | sg | | sg mg eg]; unfold raise, ret; cbv beta iota;
    try rewrite print_run; f_equal; subst w3 out; same_world.
Qed.



Ltac next_cell lem :=
  unfold bind at 1; erewrite lem by (try assumption; fields; reflexivity);
  cbv beta iota zeta; fields.

(** With a GPU, the cells before the comparison go through: the world
    in which step 6 starts. *)
Lemma notebook_reaches_step6_gpu (w : World) :
  gpu env = true ->
  let s := (matrix_size, matrix_size) in
  exists (w5 : World) (t0 t1 t2 t3 : Z),
    notebook env w = step6 env w5 /\
    placement w5 = placement w /\
    draws w5 = S (S (draws w)) /\
    A w5 = Some {| shape := s; data := normal env (draws w) s |} /\
    B w5 = Some {| shape := s; data := normal env (S (draws w)) s |} /\
    cpu_time w5 = Some (fsub (wall env t1) (wall env t0)) /\
    gpu_time w5 = Some (fsub (wall env t3) (wall env t2)) /\
    trace w5 =
      (trace w ++
       [Did OpProbe; Did OpPrint; Did OpProbe; Did OpPrint;
        Did (OpRandomNormal s); Did (OpRandomNormal s);
        Did OpPrint; Did (OpBind "/CPU:0"); Clock t0;
        Did (OpMatmul "/CPU:0"); Did (OpNumpy "/CPU:0"); Clock t1; Did OpPrint;
        Did OpProbe; Did OpPrint; Did (OpBind "/GPU:0"); Clock t2;
        Did (OpMatmul "/GPU:0"); Did (OpNumpy "/GPU:0"); Clock t3; Did OpPrint])%list /\
    stdout w5 =
      stdout w ++
      "Is there a GPU available?: True" ++ nl ++
      "GPU Device Name: /device:GPU:0" ++ nl ++ nl ++
      "Performing computation on CPU..." ++ nl ++
      "Time taken on CPU: " ++ format_f 4 (fsub (wall env t1) (wall env t0)) ++
      " seconds" ++ nl ++ nl ++
      "Performing computation on GPU..." ++ nl ++
      "Time taken on GPU: " ++ format_f 4 (fsub (wall env t3) (wall env t2)) ++
      " seconds" ++ nl /\
    t0 = now w + cost env OpProbe + cost env OpPrint + cost env OpProbe + cost env OpPrint
         + cost env (OpRandomNormal s) + cost env (OpRandomNormal s)
         + cost env OpPrint + cost env (OpBind "/CPU:0") /\
    t1 = t0 + cost env (OpMatmul "/CPU:0") + cost env (OpNumpy "/CPU:0") /\
    t2 = t1 + cost env OpPrint + cost env OpProbe + cost env OpPrint
         + cost env (OpBind "/GPU:0") /\
    t3 = t2 + cost env (OpMatmul "/GPU:0") + cost env (OpNumpy "/GPU:0").
Proof.
  intros Hg s. unfold notebook.
  next_cell cell2_run.
  next_cell cell3_run.
  next_cell cell4_run.
  next_cell cell5_gpu_run.
  rewrite Hg.
  eexists _, _, _, _, _. split; [reflexivity |]. fields.
  repeat split; try reflexivity.
  - rewrite <- !app_assoc. reflexivity.
  - rewrite !string_app_assoc. reflexivity.
Qed.

(** Without a GPU: the world in which step 6 starts. *)
Lemma notebook_reaches_step6_cpu (w : World) :
  gpu env = false ->
  let s := (matrix_size, matrix_size) in
  exists (w5 : World) (t0 t1 : Z),
    notebook env w = step6 env w5 /\
    placement w5 = placement w /\
    draws w5 = S (S (draws w)) /\
    A w5 = Some {| shape := s; data := normal env (draws w) s |} /\
    B w5 = Some {| shape := s; data := normal env (S (draws w)) s |} /\
    cpu_time w5 = Some (fsub (wall env t1) (wall env t0)) /\
    gpu_time w5 = gpu_time w /\
    trace w5 =
      (trace w ++
       [Did OpProbe; Did OpPrint; Did OpProbe; Did OpPrint;
        Did (OpRandomNormal s); Did (OpRandomNormal s);
        Did OpPrint; Did (OpBind "/CPU:0"); Clock t0;
        Did (OpMatmul "/CPU:0"); Did (OpNumpy "/CPU:0"); Clock t1; Did OpPrint;
        Did OpProbe; Did OpPrint])%list /\
    stdout w5 =
      stdout w ++
      "Is there a GPU available?: False" ++ nl ++
      "GPU Device Name: " ++ nl ++ nl ++
      "Performing computation on CPU..." ++ nl ++
      "Time taken on CPU: " ++ format_f 4 (fsub (wall env t1) (wall env t0)) ++
      " seconds" ++ nl ++ nl ++
      "No GPU available. Skipping GPU computation." ++ nl /\
    t0 = now w + cost env OpProbe + cost env OpPrint + cost env OpProbe + cost env OpPrint
         + cost env (OpRandomNormal s) + cost env (OpRandomNormal s)
         + cost env OpPrint + cost env (OpBind "/CPU:0") /\
    t1 = t0 + cost env (OpMatmul "/CPU:0") + cost env (OpNumpy "/CPU:0").
Proof.
  intros Hg s. unfold notebook.
  next_cell cell2_run.
  next_cell cell3_run.
  next_cell cell4_run.
  next_cell cell5_skip_run.
  rewrite Hg.
  eexists _, _, _. split; [reflexivity |]. fields.
  repeat split; try reflexivity.
  - rewrite <- !app_assoc. reflexivity.
  - rewrite !string_app_assoc. reflexivity.
Qed.

(** X5. A call of [measure_time] for a selector the library reads, the
    two of the notebook among them, while [A] or [B] is not bound
    (step 3 did not run): the call stops with
    [NameError] on the first name missing.  The device was bound and the
    clock read once; no product was computed, nothing was printed, no
    duration was bound, and the device scope has been left. *)
Theorem measure_time_unbound_input (w : World) (d : string) :
  selector_accepted env d = true ->
  A w = None \/ B w = None ->
  exists w' : World,
    measure_time env d w =
      (Raise (NameError (match A w with None => "A" | Some _ => "B" end)), w') /\
    trace w' = (trace w ++ [Did (OpBind d); Clock (now w + cost env (OpBind d))])%list /\
    placement w' = placement w /\
    stdout w' = stdout w /\ cpu_time w' = cpu_time w /\ gpu_time w' = gpu_time w.
Proof.
  intros Hd Hnone.
  unfold measure_time, tf_device. rewrite Hd.
  unfold bind, perform, time_time, global. fields.
  destruct (A w) as [x |] eqn:HA.
  - destruct Hnone as [Hn | Hn]; [discriminate |]. fields. rewrite Hn.
    eexists. split; [reflexivity |]. fields.
    repeat split. rewrite <- !app_assoc. reflexivity.
  - eexists. split; [reflexivity |]. fields.
    repeat split. rewrite <- !app_assoc. reflexivity.
Qed.

(** X1. Step 4, once [A] and [B] hold two tensors that can be
    multiplied: the cell goes through, binds [cpu_time] to the
    difference of two readings of the clock taken around the product and
    its transfer on ["/CPU:0"], and prints the announcement and the line
    [Time taken on CPU: <t> seconds] with the duration formatted by
    [.4f], a number with exactly four decimals when the duration is
    finite.  The inputs, [gpu_time] and the device scope are as they
    were. *)
Theorem step4_reports_cpu_time (w : World) (x y : tensor) :
  A w = Some x -> B w = Some y -> snd (shape x) = fst (shape y) ->
  exists (t0 t1 : Z) (w' : World),
    step4 env w = (Ok tt, w') /\
    cpu_time w' = Some (fsub (wall env t1) (wall env t0)) /\
    t1 - t0 = cost env (OpMatmul "/CPU:0") + cost env (OpNumpy "/CPU:0") /\
    stdout w' =
      stdout w ++ nl ++ "Performing computation on CPU..." ++ nl ++
      "Time taken on CPU: " ++ format_f 4 (fsub (wall env t1) (wall env t0)) ++
      " seconds" ++ nl /\
    (is_finite (fsub (wall env t1) (wall env t0)) = true ->
     has_decimals 4 (format_f 4 (fsub (wall env t1) (wall env t0))) = true) /\
    A w' = A w /\ B w' = B w /\ gpu_time w' = gpu_time w /\ placement w' = placement w.
Proof.
  intros HA HB Hs. rewrite (cell4_run w x y HA HB Hs). cbv zeta.
  eexists _, _, _. split; [reflexivity |]. fields.
  repeat split; try lia.
  intros Hfin. apply format_f_decimals; [lia | exact Hfin].
Qed.

(** X2. Step 5 on a machine with a GPU, once [A] and [B] hold two
    tensors that can be multiplied: the cell goes through, binds
    [gpu_time] to the difference of two readings of the clock taken
    around the product and its transfer on ["/GPU:0"], and prints the
    announcement and the line [Time taken on GPU: <t> seconds] with the
    duration formatted by [.4f].  The inputs, [cpu_time] and the device
    scope are as they were. *)
Theorem step5_reports_gpu_time (w : World) (x y : tensor) :
  gpu env = true ->
  A w = Some x -> B w = Some y -> snd (shape x) = fst (shape y) ->
  exists (t0 t1 : Z) (w' : World),
    step5 env w = (Ok tt, w') /\
    gpu_time w' = Some (fsub (wall env t1) (wall env t0)) /\
    t1 - t0 = cost env (OpMatmul "/GPU:0") + cost env (OpNumpy "/GPU:0") /\
    stdout w' =
      stdout w ++ nl ++ "Performing computation on GPU..." ++ nl ++
      "Time taken on GPU: " ++ format_f 4 (fsub (wall env t1) (wall env t0)) ++
      " seconds" ++ nl /\
    (is_finite (fsub (wall env t1) (wall env t0)) = true ->
     has_decimals 4 (format_f 4 (fsub (wall env t1) (wall env t0))) = true) /\
    A w' = A w /\ B w' = B w /\ cpu_time w' = cpu_time w /\ placement w' = placement w.
Proof.
  intros Hg HA HB Hs. rewrite (cell5_gpu_run w x y Hg HA HB Hs). cbv zeta.
  eexists _, _, _. split; [reflexivity |]. fields.
  repeat split; try lia.
  intros Hfin. apply format_f_decimals; [lia | exact Hfin].
Qed.

(** X3. Without a GPU, step 6 prints a blank line and the line
    [Comparison not available as no GPU is detected.], and does nothing
    else: it reads neither [cpu_time] nor [gpu_time], so it goes through
    even when they are not bound, and it does not divide. *)
Theorem step6_without_gpu (w : World) :
  gpu env = false ->
  exists w' : World,
    step6 env w = (Ok tt, w') /\
    stdout w' = stdout w ++ nl ++ "Comparison not available as no GPU is detected." ++ nl /\
    trace w' = (trace w ++ [Did OpProbe; Did OpPrint])%list /\
    cpu_time w' = cpu_time w /\ gpu_time w' = gpu_time w.
Proof.
  intros Hg. rewrite (cell6_skip_run w Hg).
  eexists. split; [reflexivity |]. fields. repeat split.
Qed.

(** X4. With a GPU, step 6 needs both durations: when [cpu_time] or
    [gpu_time] is not bound (step 4 or step 5 did not run), the cell
    stops with [NameError] on the first one missing, after the lines
    printed so far, and prints no speedup. *)
Theorem step6_unbound_duration (w : World) :
  gpu env = true ->
  cpu_time w = None \/ gpu_time w = None ->
  exists w' : World,
    step6 env w =
      (Raise (NameError (match cpu_time w with None => "cpu_time" | Some _ => "gpu_time" end)),
       w') /\
    stdout w' =
      stdout w ++ nl ++ "Comparison:" ++ nl ++
      match cpu_time w with
      | None => EmptyString
      | Some c => "CPU time: " ++ format_f 4 c ++ " seconds" ++ nl
      end.
Proof.
  intros Hg Hnone. unfold step6.
  run_call. rewrite Hg. run_call.
  destruct (cpu_time w) as [c |] eqn:Hc.
  - destruct Hnone as [Hn | Hn]; [discriminate |].
    do 2 run_call.
    unfold bind at 1, global. fields. rewrite Hn.
    eexists. split; [reflexivity |]. fields.
    rewrite !string_app_assoc. reflexivity.
  - unfold bind at 1, global. fields. rewrite Hc.
    eexists. split; [reflexivity |]. fields.
    rewrite !string_app_assoc. reflexivity.
Qed.

(** X6. The cells run from top to bottom, from any world and on any
    machine, end in one of two ways: normally, or with
    [ZeroDivisionError] in step 6; the second happens exactly when there
    is a GPU and the duration measured on it is zero.  No such run ends
    with [NameError], [DeviceUnavailable] or [ShapeMismatch]. *)
Theorem notebook_outcome (w : World) :
  let r := notebook env w in
  (fst r = Ok tt \/ fst r = Raise ZeroDivisionError) /\
  (fst r = Raise ZeroDivisionError <->
   gpu env = true /\ exists s : bool, gpu_time (snd r) = Some (S754_zero s)).
Proof.
  cbv zeta. destruct (gpu env) eqn:Hg.
  - destruct (notebook_reaches_step6_gpu w Hg)
      as (w5 & t0 & t1 & t2 & t3 & Hrun & _ & _ & _ & _ & Hc & Hgt & _).
    rewrite Hrun, (cell6_gpu_run w5 _ _ Hg Hc Hgt). cbv zeta.
    destruct (fsub (wall env t3) (wall env t2)) as [sg | sg | | sg mg eg] eqn:Hdur;
      cbn [fst snd]; fields; rewrite ?Hgt.
    + split; [now right |]. split; [eauto | reflexivity].
    + split; [now left |]. split; [discriminate | intros (_ & s & Hs); discriminate].
    + split; [now left |]. split; [discriminate | intros (_ & s & Hs); discriminate].
    + split; [now left |]. split; [discriminate | intros (_ & s & Hs); discriminate].
  - destruct (notebook_reaches_step6_cpu w Hg) as (w5 & t0 & t1 & Hrun & _).
    rewrite Hrun, (cell6_skip_run w5 Hg). cbn [fst snd].
    split; [now left |]. split; [discriminate | intros (Hf & _); discriminate].
Qed.

(** X7. On a machine with a GPU the run reads the clock four times.
    Both inputs are generated before the first reading; the window of
    the CPU run closes before the GPU is probed and the window of the
    GPU run opens; each window holds exactly the product and its
    transfer on its device; [cpu_time] and [gpu_time] are the
    differences of the readings; after the second window step 6 only
    probes and prints. *)
Theorem notebook_with_gpu_windows (w : World) :
  gpu env = true ->
  let s := (matrix_size, matrix_size) in
  exists (t0 t1 t2 t3 : Z) (tail : list event),
    trace (snd (notebook env w)) =
      (trace w ++
       [Did OpProbe; Did OpPrint; Did OpProbe; Did OpPrint;
        Did (OpRandomNormal s); Did (OpRandomNormal s);
        Did OpPrint; Did (OpBind "/CPU:0"); Clock t0;
        Did (OpMatmul "/CPU:0"); Did (OpNumpy "/CPU:0"); Clock t1; Did OpPrint;
        Did OpProbe; Did OpPrint; Did (OpBind "/GPU:0"); Clock t2;
        Did (OpMatmul "/GPU:0"); Did (OpNumpy "/GPU:0"); Clock t3; Did OpPrint] ++
       tail)%list /\
    Forall (fun e => e = Did OpProbe \/ e = Did OpPrint) tail /\
    t1 - t0 = cost env (OpMatmul "/CPU:0") + cost env (OpNumpy "/CPU:0") /\
    t2 - t1 = cost env OpPrint + cost env OpProbe + cost env OpPrint
              + cost env (OpBind "/GPU:0") /\
    t3 - t2 = cost env (OpMatmul "/GPU:0") + cost env (OpNumpy "/GPU:0") /\
    cpu_time (snd (notebook env w)) = Some (fsub (wall env t1) (wall env t0)) /\
    gpu_time (snd (notebook env w)) = Some (fsub (wall env t3) (wall env t2)).
Proof.
  intros Hg s.
  destruct (notebook_reaches_step6_gpu w Hg)
    as (w5 & t0 & t1 & t2 & t3 & Hrun & _ & _ & _ & _ & Hc & Hgt & Htr & _ & H0 & H1 & H2 & H3).
  exists t0, t1, t2, t3.
  rewrite Hrun, (cell6_gpu_run w5 _ _ Hg Hc Hgt). cbv zeta.
  destruct (fsub (wall env t3) (wall env t2)) as [sg | sg | | sg mg eg] eqn:Hdur;
    cbn [snd]; fields; rewrite Htr, ?Hc, ?Hgt;
    [ exists [Did OpProbe; Did OpPrint; Did OpPrint; Did OpPrint]
    | exists [Did OpProbe; Did OpPrint; Did OpPrint; Did OpPrint; Did OpPrint] ..];
    (split; [rewrite <- !app_assoc; reflexivity |]);
    (split; [rewrite List.Forall_forall; cbn [In]; intuition auto |]);
    repeat split; lia.
Qed.

(** X8. On a machine without a GPU the run goes through, whatever the
    clock shows: it prints the eight lines below, reads the clock twice,
    around the only product, and leaves [gpu_time] as it was. *)
Theorem notebook_without_gpu_run (w : World) :
  gpu env = false ->
  let s := (matrix_size, matrix_size) in
  exists (t0 t1 : Z) (w' : World),
    notebook env w = (Ok tt, w') /\
    stdout w' =
      stdout w ++
      "Is there a GPU available?: False" ++ nl ++
      "GPU Device Name: " ++ nl ++ nl ++
      "Performing computation on CPU..." ++ nl ++
      "Time taken on CPU: " ++ format_f 4 (fsub (wall env t1) (wall env t0)) ++
      " seconds" ++ nl ++ nl ++
      "No GPU available. Skipping GPU computation." ++ nl ++ nl ++
      "Comparison not available as no GPU is detected." ++ nl /\
    trace w' =
      (trace w ++
       [Did OpProbe; Did OpPrint; Did OpProbe; Did OpPrint;
        Did (OpRandomNormal s); Did (OpRandomNormal s);
        Did OpPrint; Did (OpBind "/CPU:0"); Clock t0;
        Did (OpMatmul "/CPU:0"); Did (OpNumpy "/CPU:0"); Clock t1; Did OpPrint;
        Did OpProbe; Did OpPrint; Did OpProbe; Did OpPrint])%list /\
    t1 - t0 = cost env (OpMatmul "/CPU:0") + cost env (OpNumpy "/CPU:0") /\
    cpu_time w' = Some (fsub (wall env t1) (wall env t0)) /\
    gpu_time w' = gpu_time w.
Proof.
  intros Hg s.
  destruct (notebook_reaches_step6_cpu w Hg)
    as (w5 & t0 & t1 & Hrun & _ & _ & _ & _ & Hc & Hgt & Htr & Hout & H0 & H1).
  exists t0, t1. rewrite Hrun, (cell6_skip_run w5 Hg).
  eexists. split; [reflexivity |]. fields. rewrite Htr, Hout, Hc, Hgt.
  repeat split; try lia.
  - rewrite !string_app_assoc. reflexivity.
  - rewrite <- !app_assoc. reflexivity.
Qed.

(** X9. Whatever the machine and however the run ends, the inputs are
    drawn once: after the run [A] and [B] are the two tensors step 3
    drew, no other tensor was drawn, so the CPU run and the GPU run
    multiplied the same operands; and the device scope is as it was
    before the run. *)
Theorem notebook_inputs_drawn_once (w : World) :
  let s := (matrix_size, matrix_size) in
  let w' := snd (notebook env w) in
  A w' = Some {| shape := s; data := normal env (draws w) s |} /\
  B w' = Some {| shape := s; data := normal env (S (draws w)) s |} /\
  draws w' = S (S (draws w)) /\
  placement w' = placement w.
Proof.
  cbv zeta. destruct (gpu env) eqn:Hg.
  - destruct (notebook_reaches_step6_gpu w Hg)
      as (w5 & t0 & t1 & t2 & t3 & Hrun & Hp & Hd & HA & HB & Hc & Hgt & _).
    rewrite Hrun, (cell6_gpu_run w5 _ _ Hg Hc Hgt). cbv zeta.
    destruct (fsub (wall env t3) (wall env t2)); cbn [snd]; fields; auto.
  - destruct (notebook_reaches_step6_cpu w Hg)
      as (w5 & t0 & t1 & Hrun & Hp & Hd & HA & HB & _).
    rewrite Hrun, (cell6_skip_run w5 Hg). cbn [snd]. fields. auto.
Qed.

(** X22. A call of [measure_time], however it ends and whatever the
    device, has no side effect on what the notebook sees: it prints
    nothing, rebinds none of [A], [B], [cpu_time] and [gpu_time], draws
    no tensor and leaves the device scope as it found it; it only adds
    its calls to the trace. *)
Theorem measure_time_side_effects (w : World) (d : string) :
  let w' := snd (measure_time env d w) in
  stdout w' = stdout w /\ placement w' = placement w /\ draws w' = draws w /\
  A w' = A w /\ B w' = B w /\
  cpu_time w' = cpu_time w /\ gpu_time w' = gpu_time w /\
  exists calls : list event, trace w' = (trace w ++ calls)%list.
Proof.
  cbv zeta.
  destruct (selector_accepted env d) eqn:Hd.
  2:{ unfold measure_time, tf_device, bind, raise. rewrite Hd. cbn [snd].
      repeat split. exists []. now rewrite app_nil_r. }
  destruct (A w) as [x |] eqn:HA, (B w) as [y |] eqn:HB.
  1:destruct (Z.eqb (snd (shape x)) (fst (shape y))) eqn:Hs.
  1:{ apply Z.eqb_eq in Hs. rewrite (measure_time_run env w d x y Hd HA HB Hs).
      cbn [snd]. fields. repeat split; try assumption. eexists. reflexivity. }
  all: unfold measure_time, tf_device; rewrite Hd;
    unfold bind, perform, time_time, global, tf_matmul, raise;
    repeat (progress (fields; rewrite ?HA, ?HB, ?Hs; cbv beta iota)); cbn [snd]; fields;
    repeat split; try assumption; eexists; rewrite <- ?app_assoc; reflexivity.
Qed.

End Cells.

(** ** The cells on the example machine *)

Lemma step4_reports_cpu_time_witness :
  exists (t0 t1 : Z) (w' : World),
    step4 (machine true steady) ready = (Ok tt, w') /\
    cpu_time w' = Some (fsub (steady t1) (steady t0)) /\
    t1 - t0 = 30 + 1 /\
    stdout w' =
      stdout ready ++ nl ++ "Performing computation on CPU..." ++ nl ++
      "Time taken on CPU: " ++ format_f 4 (fsub (steady t1) (steady t0)) ++
      " seconds" ++ nl /\
    (is_finite (fsub (steady t1) (steady t0)) = true ->
     has_decimals 4 (format_f 4 (fsub (steady t1) (steady t0))) = true) /\
    A w' = A ready /\ B w' = B ready /\ gpu_time w' = gpu_time ready /\
    placement w' = placement ready.
Proof.
  exact (step4_reports_cpu_time (machine true steady) ready small small
           eq_refl eq_refl eq_refl).
Defined.

Lemma step5_reports_gpu_time_witness :
  exists (t0 t1 : Z) (w' : World),
    step5 (machine true steady) ready = (Ok tt, w') /\
    gpu_time w' = Some (fsub (steady t1) (steady t0)) /\
    t1 - t0 = 2 + 1 /\
    stdout w' =
      stdout ready ++ nl ++ "Performing computation on GPU..." ++ nl ++
      "Time taken on GPU: " ++ format_f 4 (fsub (steady t1) (steady t0)) ++
      " seconds" ++ nl /\
    (is_finite (fsub (steady t1) (steady t0)) = true ->
     has_decimals 4 (format_f 4 (fsub (steady t1) (steady t0))) = true) /\
    A w' = A ready /\ B w' = B ready /\ cpu_time w' = cpu_time ready /\
    placement w' = placement ready.
Proof.
  exact (step5_reports_gpu_time (machine true steady) ready small small
           eq_refl eq_refl eq_refl eq_refl).
Defined.

Lemma step6_without_gpu_witness :
  exists w' : World,
    step6 (machine false steady) initial = (Ok tt, w') /\
    stdout w' =
      stdout initial ++ nl ++ "Comparison not available as no GPU is detected." ++ nl /\
    trace w' = (trace initial ++ [Did OpProbe; Did OpPrint])%list /\
    cpu_time w' = None /\ gpu_time w' = None.
Proof.
  exact (step6_without_gpu (machine false steady) initial eq_refl).
Defined.

Lemma step6_unbound_duration_witness :
  let w := with_cpu_time (of_Z 31) ready in
  exists w' : World,
    step6 (machine true steady) w = (Raise (NameError "gpu_time"), w') /\
    stdout w' =
      stdout w ++ nl ++ "Comparison:" ++ nl ++
      "CPU time: " ++ format_f 4 (of_Z 31) ++ " seconds" ++ nl.
Proof.
  exact (step6_unbound_duration (machine true steady) (with_cpu_time (of_Z 31) ready)
           eq_refl (or_intror eq_refl)).
Defined.

Lemma measure_time_unbound_input_witness :
  exists w' : World,
    measure_time (machine true steady) "/GPU:0" initial = (Raise (NameError "A"), w') /\
    trace w' = (trace initial ++ [Did (OpBind "/GPU:0"); Clock 0])%list /\
    placement w' = placement initial /\
    stdout w' = stdout initial /\ cpu_time w' = None /\ gpu_time w' = None.
Proof.
  exact (measure_time_unbound_input (machine true steady) initial "/GPU:0"
           eq_refl (or_introl eq_refl)).
Defined.

Lemma notebook_with_gpu_windows_witness :
  let s := (matrix_size, matrix_size) in
  exists (t0 t1 t2 t3 : Z) (tail : list event),
    trace (snd (notebook (machine true steady) initial)) =
      (trace initial ++
       [Did OpProbe; Did OpPrint; Did OpProbe; Did OpPrint;
        Did (OpRandomNormal s); Did (OpRandomNormal s);
        Did OpPrint; Did (OpBind "/CPU:0"); Clock t0;
        Did (OpMatmul "/CPU:0"); Did (OpNumpy "/CPU:0"); Clock t1; Did OpPrint;
        Did OpProbe; Did OpPrint; Did (OpBind "/GPU:0"); Clock t2;
        Did (OpMatmul "/GPU:0"); Did (OpNumpy "/GPU:0"); Clock t3; Did OpPrint] ++
       tail)%list /\
    Forall (fun e => e = Did OpProbe \/ e = Did OpPrint) tail /\
    t1 - t0 = 30 + 1 /\
    t2 - t1 = 0 + 3 + 0 + 0 /\
    t3 - t2 = 2 + 1 /\
    cpu_time (snd (notebook (machine true steady) initial))
      = Some (fsub (steady t1) (steady t0)) /\
    gpu_time (snd (notebook (machine true steady) initial))
      = Some (fsub (steady t3) (steady t2)).
Proof.
  exact (notebook_with_gpu_windows (machine true steady) initial eq_refl).
Defined.

Lemma notebook_without_gpu_run_witness :
  let s := (matrix_size, matrix_size) in
  exists (t0 t1 : Z) (w' : World),
    notebook (machine false steady) initial = (Ok tt, w') /\
    stdout w' =
      stdout initial ++
      "Is there a GPU available?: False" ++ nl ++
      "GPU Device Name: " ++ nl ++ nl ++
      "Performing computation on CPU..." ++ nl ++
      "Time taken on CPU: " ++ format_f 4 (fsub (steady t1) (steady t0)) ++
      " seconds" ++ nl ++ nl ++
      "No GPU available. Skipping GPU computation." ++ nl ++ nl ++
      "Comparison not available as no GPU is detected." ++ nl /\
    trace w' =
      (trace initial ++
       [Did OpProbe; Did OpPrint; Did OpProbe; Did OpPrint;
        Did (OpRandomNormal s); Did (OpRandomNormal s);
        Did OpPrint; Did (OpBind "/CPU:0"); Clock t0;
        Did (OpMatmul "/CPU:0"); Did (OpNumpy "/CPU:0"); Clock t1; Did OpPrint;
        Did OpProbe; Did OpPrint; Did OpProbe; Did OpPrint])%list /\
    t1 - t0 = 30 + 1 /\
    cpu_time w' = Some (fsub (steady t1) (steady t0)) /\
    gpu_time w' = None.
Proof.
  exact (notebook_without_gpu_run (machine false steady) initial eq_refl).
Defined.

End TimingFacts.


(* ================================================================== *)
(** * The PyCUDA notebook: what a launch does *)
(* ================================================================== *)

Module CudaFacts.
Import Float Cuda.

(** ** Machine integers and bounds *)

Lemma to_int_small (z : Z) : 0 <= z < 2 ^ 31 -> to_int z = z.
Proof.
  intros Hz. unfold to_int.
  rewrite Z.mod_small by lia.
  destruct (Z.ltb_spec z (2 ^ 31)); lia.
Qed.

Lemma in_bounds_true {T} (i : Z) (l : list T) :
  0 <= i < Z.of_nat (length l) -> in_bounds i l = true.
Proof.
  intros H. unfold in_bounds. apply andb_true_intro.
  split; [apply Z.leb_le | apply Z.ltb_lt]; lia.
Qed.

Lemma in_bounds_false {T} (i : Z) (l : list T) :
  Z.of_nat (length l) <= i -> in_bounds i l = false.
Proof.
  intros H. unfold in_bounds. apply andb_false_intro2. apply Z.ltb_ge. lia.
Qed.

Lemma lookup_in_range {T} (l : list T) (n g : Z) :
  n <= Z.of_nat (length l) -> 0 <= g < n -> exists v, l !! Z.to_nat g = Some v.
Proof.
  intros Hl Hg. destruct (lookup_lt_is_Some_2 l (Z.to_nat g)) as [v Hv]; [lia | eauto].
Qed.

Lemma global_index (bs bid tid : Z) :
  0 <= tid < bs -> (bid * bs + tid) / bs = bid /\ (bid * bs + tid) mod bs = tid.
Proof.
  intros H. split.
  - symmetry. apply (Z.div_unique _ _ _ tid); lia.
  - symmetry. apply (Z.mod_unique _ _ bid); lia.
Qed.

Lemma grid_covers (n bs : Z) :
  0 < bs -> n <= grid_size_for n bs * bs < n + bs.
Proof.
  intros Hbs. unfold grid_size_for.
  pose proof (Z.div_mod (n + bs - 1) bs ltac:(lia)) as Hdm.
  pose proof (Z.mod_pos_bound (n + bs - 1) bs Hbs). nia.
Qed.

Lemma grid_exact (n bs : Z) :
  0 < bs -> n mod bs = 0 -> grid_size_for n bs * bs = n.
Proof.
  intros Hbs Hmod. pose proof (grid_covers n bs Hbs) as Hg.
  apply Z.mod_divide in Hmod; [| lia]. destruct Hmod as [q Hq]. subst n.
  assert (grid_size_for (q * bs) bs = q); [| nia].
  assert (q <= grid_size_for (q * bs) bs < q + 1) by nia. lia.
Qed.

(** ** Orders of execution *)

Lemma filter_Permutation {T} (f : T -> bool) (l l' : list T) :
  l ≡ₚ l' -> List.filter f l ≡ₚ List.filter f l'.
Proof.
  induction 1 as [| x l l' _ IH | x y l | l l' l'' _ IH1 _ IH2]; cbn.
  - constructor.
  - destruct (f x); [now constructor | exact IH].
  - destruct (f x), (f y); try reflexivity. constructor.
  - now transitivity (List.filter f l').
Qed.

Lemma flat_map_Permutation {T U} (f g : T -> list U) (l l' : list T) :
  (forall x, f x ≡ₚ g x) -> l ≡ₚ l' -> flat_map f l ≡ₚ flat_map g l'.
Proof.
  intros Hfg Hl. transitivity (flat_map g l).
  - clear Hl. induction l as [| x l IH]; cbn; [constructor |].
    now apply Permutation_app.
  - now apply Permutation_flat_map.
Qed.

Lemma filter_flat_map {T U} (p : U -> bool) (f : T -> list U) (l : list T) :
  List.filter p (flat_map f l) = flat_map (fun x => List.filter p (f x)) l.
Proof.
  induction l as [| x l IH]; cbn; [reflexivity |].
  now rewrite List.filter_app, IH.
Qed.

Lemma filter_all {T} (p : T -> bool) (l : list T) :
  Forall (fun x => p x = true) l -> List.filter p l = l.
Proof.
  induction 1 as [| x l Hx _ IH]; cbn; [reflexivity |]. now rewrite Hx, IH.
Qed.

Lemma filter_none {T} (p : T -> bool) (l : list T) :
  Forall (fun x => p x = false) l -> List.filter p l = [].
Proof.
  induction 1 as [| x l Hx _ IH]; cbn; [reflexivity |]. now rewrite Hx, IH.
Qed.

(** The global indices of block [b], thread by thread. *)
Lemma block_indices (bs b : Z) :
  map (fun t => b * bs + t) (seqZ 0 bs) = seqZ (b * bs) bs.
Proof.
  change (map (fun t => b * bs + t) (seqZ 0 bs)) with (Z.add (b * bs) <$> seqZ 0 bs).
  rewrite fmap_add_seqZ. f_equal. lia.
Qed.

Lemma grid_indices (bs : Z) (nb : nat) :
  0 <= bs ->
  flat_map (fun b => seqZ (b * bs) bs) (seqZ 0 (Z.of_nat nb)) = seqZ 0 (Z.of_nat nb * bs).
Proof.
  intros Hbs. induction nb as [| nb IH].
  - reflexivity.
  - rewrite seqZ_S, flat_map_app, IH. cbn [flat_map]. rewrite app_nil_r.
    rewrite Z.add_0_l. rewrite <- (seqZ_app 0) by nia. f_equal. lia.
Qed.

Lemma filter_below (n M : Z) :
  0 <= n <= M -> List.filter (fun g => Z.ltb g n) (seqZ 0 M) = seqZ 0 n.
Proof.
  intros H. replace M with (n + (M - n)) by lia.
  rewrite seqZ_app, List.filter_app by lia.
  rewrite filter_all, filter_none, app_nil_r; [reflexivity | |].
  - apply Forall_seqZ. intros g Hg. apply Z.ltb_ge. lia.
  - apply Forall_seqZ. intros g Hg. apply Z.ltb_lt. lia.
Qed.

(** Whatever the order, the threads that pass the guard [gid < n] are
    those of global index 0 to [n - 1], each once. *)
Lemma gids_Permutation (n bs grid : Z) (order : Z -> list Z) (blocks : list Z) :
  0 <= bs -> 0 <= grid -> 0 <= n <= grid * bs ->
  blocks ≡ₚ seqZ 0 grid -> (forall b, order b ≡ₚ seqZ 0 bs) ->
  flat_map (fun b => gids n bs b (order b)) blocks ≡ₚ seqZ 0 n.
Proof.
  intros Hbs Hgrid Hn Hblocks Horder.
  transitivity (flat_map (fun b => gids n bs b (seqZ 0 bs)) (seqZ 0 grid)).
  - apply flat_map_Permutation; [| exact Hblocks].
    intros b. unfold gids. apply filter_Permutation, Permutation_map, Horder.
  - unfold gids. rewrite <- filter_flat_map.
    erewrite flat_map_ext by (intros b; apply block_indices).
    replace grid with (Z.of_nat (Z.to_nat grid)) by lia.
    rewrite grid_indices by lia. rewrite filter_below by lia. reflexivity.
Qed.

Lemma order_bounds (l : list Z) (n : Z) :
  l ≡ₚ seqZ 0 n -> Forall (fun t => 0 <= t < n) l.
Proof.
  intros H. rewrite H. apply Forall_seqZ. intros t Ht. lia.
Qed.

(** ** The output buffer, one sum at a time *)

Lemma c_after_snoc (m : gmem) (done : list Z) (g : Z) :
  c_after m (done ++ [g]) = put_sum m (c_after m done) g.
Proof. unfold c_after. now rewrite fold_left_app. Qed.

Lemma put_sum_length (m : gmem) (l : list float32) (g : Z) :
  length (put_sum m l g) = length l.
Proof. unfold put_sum. destruct (sum_at m g); [apply length_insert | reflexivity]. Qed.

Lemma c_after_length (m : gmem) (done : list Z) :
  length (c_after m done) = length (mem_c m).
Proof.
  induction done as [| g done IH] using rev_ind; [reflexivity |].
  now rewrite c_after_snoc, put_sum_length.
Qed.

Lemma sum_at_Some (m : gmem) (g : Z) (x y : float32) :
  mem_a m !! Z.to_nat g = Some x -> mem_b m !! Z.to_nat g = Some y ->
  sum_at m g = Some (fadd32 x y).
Proof. intros Hx Hy. unfold sum_at. now rewrite Hx, Hy. Qed.

(** An index that was done holds its sum. *)
Lemma c_after_done (m : gmem) (done : list Z) (g : Z) (x y : float32) :
  Forall (fun g' => 0 <= g') done -> In g done ->
  mem_a m !! Z.to_nat g = Some x -> mem_b m !! Z.to_nat g = Some y ->
  (Z.to_nat g < length (mem_c m))%nat ->
  c_after m done !! Z.to_nat g = Some (fadd32 x y).
Proof.
  intros Hpos Hin Hx Hy Hlen.
  induction done as [| g' done IH] using rev_ind; [contradiction |].
  apply Forall_app in Hpos as [Hpos Hg']. inversion Hg' as [| ? ? Hg'0 _]; subst.
  rewrite c_after_snoc. unfold put_sum.
  destruct (Z.eq_dec g' g) as [-> | Hne].
  - rewrite (sum_at_Some m g x y Hx Hy).
    apply list_lookup_insert_eq. now rewrite c_after_length.
  - apply in_app_or in Hin as [Hin | [? | []]]; [| congruence].
    assert (0 <= g) by (apply (proj1 (List.Forall_forall _ _) Hpos g Hin)).
    destruct (sum_at m g'); [| now apply IH].
    rewrite list_lookup_insert_ne by lia. now apply IH.
Qed.

(** An index that was not done holds what it held. *)
Lemma c_after_other (m : gmem) (done : list Z) (i : nat) :
  Forall (fun g => 0 <= g) done -> ~ In (Z.of_nat i) done ->
  c_after m done !! i = mem_c m !! i.
Proof.
  intros Hpos Hin.
  induction done as [| g' done IH] using rev_ind; [reflexivity |].
  apply Forall_app in Hpos as [Hpos Hg']. inversion Hg' as [| ? ? Hg'0 _]; subst.
  rewrite c_after_snoc. unfold put_sum.
  assert (Hne : g' <> Z.of_nat i) by (intros ->; apply Hin, in_or_app; right; now left).
  assert (Hin' : ~ In (Z.of_nat i) done) by (intros ?; apply Hin, in_or_app; now left).
  destruct (sum_at m g'); [| now apply IH].
  rewrite list_lookup_insert_ne by lia. now apply IH.
Qed.

(** Once every index below [n] is done, on arrays of [n] values, the
    output buffer holds the sums. *)
Lemma c_after_all (m : gmem) (done : list Z) (n : Z) :
  done ≡ₚ seqZ 0 n ->
  Z.of_nat (length (mem_a m)) = n -> Z.of_nat (length (mem_b m)) = n ->
  Z.of_nat (length (mem_c m)) = n ->
  c_after m done = zip_with fadd32 (mem_a m) (mem_b m).
Proof.
  intros Hperm Ha Hb Hc.
  assert (Hpos : Forall (fun g => 0 <= g) done).
  { rewrite Hperm. apply Forall_seqZ. intros; lia. }
  apply list_eq. intros i. rewrite lookup_zip_with.
  destruct (Nat.lt_ge_cases i (Z.to_nat n)) as [Hi | Hi].
  - destruct (lookup_lt_is_Some_2 (mem_a m) i) as [x Hx]; [lia |].
    destruct (lookup_lt_is_Some_2 (mem_b m) i) as [y Hy]; [lia |].
    rewrite Hx, Hy. cbn.
    rewrite <- (Nat2Z.id i). apply c_after_done; rewrite ?Nat2Z.id; try assumption; [| lia].
    apply (Permutation_in _ (symmetry Hperm)).
    apply list_elem_of_In, elem_of_seqZ. lia.
  - rewrite (lookup_ge_None_2 (mem_a m)) by lia. cbn.
    apply lookup_ge_None_2. rewrite c_after_length. lia.
Qed.

(** The order in which the indices are done does not matter. *)
Lemma c_after_Permutation (m : gmem) (done : list Z) (n : Z) :
  done ≡ₚ seqZ 0 n ->
  n <= Z.of_nat (length (mem_a m)) -> n <= Z.of_nat (length (mem_b m)) ->
  n <= Z.of_nat (length (mem_c m)) ->
  c_after m done = c_after m (seqZ 0 n).
Proof.
  intros Hperm Ha Hb Hc.
  assert (Hpos : forall l, l ≡ₚ seqZ 0 n -> Forall (fun g => 0 <= g) l).
  { intros l ->. apply Forall_seqZ. intros; lia. }
  assert (Hin : forall l i, l ≡ₚ seqZ 0 n -> In (Z.of_nat i) l <-> Z.of_nat i < n).
  { intros l i Hl. rewrite <- list_elem_of_In, Hl, elem_of_seqZ. lia. }
  apply list_eq. intros i.
  destruct (Z.lt_ge_cases (Z.of_nat i) n) as [Hi | Hi].
  - destruct (lookup_in_range (mem_a m) n (Z.of_nat i) Ha ltac:(lia)) as [x Hx].
    destruct (lookup_in_range (mem_b m) n (Z.of_nat i) Hb ltac:(lia)) as [y Hy].
    rewrite <- (Nat2Z.id i).
    rewrite (c_after_done m done (Z.of_nat i) x y), (c_after_done m (seqZ 0 n) (Z.of_nat i) x y);
      auto; try (apply Hin; auto); lia.
  - rewrite !c_after_other; auto; rewrite Hin; auto; lia.
Qed.

(** ** The memory operations when they succeed *)

Lemma gload_ok (p : buffer) (i : Z) (v : float32) (x : ctx) (s : state) :
  0 <= i -> buf p (global s) !! Z.to_nat i = Some v ->
  gload p i x s = Done v (record (GRead p i) x s).
Proof.
  intros Hi Hv. unfold gload.
  pose proof (lookup_lt_Some _ _ _ Hv).
  rewrite in_bounds_true by lia. now rewrite Hv.
Qed.

Lemma gstore_ok (p : buffer) (i : Z) (v : float32) (x : ctx) (s : state) :
  0 <= i < Z.of_nat (length (buf p (global s))) ->
  gstore p i v x s =
    Done tt (record (GWrite p i v) x
      {| global := with_buf p (<[Z.to_nat i := v]> (buf p (global s))) (global s);
         shared := shared s; log := log s |}).
Proof. intros Hi. unfold gstore. now rewrite in_bounds_true. Qed.

Lemma sload_ok (a : shared_array) (i : Z) (v : float32) (x : ctx) (s : state) :
  0 <= i -> sbuf a (shared s) !! Z.to_nat i = Some (Some v) ->
  sload a i x s = Done v (record (SRead a i) x s).
Proof.
  intros Hi Hv. unfold sload.
  pose proof (lookup_lt_Some _ _ _ Hv).
  rewrite in_bounds_true by lia. now rewrite Hv.
Qed.

Lemma sstore_ok (a : shared_array) (i : Z) (v : float32) (x : ctx) (s : state) :
  0 <= i < Z.of_nat (length (sbuf a (shared s))) ->
  sstore a i v x s =
    Done tt (record (SWrite a i v) x
      {| global := global s;
         shared := with_sbuf a (<[Z.to_nat i := Some v]> (sbuf a (shared s))) (shared s);
         log := log s |}).
Proof. intros Hi. unfold sstore. now rewrite in_bounds_true. Qed.

Lemma state_ext (s1 s2 : state) :
  global s1 = global s2 -> shared s1 = shared s2 -> log s1 = log s2 -> s1 = s2.
Proof. destruct s1, s2; cbn; intros; subst; reflexivity. Qed.

Ltac project :=
  cbn [global shared log record naive_state gmem_after smem_staged with_buf buf
       with_sbuf sbuf sh_a sh_b mem_a mem_b mem_c blockIdx blockDim threadIdx
       by_block by_thread what].

(** ** The naive kernel, thread by thread *)

(** A thread whose element exists: it reads [a] and [b] there and writes
    the sum to [c]. *)
Lemma naive_thread_in (m : gmem) (n bs bid tid : Z) (done : list Z) (x y : float32) :
  0 <= tid < bs -> 0 <= bid * bs + tid < n -> bid * bs + tid < 2 ^ 31 ->
  mem_a m !! Z.to_nat (bid * bs + tid) = Some x ->
  mem_b m !! Z.to_nat (bid * bs + tid) = Some y ->
  bid * bs + tid < Z.of_nat (length (mem_c m)) ->
  matrix_add_unoptimized a_gpu b_gpu c_gpu n
    {| blockIdx := bid; blockDim := bs; threadIdx := tid |} (naive_state m bs done)
  = Done Returned (naive_state m bs (done ++ [bid * bs + tid])).
Proof.
  intros Ht Hn Hint Ha Hb Hc.
  unfold matrix_add_unoptimized, bind, global_id, returned, ret.
  cbn [blockIdx blockDim threadIdx].
  rewrite to_int_small by lia.
  destruct (Z.ltb_spec (bid * bs + tid) n) as [_ | ?]; [| lia].
  rewrite (gload_ok a_gpu _ x) by (project; assumption || lia).
  rewrite (gload_ok b_gpu _ y) by (project; assumption || lia).
  rewrite gstore_ok by (project; rewrite c_after_length; lia).
  f_equal. apply state_ext; project; try reflexivity.
  - unfold gmem_after. f_equal. rewrite c_after_snoc. unfold put_sum.
    now rewrite (sum_at_Some m _ x y Ha Hb).
  - rewrite flat_map_app. cbn [flat_map]. rewrite app_nil_r.
    unfold naive_accesses. rewrite Ha, Hb.
    destruct (global_index bs bid tid Ht) as [Hd Hm].
    rewrite Hd, Hm. cbn [map]. rewrite <- !app_assoc. reflexivity.
Qed.

(** A thread beyond the end of the arrays does nothing. *)
Lemma naive_thread_out (n bs bid tid : Z) (s : state) :
  n <= bid * bs + tid < 2 ^ 31 -> 0 <= n ->
  matrix_add_unoptimized a_gpu b_gpu c_gpu n
    {| blockIdx := bid; blockDim := bs; threadIdx := tid |} s
  = Done Returned s.
Proof.
  intros Hg Hn.
  unfold matrix_add_unoptimized, bind, global_id, returned, ret.
  cbn [blockIdx blockDim threadIdx].
  rewrite to_int_small by lia.
  destruct (Z.ltb_spec (bid * bs + tid) n); [lia | reflexivity].
Qed.

(** ** The naive kernel, block by block *)

Lemma gids_cons (n bs bid t : Z) (ts : list Z) :
  gids n bs bid (t :: ts) =
    if Z.ltb (bid * bs + t) n then (bid * bs + t) :: gids n bs bid ts
    else gids n bs bid ts.
Proof. reflexivity. Qed.

Lemma forallb_all_returned (ts : list Z) :
  forallb (fun r : Z * reached => is_returned (snd r)) (map (fun t => (t, Returned)) ts) = true.
Proof. induction ts; cbn; auto. Qed.

Section NaiveLaunch.
Variables (m : gmem) (n bs : Z).
Hypothesis Hn : 0 <= n.
Hypothesis Ha : n <= Z.of_nat (length (mem_a m)).
Hypothesis Hb : n <= Z.of_nat (length (mem_b m)).
Hypothesis Hc : n <= Z.of_nat (length (mem_c m)).

Lemma naive_threads (bid : Z) (ts : list Z) (done : list Z) :
  0 <= bid -> (bid + 1) * bs <= 2 ^ 31 ->
  Forall (fun t => 0 <= t < bs) ts ->
  run_threads (matrix_add_unoptimized a_gpu b_gpu c_gpu n) bid bs ts
    (naive_state m bs done)
  = Done (map (fun t => (t, Returned)) ts)
      (naive_state m bs (done ++ gids n bs bid ts)).
Proof using Hn Ha Hb Hc.
  intros Hbid Hint Hts. revert done.
  induction Hts as [| t ts Ht _ IH]; intros done.
  - cbn. now rewrite app_nil_r.
  - cbn [run_threads map]. rewrite gids_cons.
    assert (Hbs0 : 0 <= bid * bs) by nia.
    destruct (Z.ltb_spec (bid * bs + t) n) as [Hin | Hout].
    + destruct (lookup_in_range (mem_a m) n (bid * bs + t) Ha ltac:(lia)) as [x Hx].
      destruct (lookup_in_range (mem_b m) n (bid * bs + t) Hb ltac:(lia)) as [y Hy].
      rewrite (naive_thread_in m n bs bid t done x y) by (assumption || lia).
      rewrite IH. rewrite <- app_assoc. reflexivity.
    + rewrite naive_thread_out by lia. now rewrite IH.
Qed.

Lemma naive_block (sch : schedule) (bid : Z) (done : list Z) :
  0 <= bid -> (bid + 1) * bs <= 2 ^ 31 ->
  thread_order sch bid ≡ₚ seqZ 0 bs ->
  run_block (matrix_add_unoptimized a_gpu b_gpu c_gpu n) sch bs bid
    (naive_state m bs done)
  = Done tt (naive_state m bs (done ++ gids n bs bid (thread_order sch bid))).
Proof using Hn Ha Hb Hc.
  intros Hbid Hint Horder. unfold run_block.
  change (with_shared fresh_shared (naive_state m bs done)) with (naive_state m bs done).
  rewrite naive_threads by (auto using order_bounds).
  now rewrite forallb_all_returned.
Qed.

Lemma naive_blocks (sch : schedule) (grid : Z) (blocks : list Z) (done : list Z) :
  grid * bs <= 2 ^ 31 -> 0 <= bs ->
  Forall (fun b => 0 <= b < grid) blocks ->
  (forall b, thread_order sch b ≡ₚ seqZ 0 bs) ->
  run_blocks (matrix_add_unoptimized a_gpu b_gpu c_gpu n) sch bs blocks
    (naive_state m bs done)
  = Done tt (naive_state m bs
               (done ++ flat_map (fun b => gids n bs b (thread_order sch b)) blocks)).
Proof using Hn Ha Hb Hc.
  intros Hint Hbs Hblocks Horder. revert done.
  induction Hblocks as [| b blocks Hb0 _ IH]; intros done.
  - cbn. now rewrite app_nil_r.
  - cbn [run_blocks flat_map].
    rewrite naive_block by (auto; nia).
    rewrite IH. now rewrite <- app_assoc.
Qed.

End NaiveLaunch.

Lemma gmem_after_nil (m : gmem) : gmem_after m [] = m.
Proof. destruct m; reflexivity. Qed.

Lemma launch_valid (bs grid : Z) :
  1 <= bs <= 1024 -> 1 <= grid < 2 ^ 31 ->
  (1 <=? bs) && (bs <=? 1024) && (1 <=? grid) && (grid <? 2 ^ 31) = true.
Proof.
  intros Hbs Hgrid. repeat (apply andb_true_intro; split);
    try apply Z.leb_le; try apply Z.ltb_lt; lia.
Qed.

Lemma naive_done_Permutation (sch : schedule) (n bs : Z) :
  0 < n -> 0 < bs -> fair sch bs (grid_size_for n bs) ->
  naive_done sch n bs ≡ₚ seqZ 0 n.
Proof.
  intros Hn Hbs (Hblocks & Hthreads & _).
  pose proof (grid_covers n bs Hbs).
  apply (gids_Permutation n bs (grid_size_for n bs)); auto; nia.
Qed.

(** The whole launch of the naive kernel, in any order. *)
Lemma naive_launch (sch : schedule) (m : gmem) (n bs : Z) :
  0 < n -> 1 <= bs <= 1024 -> n + bs <= 2 ^ 31 ->
  fair sch bs (grid_size_for n bs) ->
  n <= Z.of_nat (length (mem_a m)) ->
  n <= Z.of_nat (length (mem_b m)) ->
  n <= Z.of_nat (length (mem_c m)) ->
  launch (matrix_add_unoptimized a_gpu b_gpu c_gpu n) sch bs (grid_size_for n bs) m
  = Done tt (naive_state m bs (naive_done sch n bs)).
Proof.
  intros Hn Hbs Hint Hfair Ha Hb Hc.
  pose proof (grid_covers n bs ltac:(lia)) as Hg.
  destruct Hfair as (Hblocks & Hthreads & _).
  unfold launch. rewrite launch_valid by nia.
  pose proof (naive_blocks m n bs ltac:(lia) Ha Hb Hc sch (grid_size_for n bs)
                (block_order sch) []) as H.
  unfold naive_state at 1 in H. cbn [flat_map] in H. rewrite gmem_after_nil in H.
  rewrite H; auto using order_bounds; lia.
Qed.

(** ** The shared arrays, one value at a time *)

Lemma staged_snoc (l : list float32) (g0 : Z) (ts : list Z) (t : Z) :
  staged l g0 (ts ++ [t]) = put_staged l g0 (staged l g0 ts) t.
Proof. unfold staged. now rewrite fold_left_app. Qed.

Lemma staged_length (l : list float32) (g0 : Z) (ts : list Z) :
  length (staged l g0 ts) = Z.to_nat shared_size.
Proof.
  induction ts as [| t ts IH] using rev_ind.
  - unfold staged. cbn [fold_left]. apply repeat_length.
  - rewrite staged_snoc. unfold put_staged.
    destruct (l !! Z.to_nat (g0 + t)); [now rewrite length_insert | exact IH].
Qed.

Lemma staged_lookup (l : list float32) (g0 : Z) (ts : list Z) (t : Z) (x : float32) :
  Forall (fun t' => 0 <= t') ts -> In t ts ->
  l !! Z.to_nat (g0 + t) = Some x -> t < shared_size ->
  staged l g0 ts !! Z.to_nat t = Some (Some x).
Proof.
  intros Hpos Hin Hx Ht.
  induction ts as [| t' ts IH] using rev_ind; [contradiction |].
  apply Forall_app in Hpos as [Hpos Ht']. inversion Ht' as [| ? ? Ht'0 _]; subst.
  rewrite staged_snoc. unfold put_staged.
  destruct (Z.eq_dec t' t) as [-> | Hne].
  - rewrite Hx. apply list_lookup_insert_eq. rewrite staged_length. lia.
  - apply in_app_or in Hin as [Hin | [? | []]]; [| congruence].
    assert (0 <= t) by (apply (proj1 (List.Forall_forall _ _) Hpos t Hin)).
    destruct (l !! Z.to_nat (g0 + t')); [| now apply IH].
    rewrite list_lookup_insert_ne by lia. now apply IH.
Qed.

(** ** The shared-memory kernel, thread by thread *)

(** Before the barrier: the thread stages its two values. *)
Lemma shared_thread_stage (m G : gmem) (n bs bid t : Z) (ts : list Z)
    (x y : float32) (lg : list entry) :
  mem_a G = mem_a m -> mem_b G = mem_b m ->
  0 <= t < shared_size -> 0 <= bid * bs + t < n -> n <= 2 ^ 31 ->
  mem_a m !! Z.to_nat (bid * bs + t) = Some x ->
  mem_b m !! Z.to_nat (bid * bs + t) = Some y ->
  matrix_add_shared_memory a_gpu b_gpu c_gpu n
    {| blockIdx := bid; blockDim := bs; threadIdx := t |}
    {| global := G; shared := smem_staged m (bid * bs) ts; log := lg |}
  = Done (AtBarrier (after_barrier c_gpu t (bid * bs + t)
                       {| blockIdx := bid; blockDim := bs; threadIdx := t |}))
      {| global := G; shared := smem_staged m (bid * bs) (ts ++ [t]);
         log := lg ++ staging_accesses m bs bid t |}.
Proof.
  intros HGa HGb Ht Hn Hint Hx Hy.
  unfold shared_size in Ht.
  unfold matrix_add_shared_memory, bind, thread_idx, global_id, syncthreads.
  cbn [blockIdx blockDim threadIdx].
  rewrite !to_int_small by lia.
  destruct (Z.ltb_spec (bid * bs + t) n) as [_ | ?]; [| lia].
  rewrite (gload_ok a_gpu _ x) by (project; rewrite ?HGa; assumption || lia).
  rewrite sstore_ok
    by (project; rewrite staged_length; unfold shared_size; lia).
  rewrite (gload_ok b_gpu _ y) by (project; rewrite ?HGb; assumption || lia).
  rewrite sstore_ok
    by (project; rewrite staged_length; unfold shared_size; lia).
  f_equal. apply state_ext; project; try reflexivity.
  - unfold smem_staged. rewrite !staged_snoc. unfold put_staged.
    now rewrite Hx, Hy.
  - unfold staging_accesses. cbv zeta. rewrite Hx, Hy. cbn [map].
    rewrite <- !app_assoc. reflexivity.
Qed.

(** After the barrier: the thread adds what was staged for it. *)
Lemma shared_thread_add (m : gmem) (bs bid t : Z) (staged_by done : list Z)
    (x y : float32) (lg : list entry) :
  Forall (fun t' => 0 <= t') staged_by -> In t staged_by ->
  0 <= t < shared_size -> 0 <= bid * bs + t ->
  mem_a m !! Z.to_nat (bid * bs + t) = Some x ->
  mem_b m !! Z.to_nat (bid * bs + t) = Some y ->
  bid * bs + t < Z.of_nat (length (mem_c m)) ->
  after_barrier c_gpu t (bid * bs + t)
    {| blockIdx := bid; blockDim := bs; threadIdx := t |}
    {| global := gmem_after m done; shared := smem_staged m (bid * bs) staged_by;
       log := lg |}
  = Done tt
      {| global := gmem_after m (done ++ [bid * bs + t]);
         shared := smem_staged m (bid * bs) staged_by;
         log := lg ++ adding_accesses m bs bid t |}.
Proof.
  intros Hpos Hin Ht Hg Hx Hy Hc.
  unfold after_barrier, bind.
  rewrite (sload_ok shared_a _ x)
    by (project; try lia; apply staged_lookup; assumption || lia).
  rewrite (sload_ok shared_b _ y)
    by (project; try lia; apply staged_lookup; assumption || lia).
  rewrite gstore_ok by (project; rewrite c_after_length; lia).
  f_equal. apply state_ext; project; try reflexivity.
  - unfold gmem_after. f_equal. rewrite c_after_snoc. unfold put_sum.
    now rewrite (sum_at_Some m _ x y Hx Hy).
  - unfold adding_accesses. cbv zeta. rewrite Hx, Hy. cbn [map].
    rewrite <- !app_assoc. reflexivity.
Qed.

(** ** The shared-memory kernel, block by block *)

Lemma reached_by_waiting (bs bid t : Z) (ts : list Z) :
  In t ts ->
  reached_by t (waiting bs bid ts) =
    Some (AtBarrier (after_barrier c_gpu t (bid * bs + t)
                       {| blockIdx := bid; blockDim := bs; threadIdx := t |})).
Proof.
  induction ts as [| t' ts IH]; [contradiction |].
  intros Hin. cbn [waiting map reached_by].
  destruct (Z.eqb_spec t t') as [-> | Hne]; [reflexivity |].
  destruct Hin as [-> | Hin]; [contradiction | now apply IH].
Qed.

Lemma waiting_not_returned (bs bid : Z) (ts : list Z) :
  forallb (fun r : Z * reached => negb (is_returned (snd r))) (waiting bs bid ts) = true.
Proof. induction ts; cbn; auto. Qed.

Lemma waiting_some (bs bid t : Z) (ts : list Z) :
  forallb (fun r : Z * reached => is_returned (snd r)) (waiting bs bid (t :: ts)) = false.
Proof. reflexivity. Qed.

Lemma order_nonempty (l : list Z) (n : Z) :
  l ≡ₚ seqZ 0 n -> 1 <= n -> exists t l', l = t :: l'.
Proof.
  intros H Hn. apply Permutation_length in H. rewrite length_seqZ in H.
  destruct l as [| t l']; [cbn in H; lia | eauto].
Qed.

Section SharedLaunch.
Variables (m : gmem) (n bs : Z).
Hypothesis Hint : n <= 2 ^ 31.
Hypothesis Ha : n <= Z.of_nat (length (mem_a m)).
Hypothesis Hb : n <= Z.of_nat (length (mem_b m)).
Hypothesis Hc : n <= Z.of_nat (length (mem_c m)).

Lemma shared_stage_threads (G : gmem) (bid : Z) (ts before : list Z)
    (lg : list entry) :
  mem_a G = mem_a m -> mem_b G = mem_b m ->
  Forall (fun t => 0 <= t < shared_size /\ 0 <= bid * bs + t < n) ts ->
  run_threads (matrix_add_shared_memory a_gpu b_gpu c_gpu n) bid bs ts
    {| global := G; shared := smem_staged m (bid * bs) before; log := lg |}
  = Done (waiting bs bid ts)
      {| global := G; shared := smem_staged m (bid * bs) (before ++ ts);
         log := lg ++ flat_map (staging_accesses m bs bid) ts |}.
Proof using Hint Ha Hb.
  intros HGa HGb Hts. revert before lg.
  induction Hts as [| t ts [Ht Hg] _ IH]; intros before lg.
  - cbn. now rewrite !app_nil_r.
  - cbn [run_threads waiting map flat_map].
    destruct (lookup_in_range (mem_a m) n (bid * bs + t) Ha ltac:(lia)) as [x Hx].
    destruct (lookup_in_range (mem_b m) n (bid * bs + t) Hb ltac:(lia)) as [y Hy].
    rewrite (shared_thread_stage m G n bs bid t before x y lg) by (assumption || lia).
    rewrite IH. fold (waiting bs bid ts). rewrite <- !app_assoc. reflexivity.
Qed.

Lemma shared_add_threads (bid : Z) (staged_by ts done : list Z) (lg : list entry) :
  Forall (fun t => 0 <= t) staged_by ->
  Forall (fun t => In t staged_by /\ 0 <= t < shared_size /\ 0 <= bid * bs + t < n) ts ->
  resume bid (waiting bs bid staged_by) ts
    {| global := gmem_after m done; shared := smem_staged m (bid * bs) staged_by;
       log := lg |}
  = Done tt
      {| global := gmem_after m (done ++ map (fun t => bid * bs + t) ts);
         shared := smem_staged m (bid * bs) staged_by;
         log := lg ++ flat_map (adding_accesses m bs bid) ts |}.
Proof using Ha Hb Hc.
  intros Hpos Hts. revert done lg.
  induction Hts as [| t ts (Hin & Ht & Hg) _ IH]; intros done lg.
  - cbn. now rewrite !app_nil_r.
  - cbn [resume map flat_map]. rewrite reached_by_waiting by assumption.
    destruct (lookup_in_range (mem_a m) n (bid * bs + t) Ha ltac:(lia)) as [x Hx].
    destruct (lookup_in_range (mem_b m) n (bid * bs + t) Hb ltac:(lia)) as [y Hy].
    rewrite (shared_thread_add m bs bid t staged_by done x y lg) by (assumption || lia).
    rewrite IH. rewrite <- !app_assoc. reflexivity.
Qed.

Lemma shared_block (sch : schedule) (bid : Z) (done : list Z) (sh : smem)
    (lg : list entry) :
  1 <= bs <= shared_size -> 0 <= bid -> (bid + 1) * bs <= n ->
  thread_order sch bid ≡ₚ seqZ 0 bs -> resume_order sch bid ≡ₚ seqZ 0 bs ->
  run_block (matrix_add_shared_memory a_gpu b_gpu c_gpu n) sch bs bid
    {| global := gmem_after m done; shared := sh; log := lg |}
  = Done tt
      {| global := gmem_after m
                     (done ++ map (fun t => bid * bs + t) (resume_order sch bid));
         shared := smem_staged m (bid * bs) (thread_order sch bid);
         log := (lg ++ flat_map (staging_accesses m bs bid) (thread_order sch bid))
                   ++ flat_map (adding_accesses m bs bid) (resume_order sch bid) |}.
Proof using Hint Ha Hb Hc.
  intros Hbs Hbid Hn Hthreads Hresume. unfold run_block, with_shared. project.
  assert (Hbs0 : 0 <= bid * bs) by nia.
  pose proof (order_bounds _ _ Hthreads) as Bt.
  pose proof (order_bounds _ _ Hresume) as Br.
  change fresh_shared with (smem_staged m (bid * bs) []).
  rewrite shared_stage_threads; try reflexivity.
  2:{ eapply List.Forall_impl; [| exact Bt]. cbn. unfold shared_size in *. intros t Ht. nia. }
  destruct (order_nonempty _ _ Hthreads ltac:(lia)) as (t0 & ts0 & Hts0).
  rewrite Hts0 at 1 2. rewrite waiting_some, waiting_not_returned. rewrite <- Hts0.
  cbn [app]. rewrite shared_add_threads; [reflexivity | |].
  - eapply List.Forall_impl; [| exact Bt]. cbn. intros; lia.
  - rewrite List.Forall_forall in Br |- *. intros t Ht.
    specialize (Br t Ht). split; [| unfold shared_size in *; nia].
    apply (Permutation_in _ (symmetry Hthreads)).
    apply (Permutation_in _ Hresume). exact Ht.
Qed.

Lemma shared_blocks (sch : schedule) (grid : Z) (blocks : list Z) :
  1 <= bs <= shared_size -> grid * bs <= n ->
  Forall (fun b => 0 <= b < grid) blocks ->
  (forall b, thread_order sch b ≡ₚ seqZ 0 bs) ->
  (forall b, resume_order sch b ≡ₚ seqZ 0 bs) ->
  forall (done : list Z) (s : state),
    global s = gmem_after m done ->
    exists s' : state,
      run_blocks (matrix_add_shared_memory a_gpu b_gpu c_gpu n) sch bs blocks s
        = Done tt s' /\
      global s' =
        gmem_after m
          (done ++ flat_map (fun b => map (fun t => b * bs + t) (resume_order sch b))
                     blocks).
Proof using Hint Ha Hb Hc.
  intros Hbs Hgrid Hblocks Hthreads Hresume.
  induction Hblocks as [| b blocks Hb0 _ IH]; intros done s Hs.
  - exists s. split; [reflexivity |]. cbn. now rewrite app_nil_r.
  - cbn [run_blocks flat_map].
    destruct s as [G sh lg]. cbn [global] in Hs. subst G.
    rewrite shared_block by (auto; nia).
    match goal with
    | |- context [run_blocks _ _ _ blocks ?st] =>
        destruct (IH _ st eq_refl) as (s' & Hrun & Hglob)
    end.
    exists s'. split; [exact Hrun |]. rewrite Hglob. now rewrite <- app_assoc.
Qed.

End SharedLaunch.

Lemma flat_map_ext_in {T U} (f g : T -> list U) (l : list T) :
  (forall x, In x l -> f x = g x) -> flat_map f l = flat_map g l.
Proof.
  induction l as [| x l IH]; intros H; cbn; [reflexivity |].
  rewrite (H x) by now left. rewrite IH; [reflexivity |].
  intros y Hy. apply H. now right.
Qed.

Lemma gids_full (n bs b : Z) (ts : list Z) :
  Forall (fun t => b * bs + t < n) ts ->
  gids n bs b ts = map (fun t => b * bs + t) ts.
Proof.
  intros H. unfold gids. apply filter_all.
  apply Forall_map. eapply List.Forall_impl; [| exact H].
  cbn. intros t Ht. now apply Z.ltb_lt.
Qed.

Lemma shared_done_Permutation (sch : schedule) (n bs : Z) :
  0 < n -> 0 < bs -> n mod bs = 0 -> fair sch bs (grid_size_for n bs) ->
  shared_done sch bs ≡ₚ seqZ 0 n.
Proof.
  intros Hn Hbs Hmod (Hblocks & _ & Hresume).
  pose proof (grid_exact n bs Hbs Hmod) as Hg.
  rewrite <- (gids_Permutation n bs (grid_size_for n bs) (resume_order sch)
                (block_order sch)); auto; try nia.
  unfold shared_done. apply Permutation_refl'.
  pose proof (order_bounds _ _ Hblocks) as Bb.
  rewrite List.Forall_forall in Bb.
  apply flat_map_ext_in. intros b Hb0. symmetry. apply gids_full.
  specialize (Bb b Hb0).
  eapply List.Forall_impl; [| exact (order_bounds _ _ (Hresume b))].
  cbn. intros t Ht. nia.
Qed.

(** The whole launch of the shared-memory kernel, in any order, when its
    blocks fit the shared arrays and the input is a whole number of
    blocks. *)
Lemma shared_launch (sch : schedule) (m : gmem) (n bs : Z) :
  0 < n -> n < 2 ^ 31 -> 1 <= bs <= shared_size -> n mod bs = 0 ->
  fair sch bs (grid_size_for n bs) ->
  n <= Z.of_nat (length (mem_a m)) ->
  n <= Z.of_nat (length (mem_b m)) ->
  n <= Z.of_nat (length (mem_c m)) ->
  exists s : state,
    launch (matrix_add_shared_memory a_gpu b_gpu c_gpu n) sch bs (grid_size_for n bs) m
      = Done tt s /\
    global s = gmem_after m (shared_done sch bs).
Proof.
  intros Hn Hint Hbs Hmod Hfair Ha Hb Hc.
  pose proof (grid_exact n bs ltac:(lia) Hmod) as Hg.
  destruct Hfair as (Hblocks & Hthreads & Hresume).
  unfold launch. rewrite launch_valid by (unfold shared_size in *; nia).
  destruct (shared_blocks m n bs ltac:(lia) Ha Hb Hc sch (grid_size_for n bs)
              (block_order sch) Hbs ltac:(lia) (order_bounds _ _ Hblocks)
              Hthreads Hresume []
              {| global := m; shared := fresh_shared; log := [] |})
    as (s & Hrun & Hglob).
  { cbn [global]. now rewrite gmem_after_nil. }
  exists s. split; [exact Hrun | exact Hglob].
Qed.

(** ** The log of a naive launch *)

Lemma naive_accesses_within (m : gmem) (bs n g : Z) :
  0 <= g < n -> Forall (within n) (naive_accesses m bs g).
Proof.
  intros Hg. unfold naive_accesses.
  destruct (mem_a m !! Z.to_nat g), (mem_b m !! Z.to_nat g); cbn [map];
    repeat constructor; cbn; lia.
Qed.

Lemma naive_log_within (m : gmem) (bs n : Z) (done : list Z) :
  Forall (fun g => 0 <= g < n) done ->
  Forall (within n) (flat_map (naive_accesses m bs) done).
Proof.
  induction 1 as [| g done Hg _ IH]; cbn [flat_map]; [constructor |].
  apply Forall_app. split; [now apply naive_accesses_within | exact IH].
Qed.

Lemma naive_accesses_writes (m : gmem) (bs i g : Z) (x y : float32) :
  mem_a m !! Z.to_nat i = Some x -> mem_b m !! Z.to_nat i = Some y ->
  List.filter (writes_c i) (naive_accesses m bs g) =
    if Z.eqb i g
    then [{| by_block := i / bs; by_thread := i mod bs;
             what := GWrite c_gpu i (fadd32 x y) |}]
    else [].
Proof.
  intros Hx Hy. unfold naive_accesses.
  destruct (Z.eqb_spec i g) as [<- | Hne].
  - rewrite Hx, Hy. cbn. now rewrite Z.eqb_refl.
  - destruct (mem_a m !! Z.to_nat g), (mem_b m !! Z.to_nat g); cbn; try reflexivity.
    destruct (Z.eqb_spec i g); [contradiction | reflexivity].
Qed.

Lemma naive_log_writes_in_order (m : gmem) (bs i : Z) (k : nat) (x y : float32) :
  0 <= i ->
  mem_a m !! Z.to_nat i = Some x -> mem_b m !! Z.to_nat i = Some y ->
  List.filter (writes_c i) (flat_map (naive_accesses m bs) (seqZ 0 (Z.of_nat k))) =
    if Z.ltb i (Z.of_nat k)
    then [{| by_block := i / bs; by_thread := i mod bs;
             what := GWrite c_gpu i (fadd32 x y) |}]
    else [].
Proof.
  intros Hi Hx Hy. induction k as [| k IH].
  - change (Z.of_nat 0) with 0. destruct (Z.ltb_spec i 0); [lia | reflexivity].
  - rewrite seqZ_S, flat_map_app, List.filter_app, IH. cbn [flat_map].
    rewrite app_nil_r, Z.add_0_l.
    rewrite (naive_accesses_writes m bs i (Z.of_nat k) x y Hx Hy).
    destruct (Z.ltb_spec i (Z.of_nat k)), (Z.eqb_spec i (Z.of_nat k)),
      (Z.ltb_spec i (Z.of_nat (S k))); try lia; reflexivity.
Qed.

(** In any order, the log holds one write to [c[i]]. *)
Lemma naive_log_writes (m : gmem) (bs n i : Z) (done : list Z) (x y : float32) :
  done ≡ₚ seqZ 0 n -> 0 <= i < n ->
  mem_a m !! Z.to_nat i = Some x -> mem_b m !! Z.to_nat i = Some y ->
  List.filter (writes_c i) (flat_map (naive_accesses m bs) done) =
    [{| by_block := i / bs; by_thread := i mod bs;
        what := GWrite c_gpu i (fadd32 x y) |}].
Proof.
  intros Hperm Hi Hx Hy.
  apply Permutation_singleton_r.
  rewrite (filter_Permutation (writes_c i) _ _
             (Permutation_flat_map (naive_accesses m bs) Hperm)).
  replace n with (Z.of_nat (Z.to_nat n)) by lia.
  rewrite (naive_log_writes_in_order m bs i (Z.to_nat n) x y) by (assumption || lia).
  destruct (Z.ltb_spec i (Z.of_nat (Z.to_nat n))); [reflexivity | lia].
Qed.

(** ** A launch leaves the operands alone *)

Lemma same_inputs_refl (s : state) : same_inputs s s.
Proof. split; reflexivity. Qed.

Lemma same_inputs_trans (s1 s2 s3 : state) :
  same_inputs s1 s2 -> same_inputs s2 s3 -> same_inputs s1 s3.
Proof. unfold same_inputs. intros [] []. split; congruence. Qed.

Lemma run_threads_keeps (k : kernel) (bid bs : Z) (tids : list Z) :
  kernel_keeps k ->
  forall s rs s', run_threads k bid bs tids s = Done rs s' ->
    same_inputs s s' /\ Forall (fun r => resumes_keep (snd r)) rs.
Proof.
  intros Hk. induction tids as [| t tids IH]; intros s rs s' H; cbn in H.
  - inversion H; subst. split; [apply same_inputs_refl | constructor].
  - destruct (k _ s) as [r s1 | |] eqn:E1; [| discriminate ..].
    destruct (run_threads k bid bs tids s1) as [rs1 s2 | |] eqn:E2; [| discriminate ..].
    inversion H; subst.
    destruct (Hk _ _ _ _ E1) as [K1 R1]. destruct (IH _ _ _ E2) as [K2 R2].
    split; [eapply same_inputs_trans; eauto | constructor; auto].
Qed.

Lemma reached_by_keeps (t : Z) (rs : list (Z * reached)) (r : reached) :
  Forall (fun r => resumes_keep (snd r)) rs -> reached_by t rs = Some r ->
  resumes_keep r.
Proof.
  induction 1 as [| [t' r'] rs Hr _ IH]; cbn; [discriminate |].
  destruct (Z.eqb t t'); [| exact IH]. now inversion 1; subst.
Qed.

Lemma resume_keeps (bid : Z) (rs : list (Z * reached)) (tids : list Z) :
  Forall (fun r => resumes_keep (snd r)) rs ->
  forall s v s', resume bid rs tids s = Done v s' -> same_inputs s s'.
Proof.
  intros Hrs. induction tids as [| t tids IH]; intros s v s' H; cbn in H.
  - inversion H; subst. apply same_inputs_refl.
  - destruct (reached_by t rs) as [[| rest] |] eqn:E; try discriminate.
    destruct (rest s) as [u s1 | |] eqn:E1; [| discriminate ..].
    pose proof (reached_by_keeps t rs _ Hrs E) as Hrest.
    eapply same_inputs_trans; [eapply Hrest; eauto | eapply IH; eauto].
Qed.

Lemma run_block_keeps (k : kernel) (sch : schedule) (bs bid : Z) :
  kernel_keeps k ->
  forall s v s', run_block k sch bs bid s = Done v s' -> same_inputs s s'.
Proof.
  intros Hk s v s' H. unfold run_block in H.
  destruct (run_threads k bid bs (thread_order sch bid) (with_shared fresh_shared s))
    as [rs s1 | |] eqn:E1; [| discriminate ..].
  destruct (run_threads_keeps k bid bs _ Hk _ _ _ E1) as [K1 R1].
  assert (K0 : same_inputs s s1) by exact K1.
  destruct (forallb _ rs).
  - inversion H; subst. exact K0.
  - destruct (forallb _ rs); [| discriminate].
    eapply same_inputs_trans; [exact K0 | eapply resume_keeps; eauto].
Qed.

Lemma run_blocks_keeps (k : kernel) (sch : schedule) (bs : Z) (bids : list Z) :
  kernel_keeps k ->
  forall s v s', run_blocks k sch bs bids s = Done v s' -> same_inputs s s'.
Proof.
  intros Hk. induction bids as [| b bids IH]; intros s v s' H; cbn in H.
  - inversion H; subst. apply same_inputs_refl.
  - destruct (run_block k sch bs b s) as [u s1 | |] eqn:E1; [| discriminate ..].
    eapply same_inputs_trans; [eapply run_block_keeps; eauto | eapply IH; eauto].
Qed.

Lemma launch_keeps (k : kernel) (sch : schedule) (bs grid : Z) (m : gmem)
    (v : unit) (s : state) :
  kernel_keeps k -> launch k sch bs grid m = Done v s ->
  mem_a (global s) = mem_a m /\ mem_b (global s) = mem_b m.
Proof.
  intros Hk H. unfold launch in H.
  destruct (_ && _); [| discriminate].
  apply (run_blocks_keeps k sch bs _ Hk) in H. exact H.
Qed.

Lemma gload_keeps (p : buffer) (i : Z) (x : ctx) (s : state) (v : float32) (s' : state) :
  gload p i x s = Done v s' -> s' = record (GRead p i) x s.
Proof.
  unfold gload. destruct (in_bounds _ _); [| discriminate].
  destruct (_ !! _); [| discriminate]. now inversion 1.
Qed.

Lemma sload_keeps (a : shared_array) (i : Z) (x : ctx) (s : state) (v : float32) (s' : state) :
  sload a i x s = Done v s' -> s' = record (SRead a i) x s.
Proof.
  unfold sload. destruct (in_bounds _ _); [| discriminate].
  destruct (_ !! _) as [[|]|]; try discriminate. now inversion 1.
Qed.

Lemma sstore_keeps (a : shared_array) (i : Z) (w : float32) (x : ctx) (s : state)
    (v : unit) (s' : state) :
  sstore a i w x s = Done v s' -> global s' = global s.
Proof.
  unfold sstore. destruct (in_bounds _ _); [| discriminate].
  inversion 1; subst. reflexivity.
Qed.

Lemma gstore_c_keeps (i : Z) (w : float32) (x : ctx) (s : state) (v : unit) (s' : state) :
  gstore c_gpu i w x s = Done v s' -> same_inputs s s'.
Proof.
  unfold gstore. destruct (in_bounds _ _); [| discriminate].
  inversion 1; subst. split; reflexivity.
Qed.

Lemma naive_keeps (n : Z) : kernel_keeps (matrix_add_unoptimized a_gpu b_gpu c_gpu n).
Proof.
  intros x s r s'.
  unfold matrix_add_unoptimized, bind, global_id, returned, ret.
  destruct (Z.ltb _ n).
  - destruct (gload a_gpu _ x s) as [u s1 | |] eqn:E1; [| discriminate ..].
    destruct (gload b_gpu _ x s1) as [w s2 | |] eqn:E2; [| discriminate ..].
    destruct (gstore c_gpu _ _ x s2) as [o s3 | |] eqn:E3; [| discriminate ..].
    inversion 1; subst.
    apply gload_keeps in E1, E2. apply gstore_c_keeps in E3. subst s1 s2.
    split; [exact E3 | exact I].
  - inversion 1; subst. split; [apply same_inputs_refl | exact I].
Qed.

Lemma after_barrier_keeps (tid gid : Z) (x : ctx) :
  resumes_keep (AtBarrier (after_barrier c_gpu tid gid x)).
Proof.
  intros s v s'. unfold after_barrier, bind.
  destruct (sload shared_a tid x s) as [u s1 | |] eqn:E1; [| discriminate ..].
  destruct (sload shared_b tid x s1) as [w s2 | |] eqn:E2; [| discriminate ..].
  intros E3. apply sload_keeps in E1, E2. apply gstore_c_keeps in E3. subst s1 s2.
  exact E3.
Qed.

Lemma shared_keeps (n : Z) : kernel_keeps (matrix_add_shared_memory a_gpu b_gpu c_gpu n).
Proof.
  intros x s r s'.
  unfold matrix_add_shared_memory, bind, thread_idx, global_id, syncthreads, returned, ret.
  destruct (Z.ltb _ n).
  - destruct (gload a_gpu _ x s) as [u s1 | |] eqn:E1; [| discriminate ..].
    destruct (sstore shared_a _ u x s1) as [o1 s2 | |] eqn:E2; [| discriminate ..].
    destruct (gload b_gpu _ x s2) as [w s3 | |] eqn:E3; [| discriminate ..].
    destruct (sstore shared_b _ w x s3) as [o2 s4 | |] eqn:E4; [| discriminate ..].
    inversion 1; subst.
    apply gload_keeps in E1, E3. apply sstore_keeps in E2, E4. subst s1 s3.
    split.
    + unfold same_inputs. rewrite E4. cbn [global record]. rewrite E2. split; reflexivity.
    + apply (after_barrier_keeps (to_int (threadIdx x))
               (to_int (blockIdx x * blockDim x + threadIdx x)) x).
  - inversion 1; subst. split; [apply same_inputs_refl | exact I].
Qed.

(** ** A block larger than the shared arrays *)

Lemma run_threads_app (k : kernel) (bid bs : Z) (l1 l2 : list Z) (s : state) :
  run_threads k bid bs (l1 ++ l2) s =
    match run_threads k bid bs l1 s with
    | Fault f => Fault f
    | Undefined u => Undefined u
    | Done rs1 s1 =>
        match run_threads k bid bs l2 s1 with
        | Fault f => Fault f
        | Undefined u => Undefined u
        | Done rs2 s2 => Done (rs1 ++ rs2) s2
        end
    end.
Proof.
  revert s. induction l1 as [| t l1 IH]; intros s; cbn.
  - destruct (run_threads k bid bs l2 s); reflexivity.
  - destruct (k _ s) as [r s1 | |]; [| reflexivity ..].
    rewrite IH. destruct (run_threads k bid bs l1 s1) as [rs1 s2 | |]; [| reflexivity ..].
    destruct (run_threads k bid bs l2 s2); reflexivity.
Qed.

(** A thread of index [shared_size] or more stores outside [shared_a]. *)
Lemma shared_thread_overflow (n bs bid t : Z) (s : state) (x : float32) :
  shared_size <= t < 2 ^ 31 -> 0 <= bid * bs + t < n -> n < 2 ^ 31 ->
  mem_a (global s) !! Z.to_nat (bid * bs + t) = Some x ->
  length (sh_a (shared s)) = Z.to_nat shared_size ->
  matrix_add_shared_memory a_gpu b_gpu c_gpu n
    {| blockIdx := bid; blockDim := bs; threadIdx := t |} s
  = Undefined (SharedOutOfBounds shared_a t).
Proof.
  intros Ht Hn Hint Hx Hlen. unfold shared_size in *.
  unfold matrix_add_shared_memory, bind, thread_idx, global_id.
  cbn [blockIdx blockDim threadIdx].
  rewrite !to_int_small by lia.
  destruct (Z.ltb_spec (bid * bs + t) n) as [_ | ?]; [| lia].
  rewrite (gload_ok a_gpu _ x) by (cbn [buf]; assumption || lia).
  unfold sstore. rewrite in_bounds_false; [reflexivity |].
  project. rewrite Hlen. lia.
Qed.

(** A block in which the threads [pre] fit the shared arrays and the
    next thread, [t], does not: the block comes to the store of [t],
    outside [shared_a]. *)
Lemma shared_block_overflow (sch : schedule) (m : gmem) (n bs bid t : Z)
    (pre post : list Z) (s : state) :
  thread_order sch bid = pre ++ t :: post ->
  Forall (fun t' => 0 <= t' < shared_size /\ 0 <= bid * bs + t' < n) pre ->
  shared_size <= t < 2 ^ 31 -> 0 <= bid * bs + t < n -> n < 2 ^ 31 ->
  n <= Z.of_nat (length (mem_a m)) -> n <= Z.of_nat (length (mem_b m)) ->
  mem_a (global s) = mem_a m -> mem_b (global s) = mem_b m ->
  run_block (matrix_add_shared_memory a_gpu b_gpu c_gpu n) sch bs bid s
  = Undefined (SharedOutOfBounds shared_a t).
Proof.
  intros Horder Hpre Ht Hg Hint Ha Hb HGa HGb. unfold run_block.
  rewrite Horder, run_threads_app.
  destruct s as [G sh lg]. unfold with_shared. cbn [global log] in *.
  change fresh_shared with (smem_staged m (bid * bs) []).
  rewrite (shared_stage_threads m n bs ltac:(lia) Ha Hb G bid pre [] lg HGa HGb Hpre).
  cbn [run_threads].
  destruct (lookup_in_range (mem_a m) n (bid * bs + t) Ha ltac:(lia)) as [x Hx].
  rewrite (shared_thread_overflow n bs bid t _ x); try (reflexivity || lia).
  - cbn [global]. now rewrite HGa.
  - cbn [shared smem_staged sh_a]. apply staged_length.
Qed.

Lemma first_outside (l : list Z) (bound : Z) :
  (exists t, In t l /\ bound <= t) ->
  exists pre t post,
    l = pre ++ t :: post /\ Forall (fun t' => t' < bound) pre /\ bound <= t.
Proof.
  induction l as [| t0 l IH]; intros (t & Hin & Ht); [contradiction |].
  destruct (Z.lt_ge_cases t0 bound) as [Hlt | Hge].
  - destruct Hin as [-> | Hin]; [lia |].
    destruct IH as (pre & t1 & post & -> & Hpre & Ht1); [eauto |].
    exists (t0 :: pre), t1, post. repeat split; auto.
  - exists [], t0, l. repeat split; auto.
Qed.

(** In any order, a launch of the shared-memory kernel with blocks larger
    than its arrays, over a whole number of blocks, comes to a store
    outside [shared_a]. *)
Lemma shared_launch_overflow (sch : schedule) (m : gmem) (n bs : Z) :
  shared_size < bs <= 1024 -> 0 < n < 2 ^ 31 -> n mod bs = 0 ->
  fair sch bs (grid_size_for n bs) ->
  n <= Z.of_nat (length (mem_a m)) -> n <= Z.of_nat (length (mem_b m)) ->
  exists t : Z,
    shared_size <= t < bs /\
    launch (matrix_add_shared_memory a_gpu b_gpu c_gpu n) sch bs (grid_size_for n bs) m
    = Undefined (SharedOutOfBounds shared_a t).
Proof.
  intros Hbs Hn Hmod (Hblocks & Hthreads & _) Ha Hb.
  assert (Hsz : shared_size = 256) by reflexivity.
  pose proof (grid_exact n bs ltac:(lia) Hmod) as Hg.
  assert (Hg1 : 1 <= grid_size_for n bs) by nia.
  destruct (order_nonempty _ _ Hblocks Hg1) as (b0 & rest & Hb0).
  assert (Bb : 0 <= b0 < grid_size_for n bs).
  { pose proof (order_bounds _ _ Hblocks) as Bb. rewrite Hb0 in Bb.
    now inversion Bb. }
  pose proof (order_bounds _ _ (Hthreads b0)) as Bt.
  destruct (first_outside (thread_order sch b0) shared_size)
    as (pre & t & post & Horder & Hpre & Ht).
  { exists shared_size. split; [| lia].
    apply (Permutation_in _ (symmetry (Hthreads b0))).
    apply list_elem_of_In, elem_of_seqZ. lia. }
  rewrite Horder in Bt. apply Forall_app in Bt as [Bpre Bt].
  inversion Bt as [| ? ? Bt0 _]; subst.
  exists t. split; [lia |].
  unfold launch. rewrite launch_valid by nia.
  rewrite Hb0. cbn [run_blocks].
  rewrite (shared_block_overflow sch m n bs b0 t pre post); try (assumption || reflexivity || nia).
  rewrite List.Forall_forall in Bpre, Hpre |- *. intros t' Hin.
  specialize (Bpre t' Hin). specialize (Hpre t' Hin). cbn in Hpre. nia.
Qed.

(** ** Two schedules *)

Lemma fair_in_order (bs grid : Z) : fair (in_order bs grid) bs grid.
Proof. repeat split; intros; reflexivity. Qed.

Lemma fair_backwards (bs grid : Z) : fair (backwards bs grid) bs grid.
Proof. repeat split; intros; cbn; symmetry; apply Permutation_rev. Qed.

(** ** The steps of the notebook *)

Lemma np_int32_ok (n : Z) : 0 <= n < 2 ^ 31 -> np_int32 n = Some n.
Proof.
  intros Hn. unfold np_int32.
  destruct (Z.leb_spec (- 2 ^ 31) n); [| lia].
  destruct (Z.ltb_spec n (2 ^ 31)); [reflexivity | lia].
Qed.

Lemma memcpy_dtoh_ok (dst src : list float32) :
  (length dst <= length src)%nat ->
  memcpy_dtoh dst src = Some (take (length dst) src).
Proof.
  intros H. unfold memcpy_dtoh.
  destruct (Nat.leb_spec (length dst) (length src)); [reflexivity | lia].
Qed.

(** Step 1 on buffers that hold at least [n] values each. *)
Lemma step1_run (sch : schedule) (n : Z) (h : host) :
  0 < n -> n + 256 <= 2 ^ 31 ->
  fair sch 256 (grid_size_for n 256) ->
  n <= Z.of_nat (length (mem_a (device h))) ->
  n <= Z.of_nat (length (mem_b (device h))) ->
  n <= Z.of_nat (length (mem_c (device h))) ->
  (length (c h) <= length (mem_c (device h)))%nat ->
  step1 sch n h =
    Done {| a := a h; b := b h;
            c := take (length (c h)) (c_after (device h) (naive_done sch n 256));
            device := gmem_after (device h) (naive_done sch n 256) |}
         (naive_state (device h) 256 (naive_done sch n 256)).
Proof.
  intros Hn Hint Hfair Ha Hb Hc Hhost. unfold step1, timed_call.
  rewrite np_int32_ok by lia.
  rewrite naive_launch by (assumption || lia).
  cbn [global naive_state gmem_after mem_c].
  rewrite memcpy_dtoh_ok by (rewrite c_after_length; lia).
  reflexivity.
Qed.

(** Step 2 on arrays of [n] values, [n] a multiple of the block size. *)
Lemma step2_run (sch : schedule) (n : Z) (h : host) :
  0 < n < 2 ^ 31 -> n mod 256 = 0 ->
  fair sch 256 (grid_size_for n 256) ->
  n <= Z.of_nat (length (mem_a (device h))) ->
  n <= Z.of_nat (length (mem_b (device h))) ->
  n <= Z.of_nat (length (mem_c (device h))) ->
  (length (c h) <= length (mem_c (device h)))%nat ->
  exists s : state,
    step2 sch n h =
      Done {| a := a h; b := b h;
              c := take (length (c h)) (c_after (device h) (shared_done sch 256));
              device := gmem_after (device h) (shared_done sch 256) |} s.
Proof.
  intros Hn Hmod Hfair Ha Hb Hc Hhost.
  destruct (shared_launch sch (device h) n 256) as (s2 & Hrun & Hglob);
    try (unfold shared_size; lia); try assumption.
  exists s2. unfold step2, timed_call. rewrite np_int32_ok by lia.
  rewrite Hrun, Hglob. cbn [gmem_after mem_c].
  rewrite memcpy_dtoh_ok by (rewrite c_after_length; lia).
  reflexivity.
Qed.

(** A launch of the shared-memory kernel with blocks larger than its
    arrays comes to a store outside them. *)
Lemma timed_call_overflow (sch : schedule) (n bs : Z) (h : host) :
  256 < bs <= 1024 -> 0 < n < 2 ^ 31 -> n mod bs = 0 ->
  fair sch bs (grid_size_for n bs) ->
  n <= Z.of_nat (length (mem_a (device h))) ->
  n <= Z.of_nat (length (mem_b (device h))) ->
  exists t : Z,
    256 <= t < bs /\
    timed_call matrix_add_shared_memory sch n bs (grid_size_for n bs) h
    = Undefined (SharedOutOfBounds shared_a t).
Proof.
  intros Hbs Hn Hmod Hfair Ha Hb.
  destruct (shared_launch_overflow sch (device h) n bs) as (t & Ht & Hrun);
    try (unfold shared_size; lia); try assumption.
  exists t. split; [exact Ht |]. unfold timed_call.
  rewrite np_int32_ok by lia. now rewrite Hrun.
Qed.

(** With the blocks and the threads in the order of their index it is
    thread 256 of block 0, whatever the length above 256. *)
Lemma timed_call_overflow_in_order (n bs : Z) (h : host) :
  256 < bs <= 1024 -> 256 < n < 2 ^ 31 ->
  n <= Z.of_nat (length (mem_a (device h))) ->
  n <= Z.of_nat (length (mem_b (device h))) ->
  timed_call matrix_add_shared_memory (in_order bs (grid_size_for n bs)) n bs
    (grid_size_for n bs) h
  = Undefined (SharedOutOfBounds shared_a 256).
Proof.
  intros Hbs Hn Ha Hb.
  pose proof (grid_covers n bs ltac:(lia)) as Hg.
  assert (Hg1 : 1 <= grid_size_for n bs) by nia.
  unfold timed_call. rewrite np_int32_ok by lia.
  unfold launch. rewrite launch_valid by nia.
  cbn [block_order in_order]. rewrite seqZ_cons by lia. cbn [run_blocks].
  rewrite (shared_block_overflow _ (device h) n bs 0 256
             (seqZ 0 256) (seqZ 257 (bs - 257)));
    try (reflexivity || unfold shared_size; lia).
  - cbn [thread_order in_order].
    replace bs with (256 + (bs - 256)) at 1 by lia.
    rewrite seqZ_app by lia. f_equal.
    rewrite seqZ_cons by lia. do 2 f_equal; lia.
  - apply Forall_seqZ. unfold shared_size. intros; lia.
Qed.

(** What a timed call changes on the host and on the device: nothing but
    the output arrays. *)
Lemma timed_call_keeps (k : buffer -> buffer -> buffer -> Z -> kernel)
    (sch : schedule) (n bs grid : Z) (h h' : host) (s : state) :
  (forall n32, kernel_keeps (k a_gpu b_gpu c_gpu n32)) ->
  timed_call k sch n bs grid h = Done h' s ->
  a h' = a h /\ b h' = b h /\
  mem_a (device h') = mem_a (device h) /\
  mem_b (device h') = mem_b (device h) /\
  c h' = take (length (c h)) (mem_c (device h')).
Proof.
  intros Hk H. unfold timed_call in H.
  destruct (np_int32 n) as [n32 |]; [| discriminate].
  destruct (launch _ sch bs grid (device h)) as [u s1 | |] eqn:E1; [| discriminate ..].
  destruct (launch_keeps _ _ _ _ _ _ _ (Hk n32) E1) as [Ka Kb].
  unfold memcpy_dtoh in H.
  destruct (Nat.leb _ _); [| discriminate].
  inversion H; subst. cbn [a b c device]. auto.
Qed.

(** C10. In any order of the blocks and of the threads, a launch of
    the naive kernel with [grid_size = (N + block_size - 1) // block_size]
    on buffers that hold at least [N] values completes; for every index
    [i] below [N] exactly one thread, thread [i mod block_size] of block
    [i / block_size], writes [c[i]], and it writes [a[i] + b[i]]; every
    access of every thread is to an index in [0, N). *)
Theorem naive_launch_covers (sch : schedule) (m : gmem) (n bs : Z) :
  0 < n -> 1 <= bs <= 1024 -> n + bs <= 2 ^ 31 ->
  fair sch bs (grid_size_for n bs) ->
  n <= Z.of_nat (length (mem_a m)) ->
  n <= Z.of_nat (length (mem_b m)) ->
  n <= Z.of_nat (length (mem_c m)) ->
  exists s : state,
    launch (matrix_add_unoptimized a_gpu b_gpu c_gpu n) sch bs (grid_size_for n bs) m
      = Done tt s /\
    (forall i : Z, 0 <= i < n ->
       exists x y : float32,
         mem_a m !! Z.to_nat i = Some x /\ mem_b m !! Z.to_nat i = Some y /\
         List.filter (writes_c i) (log s) =
           [{| by_block := i / bs; by_thread := i mod bs;
               what := GWrite c_gpu i (fadd32 x y) |}] /\
         mem_c (global s) !! Z.to_nat i = Some (fadd32 x y)) /\
    Forall (within n) (log s).
Proof.
  intros Hn Hbs Hint Hfair Ha Hb Hc.
  pose proof (naive_done_Permutation sch n bs ltac:(lia) ltac:(lia) Hfair) as Hperm.
  assert (Hpos : Forall (fun g => 0 <= g < n) (naive_done sch n bs)).
  { rewrite Hperm. apply Forall_seqZ. intros; lia. }
  exists (naive_state m bs (naive_done sch n bs)).
  split; [now apply naive_launch |]. split.
  - intros i Hi.
    destruct (lookup_in_range (mem_a m) n i Ha Hi) as [x Hx].
    destruct (lookup_in_range (mem_b m) n i Hb Hi) as [y Hy].
    exists x, y. repeat split; try assumption.
    + cbn [log naive_state]. now apply (naive_log_writes m bs n).
    + cbn [global naive_state gmem_after mem_c].
      apply c_after_done; try assumption; try lia.
      * eapply List.Forall_impl; [| exact Hpos]. cbn. intros; lia.
      * apply (Permutation_in _ (symmetry Hperm)).
        apply list_elem_of_In, elem_of_seqZ. lia.
  - cbn [log naive_state]. now apply naive_log_within.
Qed.

(** C4 (as amended). The add kernel checks no shape: launched by step 1
    with the length argument [n] on buffers that each hold at least [n]
    values, whatever their lengths, it completes without an error and
    leaves [a[i] + b[i]] in [c[i]] for every [i] below [n]. *)
Theorem step1_checks_no_shape (sch : schedule) (n : Z) (h : host) :
  0 < n -> n + 256 <= 2 ^ 31 ->
  fair sch 256 (grid_size_for n 256) ->
  n <= Z.of_nat (length (mem_a (device h))) ->
  n <= Z.of_nat (length (mem_b (device h))) ->
  n <= Z.of_nat (length (mem_c (device h))) ->
  (length (c h) <= length (mem_c (device h)))%nat ->
  exists (h' : host) (s : state),
    step1 sch n h = Done h' s /\
    forall i : Z, 0 <= i < n ->
      exists x y : float32,
        mem_a (device h) !! Z.to_nat i = Some x /\
        mem_b (device h) !! Z.to_nat i = Some y /\
        mem_c (device h') !! Z.to_nat i = Some (fadd32 x y).
Proof.
  intros Hn Hint Hfair Ha Hb Hc Hhost.
  pose proof (naive_done_Permutation sch n 256 ltac:(lia) ltac:(lia) Hfair) as Hperm.
  eexists _, _. split; [now apply step1_run |].
  intros i Hi.
  destruct (lookup_in_range (mem_a (device h)) n i Ha Hi) as [x Hx].
  destruct (lookup_in_range (mem_b (device h)) n i Hb Hi) as [y Hy].
  exists x, y. repeat split; try assumption.
  cbn [device gmem_after mem_c].
  apply c_after_done; try assumption; try lia.
  - rewrite Hperm. apply Forall_seqZ. intros; lia.
  - apply (Permutation_in _ (symmetry Hperm)).
    apply list_elem_of_In, elem_of_seqZ. lia.
Qed.

(** C9. With blocks of 256 threads, on arrays of [n] values, [n] a
    positive multiple of 256 as in the notebook, and in any order of the
    blocks and of the threads, the naive kernel (step 1) and the
    shared-memory kernel (step 2) both complete and leave the same
    arrays: [c[i] = a[i] + b[i]] for every [i], on the device and on the
    host. *)
Theorem kernels_agree (sch1 sch2 : schedule) (n : Z) (h : host) :
  0 < n < 2 ^ 31 -> n mod 256 = 0 ->
  fair sch1 256 (grid_size_for n 256) ->
  fair sch2 256 (grid_size_for n 256) ->
  Z.of_nat (length (mem_a (device h))) = n ->
  Z.of_nat (length (mem_b (device h))) = n ->
  Z.of_nat (length (mem_c (device h))) = n ->
  Z.of_nat (length (c h)) = n ->
  exists (h' : host) (s1 s2 : state),
    step1 sch1 n h = Done h' s1 /\
    step2 sch2 n h = Done h' s2 /\
    mem_c (device h') = zip_with fadd32 (mem_a (device h)) (mem_b (device h)) /\
    c h' = mem_c (device h') /\
    forall (i : nat) (x y : float32),
      mem_a (device h) !! i = Some x -> mem_b (device h) !! i = Some y ->
      c h' !! i = Some (fadd32 x y).
Proof.
  intros Hn Hmod Hfair1 Hfair2 Ha Hb Hc Hhost.
  assert (Hint : n + 256 <= 2 ^ 31).
  { pose proof (Z.div_mod n 256 ltac:(lia)). lia. }
  pose proof (naive_done_Permutation sch1 n 256 ltac:(lia) ltac:(lia) Hfair1) as Hp1.
  pose proof (shared_done_Permutation sch2 n 256 ltac:(lia) ltac:(lia) Hmod Hfair2) as Hp2.
  pose proof (c_after_all (device h) _ n Hp1 Ha Hb Hc) as Hall1.
  pose proof (c_after_all (device h) _ n Hp2 Ha Hb Hc) as Hall2.
  assert (Htake : take (length (c h))
                    (zip_with fadd32 (mem_a (device h)) (mem_b (device h))) =
                  zip_with fadd32 (mem_a (device h)) (mem_b (device h))).
  { apply take_ge. rewrite length_zip_with. lia. }
  destruct (step2_run sch2 n h) as (s2 & Hrun); try (assumption || lia).
  exists {| a := a h; b := b h;
            c := zip_with fadd32 (mem_a (device h)) (mem_b (device h));
            device := {| mem_a := mem_a (device h); mem_b := mem_b (device h);
                         mem_c := zip_with fadd32 (mem_a (device h)) (mem_b (device h)) |} |}.
  exists (naive_state (device h) 256 (naive_done sch1 n 256)), s2.
  split; [| split; [| split; [| split]]].
  - rewrite step1_run by (assumption || lia).
    unfold gmem_after. now rewrite Hall1, Htake.
  - rewrite Hrun. unfold gmem_after. now rewrite Hall2, Htake.
  - reflexivity.
  - reflexivity.
  - intros i x y Hx Hy. cbn [c].
    rewrite lookup_zip_with, Hx, Hy. reflexivity.
Qed.

(** C8. The claim fails in step 3: with blocks of 512 threads, over a
    whole number of blocks as in the notebook and in any order, a thread
    of index 256 or more stores to [shared_a[tid]], outside the 256
    declared elements; what follows is undefined. *)
Theorem step3_shared_overflow (sch : schedule) (n : Z) (h : host) :
  0 < n < 2 ^ 31 -> n mod 512 = 0 ->
  fair sch 512 (grid_size_for n 512) ->
  n <= Z.of_nat (length (mem_a (device h))) ->
  n <= Z.of_nat (length (mem_b (device h))) ->
  exists t : Z,
    256 <= t < 512 /\ step3 sch n h = Undefined (SharedOutOfBounds shared_a t).
Proof.
  intros Hn Hmod Hfair Ha Hb. unfold step3.
  apply timed_call_overflow; (assumption || lia).
Qed.

(** Step 3 as the notebook runs it, on [N = 1024 * 1024] values; in the
    order of the indices the first store outside is that of thread 256
    of block 0. *)
Corollary step3_of_the_notebook (a0 b0 : list float32) (junk : nat -> float32) :
  Z.of_nat (length a0) = N -> Z.of_nat (length b0) = N ->
  (forall sch, fair sch 512 (grid_size_for N 512) ->
     exists t : Z, 256 <= t < 512 /\
       step3 sch N (initialize a0 b0 junk) = Undefined (SharedOutOfBounds shared_a t)) /\
  step3 (in_order 512 (grid_size_for N 512)) N (initialize a0 b0 junk)
    = Undefined (SharedOutOfBounds shared_a 256).
Proof.
  intros Ha Hb. split.
  - intros sch Hfair. unfold step3. apply timed_call_overflow;
      try assumption; cbn [device initialize mem_a mem_b]; unfold N in *;
      try lia. reflexivity.
  - unfold step3. apply timed_call_overflow_in_order;
      cbn [device initialize mem_a mem_b]; unfold N in *; lia.
Qed.

(** C7 (as amended). The operands are read-only to the timed calls
    that stay within what CUDA defines, the outputs are not.
    [measure_time] leaves [A] and [B] as they were, however it ends.
    The timed calls of step 1 and of step 2, one after the other as the
    notebook runs them, on arrays of [n] values, [n] a positive multiple
    of 256, and in any order of the blocks and of the threads, both
    complete and leave [a] and [b] as they were, on the host and on the
    device; each launch stores the sums [a[i] + b[i]] in [c_gpu], and
    the copy that follows overwrites the caller's [c] with them.
    Whatever the kernel, the sizes and the lengths, a timed call that
    completes has left [a] and [b] as they were and [c] holding what the
    launch left in [c_gpu].  Nothing is said of the timed call of
    step 3, which does not stay within what CUDA defines (C8). *)
Theorem operands_read_only (sch1 sch2 : schedule) (n : Z) (h : host) :
  0 < n < 2 ^ 31 -> n mod 256 = 0 ->
  fair sch1 256 (grid_size_for n 256) ->
  fair sch2 256 (grid_size_for n 256) ->
  Z.of_nat (length (mem_a (device h))) = n ->
  Z.of_nat (length (mem_b (device h))) = n ->
  Z.of_nat (length (mem_c (device h))) = n ->
  Z.of_nat (length (c h)) = n ->
  (forall (env : Timing.Env) (d : string) (w : Timing.World),
     Timing.A (snd (Timing.measure_time env d w)) = Timing.A w /\
     Timing.B (snd (Timing.measure_time env d w)) = Timing.B w) /\
  (exists (h1 h2 : host) (s1 s2 : state),
     step1 sch1 n h = Done h1 s1 /\
     step2 sch2 n h1 = Done h2 s2 /\
     (a h1 = a h /\ b h1 = b h /\
      mem_a (device h1) = mem_a (device h) /\
      mem_b (device h1) = mem_b (device h) /\
      mem_c (device h1) = zip_with fadd32 (mem_a (device h)) (mem_b (device h)) /\
      c h1 = mem_c (device h1)) /\
     (a h2 = a h /\ b h2 = b h /\
      mem_a (device h2) = mem_a (device h) /\
      mem_b (device h2) = mem_b (device h) /\
      mem_c (device h2) = zip_with fadd32 (mem_a (device h)) (mem_b (device h)) /\
      c h2 = mem_c (device h2))) /\
  (forall (k : buffer -> buffer -> buffer -> Z -> kernel) (sch : schedule)
          (n0 bs grid : Z) (h0 h' : host) (s : state),
     k = matrix_add_unoptimized \/ k = matrix_add_shared_memory ->
     timed_call k sch n0 bs grid h0 = Done h' s ->
     a h' = a h0 /\ b h' = b h0 /\
     mem_a (device h') = mem_a (device h0) /\
     mem_b (device h') = mem_b (device h0) /\
     c h' = take (length (c h0)) (mem_c (device h'))).
Proof.
  intros Hn Hmod Hf1 Hf2 Ha Hb Hc Hhost.
  split; [| split].
  - intros env d w. apply TimingFacts.measure_time_keeps_inputs.
  - assert (Hint : n + 256 <= 2 ^ 31).
    { pose proof (Z.div_mod n 256 ltac:(lia)). lia. }
    pose proof (naive_done_Permutation sch1 n 256 ltac:(lia) ltac:(lia) Hf1) as Hp1.
    pose proof (shared_done_Permutation sch2 n 256 ltac:(lia) ltac:(lia) Hmod Hf2) as Hp2.
    set (sums := zip_with fadd32 (mem_a (device h)) (mem_b (device h))).
    assert (Lsums : Z.of_nat (length sums) = n).
    { unfold sums. rewrite length_zip_with. lia. }
    set (h1 := {| a := a h; b := b h; c := sums;
                  device := {| mem_a := mem_a (device h); mem_b := mem_b (device h);
                               mem_c := sums |} |}).
    destruct (step2_run sch2 n h1) as (s2 & Hrun2);
      try (assumption || lia); cbn [h1 device mem_a mem_b mem_c c]; try lia.
    exists h1, h1, (naive_state (device h) 256 (naive_done sch1 n 256)), s2.
    split; [| split; [| split]].
    + rewrite step1_run by (assumption || lia).
      unfold gmem_after. rewrite (c_after_all (device h) _ n Hp1 Ha Hb Hc).
      fold sums. rewrite take_ge by lia. reflexivity.
    + rewrite Hrun2. unfold gmem_after.
      rewrite (c_after_all (device h1) _ n Hp2)
        by (cbn [h1 device mem_a mem_b mem_c]; lia).
      cbn [h1 device mem_a mem_b mem_c a b c].
      fold sums. rewrite take_ge by lia. reflexivity.
    + cbn [h1 a b c device mem_a mem_b mem_c]. repeat split.
    + cbn [h1 a b c device mem_a mem_b mem_c]. repeat split.
  - intros k sch n0 bs grid h0 h' s [-> | ->] H.
    + eapply timed_call_keeps; [apply naive_keeps | exact H].
    + eapply timed_call_keeps; [apply shared_keeps | exact H].
Qed.

(** ** Runs on small arrays *)

Example sizes_of_the_notebook :
  0 < N < 2 ^ 31 /\ N mod 256 = 0 /\ N mod 512 = 0 /\
  grid_size_for N 256 = 4096 /\ grid_size_for N 512 = 2048.
Proof. repeat split; reflexivity. Qed.

Lemma naive_launch_covers_witness :
  let m := {| mem_a := ramp 5 1; mem_b := ramp 5 10; mem_c := repeat S754_nan 5 |} in
  exists s : state,
    launch (matrix_add_unoptimized a_gpu b_gpu c_gpu 5) (backwards 2 3) 2
      (grid_size_for 5 2) m = Done tt s /\
    (forall i : Z, 0 <= i < 5 ->
       exists x y : float32,
         mem_a m !! Z.to_nat i = Some x /\ mem_b m !! Z.to_nat i = Some y /\
         List.filter (writes_c i) (log s) =
           [{| by_block := i / 2; by_thread := i mod 2;
               what := GWrite c_gpu i (fadd32 x y) |}] /\
         mem_c (global s) !! Z.to_nat i = Some (fadd32 x y)) /\
    Forall (within 5) (log s).
Proof.
  apply (naive_launch_covers (backwards 2 3)
           {| mem_a := ramp 5 1; mem_b := ramp 5 10; mem_c := repeat S754_nan 5 |} 5 2);
    [lia | lia | lia | exact (fair_backwards 2 3) | simpl; lia | simpl; lia | simpl; lia].
Defined.

Lemma step1_checks_no_shape_witness :
  let h := initialize (ramp 4 1) (ramp 2 10) no_junk in
  exists (h' : host) (s : state),
    step1 (in_order 256 1) 2 h = Done h' s /\
    forall i : Z, 0 <= i < 2 ->
      exists x y : float32,
        mem_a (device h) !! Z.to_nat i = Some x /\
        mem_b (device h) !! Z.to_nat i = Some y /\
        mem_c (device h') !! Z.to_nat i = Some (fadd32 x y).
Proof.
  apply (step1_checks_no_shape (in_order 256 1) 2
           (initialize (ramp 4 1) (ramp 2 10) no_junk));
    [lia | lia | exact (fair_in_order 256 1) | simpl; lia | simpl; lia | simpl; lia
    | simpl; lia].
Defined.

(** C4, as stated, fails: with [a] of four values and [b] of two, the
    addition over two elements completes, and the addition over four
    reads [b] out of bounds; no shape is checked in either case. *)
Lemma mismatched_lengths_unchecked :
  let h := initialize (ramp 4 1) (ramp 2 10) no_junk in
  length (a h) = 4%nat /\ length (b h) = 2%nat /\
  (exists s : state,
     step1 (in_order 256 1) 2 h =
       Done {| a := a h; b := b h;
               c := [of_Z32 0; of_Z32 11; S754_nan; S754_nan];
               device := {| mem_a := a h; mem_b := b h;
                            mem_c := [of_Z32 0; of_Z32 11; S754_nan; S754_nan] |} |} s) /\
  step1 (in_order 256 1) 4 h = Undefined (GlobalOutOfBounds b_gpu 2).
Proof.
  repeat split; try (vm_compute; reflexivity).
  eexists. vm_compute. reflexivity.
Qed.

Lemma kernels_agree_witness :
  let h := initialize (ramp 256 1) (ramp 256 10) no_junk in
  exists (h' : host) (s1 s2 : state),
    step1 (in_order 256 1) 256 h = Done h' s1 /\
    step2 (backwards 256 1) 256 h = Done h' s2 /\
    mem_c (device h') = zip_with fadd32 (mem_a (device h)) (mem_b (device h)) /\
    c h' = mem_c (device h') /\
    forall (i : nat) (x y : float32),
      mem_a (device h) !! i = Some x -> mem_b (device h) !! i = Some y ->
      c h' !! i = Some (fadd32 x y).
Proof.
  apply (kernels_agree (in_order 256 1) (backwards 256 1) 256
           (initialize (ramp 256 1) (ramp 256 10) no_junk));
    [lia | reflexivity | exact (fair_in_order 256 1) | exact (fair_backwards 256 1)
    | reflexivity | reflexivity | reflexivity | reflexivity].
Defined.

(** When the last block is not full, only part of it reaches
    [__syncthreads()], which sits under the guard [gid < N]: the
    hypothesis that [n] is a multiple of the block size cannot be
    dropped. *)
Example step2_partial_block :
  step2 (in_order 256 1) 5 (initialize (ramp 5 1) (ramp 5 10) no_junk)
  = Undefined (BarrierDivergence 0).
Proof. vm_compute. reflexivity. Qed.

Lemma step3_shared_overflow_witness :
  exists t : Z,
    256 <= t < 512 /\
    step3 (backwards 512 1) 512 (initialize (ramp 512 1) (ramp 512 10) no_junk)
    = Undefined (SharedOutOfBounds shared_a t).
Proof.
  apply (step3_shared_overflow (backwards 512 1) 512
           (initialize (ramp 512 1) (ramp 512 10) no_junk));
    [lia | reflexivity | exact (fair_backwards 512 1)
    | vm_compute; discriminate | vm_compute; discriminate].
Defined.

(** Run backwards, the first thread of step 3 is thread 511, and its
    first store is outside [shared_a]. *)
Example step3_backwards :
  step3 (backwards 512 1) 512 (initialize (ramp 512 1) (ramp 512 10) no_junk)
  = Undefined (SharedOutOfBounds shared_a 511).
Proof. vm_compute. reflexivity. Qed.

Lemma operands_read_only_witness :
  let h := initialize (ramp 256 1) (ramp 256 10) no_junk in
  exists (h1 h2 : host) (s1 s2 : state),
    step1 (in_order 256 1) 256 h = Done h1 s1 /\
    step2 (backwards 256 1) 256 h1 = Done h2 s2 /\
    (a h1 = a h /\ b h1 = b h /\
     mem_a (device h1) = mem_a (device h) /\
     mem_b (device h1) = mem_b (device h) /\
     mem_c (device h1) = zip_with fadd32 (mem_a (device h)) (mem_b (device h)) /\
     c h1 = mem_c (device h1)) /\
    (a h2 = a h /\ b h2 = b h /\
     mem_a (device h2) = mem_a (device h) /\
     mem_b (device h2) = mem_b (device h) /\
     mem_c (device h2) = zip_with fadd32 (mem_a (device h)) (mem_b (device h)) /\
     c h2 = mem_c (device h2)).
Proof.
  apply (operands_read_only (in_order 256 1) (backwards 256 1) 256
           (initialize (ramp 256 1) (ramp 256 10) no_junk));
    [lia | reflexivity | exact (fair_in_order 256 1) | exact (fair_backwards 256 1)
    | reflexivity | reflexivity | reflexivity | reflexivity].
Defined.

(** C7, as stated, fails for the output arrays: the timed call of step 1
    overwrites [c] and [c_gpu]. *)
Lemma step1_overwrites_c :
  let h := initialize (ramp 2 1) (ramp 2 10) no_junk in
  exists (h' : host) (s : state),
    step1 (in_order 256 1) 2 h = Done h' s /\
    c h = [S754_zero false; S754_zero false] /\
    c h' = [S754_zero false; of_Z32 11] /\
    c h' <> c h /\
    mem_c (device h') <> mem_c (device h).
Proof.
  eexists _, _. split; [vm_compute; reflexivity |].
  repeat split; try (vm_compute; reflexivity); vm_compute; discriminate.
Qed.

(** ** The grid *)

(** X10. [grid_size = (N + block_size - 1) // block_size] is the least
    number of blocks of [block_size] threads that covers [N] elements;
    it is at least 1 exactly when there is an element. *)
Theorem grid_size_is_least_cover (n bs : Z) :
  0 < bs ->
  n <= grid_size_for n bs * bs /\
  (forall g : Z, n <= g * bs -> grid_size_for n bs <= g) /\
  (0 < n <-> 1 <= grid_size_for n bs).
Proof.
  intros Hbs. pose proof (grid_covers n bs Hbs) as Hg.
  split; [lia |]. split.
  - intros g Hn. nia.
  - split; intros H; nia.
Qed.

(** With a block size that divides [2 ^ 31], as 256 and 512 do, the
    global index of no thread of the grid leaves the range of an [int]. *)
Lemma grid_fits_int (n bs : Z) :
  0 < bs -> 2 ^ 31 mod bs = 0 -> n < 2 ^ 31 -> grid_size_for n bs * bs <= 2 ^ 31.
Proof.
  intros Hbs Hmod Hn. pose proof (grid_covers n bs Hbs) as Hg.
  pose proof (Z.div_mod (2 ^ 31) bs ltac:(lia)) as Hdm.
  rewrite Hmod, Z.add_0_r in Hdm.
  set (q := 2 ^ 31 / bs) in *. set (g := grid_size_for n bs) in *.
  assert (Hlt : g * bs < bs * (q + 1)) by lia.
  assert (Hgq : g <= q) by nia.
  rewrite Hdm. nia.
Qed.

(** The launch of the naive kernel, in any order, when the grid fits the
    range of an [int]. *)
Lemma naive_launch_fits (sch : schedule) (m : gmem) (n bs : Z) :
  0 < n < 2 ^ 31 -> 1 <= bs <= 1024 -> grid_size_for n bs * bs <= 2 ^ 31 ->
  fair sch bs (grid_size_for n bs) ->
  n <= Z.of_nat (length (mem_a m)) ->
  n <= Z.of_nat (length (mem_b m)) ->
  n <= Z.of_nat (length (mem_c m)) ->
  launch (matrix_add_unoptimized a_gpu b_gpu c_gpu n) sch bs (grid_size_for n bs) m
  = Done tt (naive_state m bs (naive_done sch n bs)).
Proof.
  intros Hn Hbs Hint Hfair Ha Hb Hc.
  pose proof (grid_covers n bs ltac:(lia)) as Hg.
  destruct Hfair as (Hblocks & Hthreads & _).
  unfold launch. rewrite launch_valid by nia.
  pose proof (naive_blocks m n bs ltac:(lia) Ha Hb Hc sch (grid_size_for n bs)
                (block_order sch) []) as H.
  unfold naive_state at 1 in H. cbn [flat_map] in H. rewrite gmem_after_nil in H.
  rewrite H; auto using order_bounds; lia.
Qed.

(** Step 1 for every length an [int] holds. *)
Lemma step1_run_fits (sch : schedule) (n : Z) (h : host) :
  0 < n < 2 ^ 31 ->
  fair sch 256 (grid_size_for n 256) ->
  n <= Z.of_nat (length (mem_a (device h))) ->
  n <= Z.of_nat (length (mem_b (device h))) ->
  n <= Z.of_nat (length (mem_c (device h))) ->
  (length (c h) <= length (mem_c (device h)))%nat ->
  step1 sch n h =
    Done {| a := a h; b := b h;
            c := take (length (c h)) (c_after (device h) (naive_done sch n 256));
            device := gmem_after (device h) (naive_done sch n 256) |}
         (naive_state (device h) 256 (naive_done sch n 256)).
Proof.
  intros Hn Hfair Ha Hb Hc Hhost. unfold step1, timed_call.
  rewrite np_int32_ok by lia.
  rewrite naive_launch_fits
    by first [assumption | lia | apply grid_fits_int; [lia | reflexivity | lia]].
  cbn [global naive_state gmem_after mem_c].
  rewrite memcpy_dtoh_ok by (rewrite c_after_length; lia).
  reflexivity.
Qed.

(** ** The setup of step 1 *)

Lemma lookup_map_seq {T} (f : nat -> T) (start len i : nat) :
  (i < len)%nat -> map f (seq start len) !! i = Some (f (start + i)%nat).
Proof.
  revert start i. induction len as [| len IH]; intros start i Hi; [lia |].
  destruct i as [| i]; cbn.
  - now rewrite Nat.add_0_r.
  - rewrite IH by lia. f_equal. f_equal. lia.
Qed.

Lemma mem_alloc_length (l : list float32) (junk : nat -> float32) :
  length (mem_alloc l junk) = length l.
Proof. unfold mem_alloc. now rewrite length_map, length_seq. Qed.

Lemma zeros_like_length (l : list float32) : length (zeros_like l) = length l.
Proof. apply repeat_length. Qed.

Lemma initialize_lengths (a0 b0 : list float32) (junk : nat -> float32) :
  let h := initialize a0 b0 junk in
  length (mem_a (device h)) = length a0 /\
  length (mem_b (device h)) = length b0 /\
  length (mem_c (device h)) = length a0 /\
  length (c h) = length a0.
Proof.
  cbn [initialize device mem_a mem_b mem_c c].
  now rewrite mem_alloc_length, zeros_like_length.
Qed.

(** X11. Step 1 from the setup of the notebook, on two arrays of the
    same length, any length an [int] holds: whatever the device memory
    held when [c_gpu] was allocated and in whatever order the blocks and
    the threads run, the timed call completes and leaves the
    element-wise sums in [c] and in [c_gpu]; [a] and [b] are as they
    were. *)
Theorem step1_adds_the_arrays (sch : schedule) (a0 b0 : list float32)
    (junk : nat -> float32) :
  let n := Z.of_nat (length a0) in
  length b0 = length a0 -> 0 < n < 2 ^ 31 ->
  fair sch 256 (grid_size_for n 256) ->
  exists s : state,
    step1 sch n (initialize a0 b0 junk) =
      Done {| a := a0; b := b0; c := zip_with fadd32 a0 b0;
              device := {| mem_a := a0; mem_b := b0;
                           mem_c := zip_with fadd32 a0 b0 |} |} s.
Proof.
  intros n Hlen Hn Hfair.
  destruct (initialize_lengths a0 b0 junk) as (La & Lb & Lc & Lh).
  pose proof (grid_fits_int n 256 ltac:(lia) eq_refl ltac:(lia)) as Hint.
  pose proof (grid_covers n 256 ltac:(lia)) as Hg.
  assert (Hperm : naive_done sch n 256 ≡ₚ seqZ 0 n).
  { apply naive_done_Permutation; (assumption || lia). }
  eexists. rewrite step1_run_fits by (assumption || lia).
  unfold gmem_after. rewrite (c_after_all _ _ n Hperm) by lia.
  rewrite take_ge by (rewrite length_zip_with; lia).
  cbn [initialize device mem_a mem_b mem_c a b c]. reflexivity.
Qed.

(** X12. Step 1 with a length [n] below that of the arrays: the copy
    back fills the whole of [c]; its first [n] elements are the sums,
    and each element from [n] on is what the device memory held when
    [c_gpu] was allocated, not the zero that [np.zeros_like] had put
    there. *)
Theorem step1_leaves_junk_beyond_n (sch : schedule) (n : Z) (a0 b0 : list float32)
    (junk : nat -> float32) :
  0 < n < 2 ^ 31 ->
  n <= Z.of_nat (length a0) -> n <= Z.of_nat (length b0) ->
  fair sch 256 (grid_size_for n 256) ->
  exists (h' : host) (s : state),
    step1 sch n (initialize a0 b0 junk) = Done h' s /\
    length (c h') = length a0 /\
    (forall (i : nat) (x y : float32),
       Z.of_nat i < n -> a0 !! i = Some x -> b0 !! i = Some y ->
       c h' !! i = Some (fadd32 x y)) /\
    (forall i : nat,
       n <= Z.of_nat i -> (i < length a0)%nat -> c h' !! i = Some (junk i)).
Proof.
  intros Hn Ha Hb Hfair.
  destruct (initialize_lengths a0 b0 junk) as (La & Lb & Lc & Lh).
  pose proof (naive_done_Permutation sch n 256 ltac:(lia) ltac:(lia) Hfair) as Hperm.
  assert (Hpos : Forall (fun g => 0 <= g) (naive_done sch n 256)).
  { rewrite Hperm. apply Forall_seqZ. intros; lia. }
  eexists _, _. split; [apply step1_run_fits; assumption || lia |].
  cbn [c]. rewrite take_ge by (rewrite c_after_length; lia).
  repeat split.
  - now rewrite c_after_length.
  - intros i x y Hi Hx Hy. rewrite <- (Nat2Z.id i).
    apply c_after_done; rewrite ?Nat2Z.id; try assumption; [| lia].
    apply (Permutation_in _ (symmetry Hperm)).
    apply list_elem_of_In, elem_of_seqZ. lia.
  - intros i Hi Hlt. rewrite c_after_other; [| assumption |].
    + cbn [initialize device mem_c]. unfold mem_alloc.
      rewrite lookup_map_seq by (rewrite zeros_like_length; lia). reflexivity.
    + rewrite <- list_elem_of_In, Hperm, elem_of_seqZ. lia.
Qed.

(** X13. The naive kernel has no race: in any two orders of the blocks
    and of the threads, a launch leaves the same device memory, and the
    same accesses were made, in another order. *)
Theorem naive_launch_any_order (sch1 sch2 : schedule) (m : gmem) (n bs : Z) :
  0 < n -> 1 <= bs <= 1024 -> n + bs <= 2 ^ 31 ->
  fair sch1 bs (grid_size_for n bs) ->
  fair sch2 bs (grid_size_for n bs) ->
  n <= Z.of_nat (length (mem_a m)) ->
  n <= Z.of_nat (length (mem_b m)) ->
  n <= Z.of_nat (length (mem_c m)) ->
  exists s1 s2 : state,
    launch (matrix_add_unoptimized a_gpu b_gpu c_gpu n) sch1 bs (grid_size_for n bs) m
      = Done tt s1 /\
    launch (matrix_add_unoptimized a_gpu b_gpu c_gpu n) sch2 bs (grid_size_for n bs) m
      = Done tt s2 /\
    global s1 = global s2 /\
    log s1 ≡ₚ log s2.
Proof.
  intros Hn Hbs Hint Hf1 Hf2 Ha Hb Hc.
  pose proof (naive_done_Permutation sch1 n bs ltac:(lia) ltac:(lia) Hf1) as Hp1.
  pose proof (naive_done_Permutation sch2 n bs ltac:(lia) ltac:(lia) Hf2) as Hp2.
  eexists _, _. split; [now apply naive_launch |]. split; [now apply naive_launch |].
  cbn [global log naive_state]. split.
  - unfold gmem_after. f_equal.
    rewrite (c_after_Permutation m _ n Hp1), (c_after_Permutation m _ n Hp2) by assumption.
    reflexivity.
  - apply Permutation_flat_map. now rewrite Hp1, Hp2.
Qed.

(** X14. Steps 1 and 2 one after the other, as the notebook runs them,
    on arrays of a whole number of blocks: step 2 starts from the device
    memory step 1 left, completes, and changes nothing: [c] and [c_gpu]
    hold the sums after step 1 and after step 2. *)
Theorem step2_after_step1 (sch1 sch2 : schedule) (a0 b0 : list float32)
    (junk : nat -> float32) :
  let n := Z.of_nat (length a0) in
  length b0 = length a0 -> 0 < n < 2 ^ 31 -> n mod 256 = 0 ->
  fair sch1 256 (grid_size_for n 256) ->
  fair sch2 256 (grid_size_for n 256) ->
  exists (h1 : host) (s1 s2 : state),
    step1 sch1 n (initialize a0 b0 junk) = Done h1 s1 /\
    step2 sch2 n h1 = Done h1 s2 /\
    c h1 = zip_with fadd32 a0 b0 /\
    mem_c (device h1) = zip_with fadd32 a0 b0.
Proof.
  intros n Hlen Hn Hmod Hf1 Hf2.
  destruct (initialize_lengths a0 b0 junk) as (La & Lb & Lc & Lh).
  pose proof (naive_done_Permutation sch1 n 256 ltac:(lia) ltac:(lia) Hf1) as Hp1.
  pose proof (shared_done_Permutation sch2 n 256 ltac:(lia) ltac:(lia) Hmod Hf2) as Hp2.
  set (sums := zip_with fadd32 a0 b0).
  set (h1 := {| a := a0; b := b0; c := sums;
                device := {| mem_a := a0; mem_b := b0; mem_c := sums |} |}).
  assert (Lsums : length sums = length a0).
  { unfold sums. rewrite length_zip_with. lia. }
  destruct (step2_run sch2 n h1) as (s2 & Hrun2);
    try (assumption || lia); cbn [h1 device mem_a mem_b mem_c c]; try lia.
  exists h1, (naive_state (device (initialize a0 b0 junk)) 256 (naive_done sch1 n 256)), s2.
  split; [| split; [| split; reflexivity]].
  - rewrite step1_run_fits by (assumption || lia).
    unfold gmem_after. rewrite (c_after_all _ _ n Hp1) by lia.
    cbn [initialize device mem_a mem_b mem_c a b c].
    rewrite take_ge by (rewrite length_zip_with, zeros_like_length; lia).
    reflexivity.
  - rewrite Hrun2. unfold gmem_after.
    rewrite (c_after_all (device h1) _ n Hp2) by (cbn [h1 device mem_a mem_b mem_c]; lia).
    cbn [h1 device mem_a mem_b mem_c a b c].
    fold sums. rewrite take_ge by lia. reflexivity.
Qed.

(** X15. With nothing to add, [N] zero or negative, the grid size the
    three steps compute is not positive: the launch is refused, no
    thread runs and nothing is copied back. *)
Theorem no_launch_without_elements (sch : schedule) (n : Z) (h : host) :
  - 2 ^ 31 <= n <= 0 ->
  grid_size_for n 256 <= 0 /\ grid_size_for n 512 <= 0 /\
  step1 sch n h = Fault InvalidValue /\
  step2 sch n h = Fault InvalidValue /\
  step3 sch n h = Fault InvalidValue.
Proof.
  intros Hn.
  assert (Hgrid : forall bs, 0 < bs -> grid_size_for n bs <= 0).
  { intros bs Hbs. pose proof (grid_covers n bs Hbs). nia. }
  assert (Hcall : forall k bs, 0 < bs ->
            timed_call k sch n bs (grid_size_for n bs) h = Fault InvalidValue).
  { intros k bs Hbs. unfold timed_call, launch.
    destruct (np_int32 n); [| reflexivity].
    specialize (Hgrid bs Hbs).
    destruct (Z.leb_spec 1 (grid_size_for n bs)); [lia |].
    now rewrite !andb_false_r. }
  unfold step1, step2, step3.
  repeat split; try (apply Hgrid; lia); apply Hcall; lia.
Qed.

(** ** A last block that is not full *)

(** A thread of the shared-memory kernel beyond the end of the arrays
    does nothing and does not come to the barrier. *)
Lemma shared_thread_out (n bs bid t : Z) (s : state) :
  0 <= n -> n <= bid * bs + t < 2 ^ 31 ->
  matrix_add_shared_memory a_gpu b_gpu c_gpu n
    {| blockIdx := bid; blockDim := bs; threadIdx := t |} s
  = Done Returned s.
Proof.
  intros Hn Hg.
  unfold matrix_add_shared_memory, bind, thread_idx, global_id, returned, ret.
  cbn [blockIdx blockDim threadIdx].
  rewrite (to_int_small (bid * bs + t)) by lia.
  destruct (Z.ltb_spec (bid * bs + t) n); [lia | reflexivity].
Qed.

Lemma staging_cons (n bs bid t : Z) (ts : list Z) :
  staging n bs bid (t :: ts) =
    if Z.ltb (bid * bs + t) n then t :: staging n bs bid ts else staging n bs bid ts.
Proof. reflexivity. Qed.

(** The threads of one block up to the barrier, when some of them may be
    beyond the end of the arrays. *)
Lemma shared_stage_some (m G : gmem) (n bs bid : Z) (ts before : list Z)
    (lg : list entry) :
  0 <= n <= 2 ^ 31 ->
  n <= Z.of_nat (length (mem_a m)) -> n <= Z.of_nat (length (mem_b m)) ->
  mem_a G = mem_a m -> mem_b G = mem_b m ->
  Forall (fun t => 0 <= t /\ 0 <= bid * bs + t < 2 ^ 31 /\
                   (bid * bs + t < n -> t < shared_size)) ts ->
  run_threads (matrix_add_shared_memory a_gpu b_gpu c_gpu n) bid bs ts
    {| global := G; shared := smem_staged m (bid * bs) before; log := lg |}
  = Done (stopped n bs bid ts)
      {| global := G;
         shared := smem_staged m (bid * bs) (before ++ staging n bs bid ts);
         log := lg ++ flat_map (staging_accesses m bs bid) (staging n bs bid ts) |}.
Proof.
  intros Hn Ha Hb HGa HGb Hts. revert before lg.
  induction Hts as [| t ts (Ht & Hg & Hfit) _ IH]; intros before lg.
  - cbn. now rewrite !app_nil_r.
  - cbn [run_threads stopped map]. rewrite staging_cons.
    destruct (Z.ltb_spec (bid * bs + t) n) as [Hin | Hout].
    + destruct (lookup_in_range (mem_a m) n (bid * bs + t) Ha ltac:(lia)) as [x Hx].
      destruct (lookup_in_range (mem_b m) n (bid * bs + t) Hb ltac:(lia)) as [y Hy].
      rewrite (shared_thread_stage m G n bs bid t before x y lg)
        by (assumption || lia).
      rewrite IH. fold (stopped n bs bid ts). cbn [flat_map].
      rewrite <- !app_assoc. reflexivity.
    + rewrite shared_thread_out by lia. rewrite IH. reflexivity.
Qed.

Lemma stopped_some_wait (n bs bid t : Z) (ts : list Z) :
  In t ts -> bid * bs + t < n ->
  forallb (fun r : Z * reached => is_returned (snd r)) (stopped n bs bid ts) = false.
Proof.
  intros Hin Hlt. apply not_true_is_false. intros Hall.
  rewrite forallb_forall in Hall.
  specialize (Hall _ (in_map _ _ _ Hin)). cbn [snd] in Hall.
  destruct (Z.ltb_spec (bid * bs + t) n); [discriminate | lia].
Qed.

Lemma stopped_some_return (n bs bid t : Z) (ts : list Z) :
  In t ts -> n <= bid * bs + t ->
  forallb (fun r : Z * reached => negb (is_returned (snd r))) (stopped n bs bid ts) = false.
Proof.
  intros Hin Hge. apply not_true_is_false. intros Hall.
  rewrite forallb_forall in Hall.
  specialize (Hall _ (in_map _ _ _ Hin)). cbn [snd] in Hall.
  destruct (Z.ltb_spec (bid * bs + t) n); [lia | discriminate].
Qed.

(** A block of which only a part has elements to add, all of them
    within the shared arrays: some of its threads wait at the barrier
    and the others have left the kernel. *)
Lemma shared_block_diverges (sch : schedule) (m : gmem) (n bs bid : Z) (s : state) :
  0 <= n <= 2 ^ 31 -> 1 <= bs -> 0 <= bid -> (bid + 1) * bs <= 2 ^ 31 ->
  bid * bs < n < (bid + 1) * bs -> n <= bid * bs + shared_size ->
  n <= Z.of_nat (length (mem_a m)) -> n <= Z.of_nat (length (mem_b m)) ->
  mem_a (global s) = mem_a m -> mem_b (global s) = mem_b m ->
  thread_order sch bid ≡ₚ seqZ 0 bs ->
  run_block (matrix_add_shared_memory a_gpu b_gpu c_gpu n) sch bs bid s
  = Undefined (BarrierDivergence bid).
Proof.
  intros Hn Hbs Hbid Hint Hpart Hfit Ha Hb HGa HGb Horder.
  unfold run_block. destruct s as [G sh lg]. unfold with_shared.
  cbn [global log] in *.
  change fresh_shared with (smem_staged m (bid * bs) []).
  pose proof (order_bounds _ _ Horder) as Bt.
  assert (Hts : Forall (fun t => 0 <= t /\ 0 <= bid * bs + t < 2 ^ 31 /\
                                 (bid * bs + t < n -> t < shared_size))
                        (thread_order sch bid)).
  { eapply List.Forall_impl; [| exact Bt]. cbn. intros t Ht. nia. }
  rewrite (shared_stage_some m G n bs bid _ [] lg) by assumption.
  assert (Hfirst : In 0 (thread_order sch bid)).
  { apply (Permutation_in _ (symmetry Horder)).
    apply list_elem_of_In, elem_of_seqZ. lia. }
  assert (Hlast : In (bs - 1) (thread_order sch bid)).
  { apply (Permutation_in _ (symmetry Horder)).
    apply list_elem_of_In, elem_of_seqZ. lia. }
  rewrite (stopped_some_wait n bs bid 0) by (assumption || lia).
  rewrite (stopped_some_return n bs bid (bs - 1)) by (assumption || lia).
  reflexivity.
Qed.

(** The blocks of a grid whose last block, [last], is only partly
    filled: the blocks before it complete, and in that block only a
    part of the threads comes to the barrier. *)
Lemma shared_blocks_diverge (sch : schedule) (m : gmem) (n bs last : Z)
    (blocks : list Z) :
  0 <= n -> 1 <= bs <= shared_size -> 0 <= last -> (last + 1) * bs <= 2 ^ 31 ->
  last * bs < n < (last + 1) * bs ->
  n <= Z.of_nat (length (mem_a m)) -> n <= Z.of_nat (length (mem_b m)) ->
  n <= Z.of_nat (length (mem_c m)) ->
  Forall (fun b => 0 <= b <= last) blocks -> In last blocks ->
  (forall b, thread_order sch b ≡ₚ seqZ 0 bs) ->
  (forall b, resume_order sch b ≡ₚ seqZ 0 bs) ->
  forall (done : list Z) (s : state),
    global s = gmem_after m done ->
    run_blocks (matrix_add_shared_memory a_gpu b_gpu c_gpu n) sch bs blocks s
    = Undefined (BarrierDivergence last).
Proof.
  intros Hn Hbs Hlast Hint Hpart Ha Hb Hc Hblocks Hin Hthreads Hresume.
  induction Hblocks as [| b blocks Hb0 _ IH]; intros done s Hs; [contradiction |].
  cbn [run_blocks].
  destruct (Z.eq_dec b last) as [-> | Hne].
  - rewrite (shared_block_diverges sch m n bs last);
      try (reflexivity || assumption || lia || apply Hthreads);
      try (rewrite Hs; reflexivity);
      unfold shared_size in *; nia.
  - destruct Hin as [? | Hin]; [contradiction |].
    destruct s as [G sh lg]. cbn [global] in Hs. subst G.
    rewrite (shared_block m n bs ltac:(lia) Ha Hb Hc sch b done sh lg)
      by (auto; nia).
    eapply IH; [exact Hin | reflexivity].
Qed.

(** In any order, a launch of the shared-memory kernel over a length
    that is not a whole number of blocks comes to a barrier that only
    a part of the last block reaches. *)
Lemma shared_launch_diverges (sch : schedule) (m : gmem) (n bs : Z) :
  0 < n < 2 ^ 31 -> grid_size_for n bs * bs <= 2 ^ 31 ->
  1 <= bs <= shared_size -> n mod bs <> 0 ->
  fair sch bs (grid_size_for n bs) ->
  n <= Z.of_nat (length (mem_a m)) ->
  n <= Z.of_nat (length (mem_b m)) ->
  n <= Z.of_nat (length (mem_c m)) ->
  launch (matrix_add_shared_memory a_gpu b_gpu c_gpu n) sch bs (grid_size_for n bs) m
  = Undefined (BarrierDivergence (n / bs)).
Proof.
  intros Hn Hint Hbs Hmod (Hblocks & Hthreads & Hresume) Ha Hb Hc.
  pose proof (grid_covers n bs ltac:(lia)) as Hg.
  pose proof (Z.div_mod n bs ltac:(lia)) as Hdm.
  pose proof (Z.mod_pos_bound n bs ltac:(lia)) as Hmb.
  assert (Hgrid : grid_size_for n bs = n / bs + 1) by nia.
  assert (Hq : 0 <= n / bs) by (apply Z.div_pos; lia).
  assert (Hall : Forall (fun b => 0 <= b <= n / bs) (block_order sch)).
  { eapply List.Forall_impl; [| exact (order_bounds _ _ Hblocks)].
    cbn. intros b Hb0. lia. }
  assert (Hin : In (n / bs) (block_order sch)).
  { apply (Permutation_in _ (symmetry Hblocks)).
    apply list_elem_of_In, elem_of_seqZ. lia. }
  unfold launch. rewrite launch_valid by (unfold shared_size in *; nia).
  apply (shared_blocks_diverge sch m n bs (n / bs) (block_order sch)) with (done := []);
    try (assumption || nia).
  cbn [global]. now rewrite gmem_after_nil.
Qed.

(** X16. Step 2 over a length that is not a multiple of 256 leaves what
    CUDA defines: the guard [gid < N] lets only a part of the last
    block, block [N / 256], come to [__syncthreads()], while the other
    threads of that block return; this in whatever order the blocks and
    the threads run, every block before that one having completed.
    CUDA defines a barrier under a condition only when the condition is
    the same for the whole block, so the result of the launch, and of
    the copy after it, is not determined by the program.  The [N] of the
    notebook is a multiple of 256. *)
Theorem step2_partial_block_diverges (sch : schedule) (n : Z) (h : host) :
  0 < n < 2 ^ 31 -> n mod 256 <> 0 ->
  fair sch 256 (grid_size_for n 256) ->
  n <= Z.of_nat (length (mem_a (device h))) ->
  n <= Z.of_nat (length (mem_b (device h))) ->
  n <= Z.of_nat (length (mem_c (device h))) ->
  step2 sch n h = Undefined (BarrierDivergence (n / 256)).
Proof.
  intros Hn Hmod Hfair Ha Hb Hc. unfold step2, timed_call.
  rewrite np_int32_ok by lia.
  rewrite shared_launch_diverges; try (assumption || reflexivity || lia).
  - apply grid_fits_int; [lia | reflexivity | lia].
  - unfold shared_size. lia.
Qed.

(** ** Blocks larger than the shared arrays, whatever the length *)

Lemma first_such (p : Z -> bool) (l : list Z) :
  (exists t, In t l /\ p t = true) ->
  exists pre t post,
    l = pre ++ t :: post /\ Forall (fun t' => p t' = false) pre /\ p t = true.
Proof.
  induction l as [| t0 l IH]; intros (t & Hin & Ht); [contradiction |].
  destruct (p t0) eqn:Hp0.
  - exists [], t0, l. repeat split; auto.
  - destruct Hin as [-> | Hin]; [congruence |].
    destruct IH as (pre & t1 & post & -> & Hpre & Ht1); [eauto |].
    exists (t0 :: pre), t1, post. repeat split; auto.
Qed.

(** A block in which the threads [pre] either fit the shared arrays or
    have no element, and the next thread, [t], has an element and does
    not fit: the block comes to the store of [t], outside
    [shared_a]. *)
Lemma shared_block_overflows (sch : schedule) (m : gmem) (n bs bid t : Z)
    (pre post : list Z) (s : state) :
  thread_order sch bid = pre ++ t :: post ->
  Forall (fun t' => 0 <= t' /\ 0 <= bid * bs + t' < 2 ^ 31 /\
                    (bid * bs + t' < n -> t' < shared_size)) pre ->
  shared_size <= t < 2 ^ 31 -> 0 <= bid * bs + t < n -> n < 2 ^ 31 ->
  n <= Z.of_nat (length (mem_a m)) -> n <= Z.of_nat (length (mem_b m)) ->
  mem_a (global s) = mem_a m -> mem_b (global s) = mem_b m ->
  run_block (matrix_add_shared_memory a_gpu b_gpu c_gpu n) sch bs bid s
  = Undefined (SharedOutOfBounds shared_a t).
Proof.
  intros Horder Hpre Ht Hg Hint Ha Hb HGa HGb. unfold run_block.
  rewrite Horder, run_threads_app.
  destruct s as [G sh lg]. unfold with_shared. cbn [global log] in *.
  change fresh_shared with (smem_staged m (bid * bs) []).
  rewrite (shared_stage_some m G n bs bid pre [] lg) by (assumption || lia).
  cbn [run_threads].
  destruct (lookup_in_range (mem_a m) n (bid * bs + t) Ha ltac:(lia)) as [x Hx].
  rewrite (shared_thread_overflow n bs bid t _ x); try (reflexivity || lia).
  - cbn [global]. now rewrite HGa.
  - cbn [shared smem_staged sh_a]. apply staged_length.
Qed.

(** In any order and for any length, a launch of the shared-memory
    kernel with blocks larger than its arrays leaves what CUDA defines:
    the first block to run comes to a store outside [shared_a] or, when
    it is a last block with at most [shared_size] elements, to a barrier
    that only a part of it reaches. *)
Lemma shared_launch_oversized (sch : schedule) (m : gmem) (n bs : Z) :
  shared_size < bs <= 1024 -> 0 < n < 2 ^ 31 -> grid_size_for n bs * bs <= 2 ^ 31 ->
  fair sch bs (grid_size_for n bs) ->
  n <= Z.of_nat (length (mem_a m)) -> n <= Z.of_nat (length (mem_b m)) ->
  exists u : undefined,
    launch (matrix_add_shared_memory a_gpu b_gpu c_gpu n) sch bs (grid_size_for n bs) m
      = Undefined u /\
    ((exists t : Z, shared_size <= t < bs /\ u = SharedOutOfBounds shared_a t) \/
     (exists b : Z, b * bs < n <= b * bs + shared_size /\ u = BarrierDivergence b)).
Proof.
  intros Hbs Hn Hint (Hblocks & Hthreads & _) Ha Hb.
  assert (Hsz : shared_size = 256) by reflexivity.
  pose proof (grid_covers n bs ltac:(lia)) as Hg.
  assert (Hg1 : 1 <= grid_size_for n bs) by nia.
  destruct (order_nonempty _ _ Hblocks Hg1) as (b0 & rest & Hb0).
  assert (Bb : 0 <= b0 < grid_size_for n bs).
  { pose proof (order_bounds _ _ Hblocks) as Bb. rewrite Hb0 in Bb.
    now inversion Bb. }
  pose proof (order_bounds _ _ (Hthreads b0)) as Bt.
  unfold launch. rewrite launch_valid by nia.
  rewrite Hb0. cbn [run_blocks].
  destruct (Z.lt_ge_cases (b0 * bs + shared_size) n) as [Hover | Hfit].
  - destruct (first_such
                (fun t => Z.leb shared_size t && Z.ltb (b0 * bs + t) n)
                (thread_order sch b0))
      as (pre & t & post & Horder & Hpre & Ht).
    { exists shared_size. split.
      - apply (Permutation_in _ (symmetry (Hthreads b0))).
        apply list_elem_of_In, elem_of_seqZ. lia.
      - apply andb_true_intro. split; [apply Z.leb_le | apply Z.ltb_lt]; lia. }
    apply andb_prop in Ht as [Ht1 Ht2].
    apply Z.leb_le in Ht1. apply Z.ltb_lt in Ht2.
    rewrite Horder in Bt. apply Forall_app in Bt as [Bpre Bt].
    inversion Bt as [| ? ? Bt0 _]; subst.
    rewrite (shared_block_overflows sch m n bs b0 t pre post);
      try (assumption || reflexivity || nia).
    + eexists. split; [reflexivity |]. left. exists t. split; [lia | reflexivity].
    + rewrite List.Forall_forall in Bpre, Hpre |- *. intros t' Hin.
      specialize (Bpre t' Hin). specialize (Hpre t' Hin). cbn in Hpre.
      apply andb_false_iff in Hpre.
      destruct Hpre as [Hp | Hp];
        [apply Z.leb_gt in Hp | apply Z.ltb_ge in Hp]; repeat split; nia.
  - rewrite (shared_block_diverges sch m n bs b0);
      try (assumption || reflexivity || nia); [| apply Hthreads].
    eexists. split; [reflexivity |]. right. exists b0. split; [nia | reflexivity].
Qed.

(** X17. The violation of step 3 does not depend on the length being
    a whole number of blocks: with blocks of 512 threads, in any order
    and for every [N] an [int] holds, the first block to run leaves what
    CUDA defines.  A thread of that block with [tid] from 256 to 511
    stores to [shared_a[tid]], outside the 256 declared elements; or,
    when that block is a last block with at most 256 elements, so that
    no such thread has an element, only a part of it comes to
    [__syncthreads()]. *)
Theorem step3_undefined_for_every_length (sch : schedule) (n : Z) (h : host) :
  0 < n < 2 ^ 31 ->
  fair sch 512 (grid_size_for n 512) ->
  n <= Z.of_nat (length (mem_a (device h))) ->
  n <= Z.of_nat (length (mem_b (device h))) ->
  exists u : undefined,
    step3 sch n h = Undefined u /\
    ((exists t : Z, 256 <= t < 512 /\ u = SharedOutOfBounds shared_a t) \/
     (exists b : Z, b * 512 < n <= b * 512 + 256 /\ u = BarrierDivergence b)).
Proof.
  intros Hn Hfair Ha Hb.
  destruct (shared_launch_oversized sch (device h) n 512) as (u & Hrun & Hu);
    try (assumption || unfold shared_size; lia).
  { apply grid_fits_int; [lia | reflexivity | lia]. }
  exists u. split; [| exact Hu].
  unfold step3, timed_call. rewrite np_int32_ok by lia. now rewrite Hrun.
Qed.

(** ** The log of the shared-memory kernel *)

Section SharedLog.
Variables (m : gmem) (n bs : Z).
Hypothesis Hint : n <= 2 ^ 31.
Hypothesis Ha : n <= Z.of_nat (length (mem_a m)).
Hypothesis Hb : n <= Z.of_nat (length (mem_b m)).
Hypothesis Hc : n <= Z.of_nat (length (mem_c m)).

(** The blocks of a launch over whole blocks, with the log. *)
Lemma shared_blocks_log (sch : schedule) (grid : Z) (blocks : list Z) :
  1 <= bs <= shared_size -> grid * bs <= n ->
  Forall (fun b => 0 <= b < grid) blocks ->
  (forall b, thread_order sch b ≡ₚ seqZ 0 bs) ->
  (forall b, resume_order sch b ≡ₚ seqZ 0 bs) ->
  forall (done : list Z) (s : state),
    global s = gmem_after m done ->
    exists s' : state,
      run_blocks (matrix_add_shared_memory a_gpu b_gpu c_gpu n) sch bs blocks s
        = Done tt s' /\
      global s' =
        gmem_after m
          (done ++ flat_map (fun b => map (fun t => b * bs + t) (resume_order sch b))
                     blocks) /\
      log s' = log s ++ flat_map (shared_block_log m bs sch) blocks.
Proof using Hint Ha Hb Hc.
  intros Hbs Hgrid Hblocks Hthreads Hresume.
  induction Hblocks as [| b blocks Hb0 _ IH]; intros done s Hs.
  - exists s. split; [reflexivity |]. cbn. now rewrite !app_nil_r.
  - cbn [run_blocks flat_map].
    destruct s as [G sh lg]. cbn [global] in Hs. subst G.
    rewrite (shared_block m n bs Hint Ha Hb Hc) by (auto; nia).
    match goal with
    | |- context [run_blocks _ _ _ blocks ?st] =>
        destruct (IH _ st eq_refl) as (s' & Hrun & Hglob & Hlog)
    end.
    exists s'. split; [exact Hrun |]. split.
    + rewrite Hglob. now rewrite <- app_assoc.
    + rewrite Hlog. cbn [log]. unfold shared_block_log. now rewrite <- !app_assoc.
Qed.

End SharedLog.

(** The whole launch of the shared-memory kernel, with its log. *)
Lemma shared_launch_log (sch : schedule) (m : gmem) (n bs : Z) :
  0 < n -> n < 2 ^ 31 -> 1 <= bs <= shared_size -> n mod bs = 0 ->
  fair sch bs (grid_size_for n bs) ->
  n <= Z.of_nat (length (mem_a m)) ->
  n <= Z.of_nat (length (mem_b m)) ->
  n <= Z.of_nat (length (mem_c m)) ->
  exists s : state,
    launch (matrix_add_shared_memory a_gpu b_gpu c_gpu n) sch bs (grid_size_for n bs) m
      = Done tt s /\
    global s = gmem_after m (shared_done sch bs) /\
    log s = shared_log m bs sch.
Proof.
  intros Hn Hint Hbs Hmod Hfair Ha Hb Hc.
  pose proof (grid_exact n bs ltac:(lia) Hmod) as Hg.
  destruct Hfair as (Hblocks & Hthreads & Hresume).
  unfold launch. rewrite launch_valid by (unfold shared_size in *; nia).
  destruct (shared_blocks_log m n bs ltac:(lia) Ha Hb Hc sch (grid_size_for n bs)
              (block_order sch) Hbs ltac:(lia) (order_bounds _ _ Hblocks)
              Hthreads Hresume []
              {| global := m; shared := fresh_shared; log := [] |})
    as (s & Hrun & Hglob & Hlog).
  { cbn [global]. now rewrite gmem_after_nil. }
  exists s. split; [exact Hrun |]. split; [exact Hglob | exact Hlog].
Qed.

Lemma staging_accesses_own (m : gmem) (bs b t : Z) :
  0 <= t < shared_size -> Forall own_cell (staging_accesses m bs b t).
Proof.
  intros Ht. unfold staging_accesses. cbv zeta.
  destruct (mem_a m !! Z.to_nat (b * bs + t)), (mem_b m !! Z.to_nat (b * bs + t));
    cbn [map]; repeat constructor; cbn; lia.
Qed.

Lemma adding_accesses_own (m : gmem) (bs b t : Z) :
  0 <= t < shared_size -> Forall own_cell (adding_accesses m bs b t).
Proof.
  intros Ht. unfold adding_accesses. cbv zeta.
  destruct (mem_a m !! Z.to_nat (b * bs + t)), (mem_b m !! Z.to_nat (b * bs + t));
    cbn [map]; repeat constructor; cbn; lia.
Qed.

Lemma Forall_flat_map_in {T U} (P : U -> Prop) (f : T -> list U) (l : list T) :
  (forall x, In x l -> Forall P (f x)) -> Forall P (flat_map f l).
Proof.
  induction l as [| x l IH]; intros H; cbn [flat_map]; [constructor |].
  apply Forall_app. split; [apply H; now left | apply IH; intros y Hy; apply H; now right].
Qed.

(** X18. In a launch of the shared-memory kernel that completes (blocks
    of at most 256 threads, a whole number of blocks), every access to
    a shared array is made by a thread at its own index: no thread reads
    a cell another thread wrote, so no value passes from one thread to
    another through shared memory. *)
Theorem shared_cells_are_private (sch : schedule) (m : gmem) (n bs : Z) :
  0 < n -> n < 2 ^ 31 -> 1 <= bs <= shared_size -> n mod bs = 0 ->
  fair sch bs (grid_size_for n bs) ->
  n <= Z.of_nat (length (mem_a m)) ->
  n <= Z.of_nat (length (mem_b m)) ->
  n <= Z.of_nat (length (mem_c m)) ->
  exists s : state,
    launch (matrix_add_shared_memory a_gpu b_gpu c_gpu n) sch bs (grid_size_for n bs) m
      = Done tt s /\
    Forall own_cell (log s).
Proof.
  intros Hn Hint Hbs Hmod Hfair Ha Hb Hc.
  destruct (shared_launch_log sch m n bs) as (s & Hrun & _ & Hlog); try assumption.
  exists s. split; [exact Hrun |]. rewrite Hlog.
  destruct Hfair as (_ & Hthreads & Hresume).
  apply Forall_flat_map_in. intros b _. unfold shared_block_log.
  apply Forall_app. split; apply Forall_flat_map_in; intros t Ht.
  - apply staging_accesses_own.
    pose proof (order_bounds _ _ (Hthreads b)) as Bt.
    rewrite List.Forall_forall in Bt. specialize (Bt t Ht). lia.
  - apply adding_accesses_own.
    pose proof (order_bounds _ _ (Hresume b)) as Bt.
    rewrite List.Forall_forall in Bt. specialize (Bt t Ht). lia.
Qed.

(** ** The traffic to global memory *)

Lemma flat_map_app_Permutation {T U} (f g : T -> list U) (l : list T) :
  flat_map f l ++ flat_map g l ≡ₚ flat_map (fun x => f x ++ g x) l.
Proof.
  induction l as [| x l IH]; cbn [flat_map]; [reflexivity |].
  rewrite <- IH. rewrite <- !app_assoc. apply Permutation_app_head.
  rewrite !app_assoc. apply Permutation_app_tail. apply Permutation_app_comm.
Qed.

Lemma flat_map_of_map {T U V} (f : U -> list V) (g : T -> U) (l : list T) :
  flat_map f (map g l) = flat_map (fun x => f (g x)) l.
Proof. induction l as [| x l IH]; cbn; [reflexivity |]. now rewrite IH. Qed.

Lemma flat_map_nested {T U V} (f : U -> list V) (g : T -> list U) (l : list T) :
  flat_map f (flat_map g l) = flat_map (fun x => flat_map f (g x)) l.
Proof.
  induction l as [| x l IH]; cbn [flat_map]; [reflexivity |].
  now rewrite flat_map_app, IH.
Qed.

(** What a thread of the shared-memory kernel asks of global memory is
    what the thread of the same index asks in the naive kernel. *)
Lemma shared_thread_traffic (m : gmem) (bs b t : Z) :
  0 <= t < bs ->
  List.filter global_access (staging_accesses m bs b t) ++
  List.filter global_access (adding_accesses m bs b t)
  = naive_accesses m bs (b * bs + t).
Proof.
  intros Ht. unfold staging_accesses, adding_accesses, naive_accesses. cbv zeta.
  destruct (global_index bs b t Ht) as [Hd Hm]. rewrite Hd, Hm.
  destruct (mem_a m !! Z.to_nat (b * bs + t)), (mem_b m !! Z.to_nat (b * bs + t));
    reflexivity.
Qed.

Lemma shared_block_traffic (m : gmem) (bs : Z) (sch : schedule) (b : Z) :
  0 <= bs ->
  thread_order sch b ≡ₚ seqZ 0 bs -> resume_order sch b ≡ₚ seqZ 0 bs ->
  List.filter global_access (shared_block_log m bs sch b)
  ≡ₚ flat_map (naive_accesses m bs) (seqZ (b * bs) bs).
Proof.
  intros Hbs Hthreads Hresume. unfold shared_block_log.
  rewrite List.filter_app, !filter_flat_map.
  rewrite (Permutation_flat_map _ Hthreads), (Permutation_flat_map _ Hresume).
  rewrite flat_map_app_Permutation.
  rewrite <- block_indices, flat_map_of_map.
  apply Permutation_refl'. apply flat_map_ext_in. intros t Ht.
  apply shared_thread_traffic.
  apply list_elem_of_In, elem_of_seqZ in Ht. lia.
Qed.

(** The global accesses of a launch of the shared-memory kernel, in any
    order, are those of the naive kernel, each once. *)
Lemma shared_traffic (m : gmem) (n bs : Z) (sch : schedule) :
  0 < bs -> 0 < n -> n mod bs = 0 -> fair sch bs (grid_size_for n bs) ->
  List.filter global_access (shared_log m bs sch)
  ≡ₚ flat_map (naive_accesses m bs) (seqZ 0 n).
Proof.
  intros Hbs Hn Hmod (Hblocks & Hthreads & Hresume).
  pose proof (grid_exact n bs Hbs Hmod) as Hg.
  unfold shared_log. rewrite filter_flat_map.
  rewrite (flat_map_Permutation _ (fun b => flat_map (naive_accesses m bs) (seqZ (b * bs) bs))
             _ _ (fun b => shared_block_traffic m bs sch b ltac:(lia) (Hthreads b) (Hresume b))
             Hblocks).
  assert (Hg0 : 0 <= grid_size_for n bs) by nia.
  set (nb := Z.to_nat (grid_size_for n bs)).
  replace (grid_size_for n bs) with (Z.of_nat nb) by (unfold nb; lia).
  replace n with (Z.of_nat nb * bs) by (unfold nb; lia).
  rewrite <- grid_indices by lia.
  now rewrite flat_map_nested.
Qed.

(** X19. Shared memory saves no access to global memory: over the same
    arrays, in any two orders, the accesses to global memory of a launch
    of the shared-memory kernel are those of a launch of the naive
    kernel, by the same threads, to the same indices and with the same
    values, each once: two reads and one write for every element. *)
Theorem shared_memory_saves_no_global_access (sch1 sch2 : schedule) (m : gmem) (n bs : Z) :
  0 < n -> n + bs <= 2 ^ 31 -> 1 <= bs <= shared_size -> n mod bs = 0 ->
  fair sch1 bs (grid_size_for n bs) ->
  fair sch2 bs (grid_size_for n bs) ->
  n <= Z.of_nat (length (mem_a m)) ->
  n <= Z.of_nat (length (mem_b m)) ->
  n <= Z.of_nat (length (mem_c m)) ->
  exists s1 s2 : state,
    launch (matrix_add_unoptimized a_gpu b_gpu c_gpu n) sch1 bs (grid_size_for n bs) m
      = Done tt s1 /\
    launch (matrix_add_shared_memory a_gpu b_gpu c_gpu n) sch2 bs (grid_size_for n bs) m
      = Done tt s2 /\
    List.filter global_access (log s2) ≡ₚ log s1 /\
    log s1 ≡ₚ flat_map (naive_accesses m bs) (seqZ 0 n).
Proof.
  intros Hn Hint Hbs Hmod Hf1 Hf2 Ha Hb Hc.
  destruct (shared_launch_log sch2 m n bs) as (s2 & Hrun2 & _ & Hlog2);
    try (assumption || lia).
  pose proof (naive_done_Permutation sch1 n bs ltac:(lia) ltac:(lia) Hf1) as Hp1.
  assert (Hlog1 : flat_map (naive_accesses m bs) (naive_done sch1 n bs)
                  ≡ₚ flat_map (naive_accesses m bs) (seqZ 0 n)).
  { now apply Permutation_flat_map. }
  eexists _, s2. split; [apply naive_launch; assumption || unfold shared_size in *; lia |].
  split; [exact Hrun2 |].
  rewrite Hlog2. cbn [log naive_state].
  rewrite (shared_traffic m n bs sch2 ltac:(lia) Hn Hmod Hf2).
  split; [symmetry; exact Hlog1 | exact Hlog1].
Qed.

(** ** A length beyond the end of a buffer *)

(** A thread of the naive kernel whose element lies beyond the end of
    one of the buffers: the access to the first such buffer, in the
    order [a], [b], [c], is out of bounds. *)
Lemma naive_thread_past (m : gmem) (n bs bid tid : Z) (done : list Z) :
  0 <= bid * bs + tid < n -> bid * bs + tid < 2 ^ 31 ->
  (Z.of_nat (length (mem_a m)) <= bid * bs + tid \/
   Z.of_nat (length (mem_b m)) <= bid * bs + tid \/
   Z.of_nat (length (mem_c m)) <= bid * bs + tid) ->
  exists p : buffer,
    Z.of_nat (length (buf p m)) <= bid * bs + tid /\
    matrix_add_unoptimized a_gpu b_gpu c_gpu n
      {| blockIdx := bid; blockDim := bs; threadIdx := tid |} (naive_state m bs done)
    = Undefined (GlobalOutOfBounds p (bid * bs + tid)).
Proof.
  intros Hg Hint Hpast.
  unfold matrix_add_unoptimized, bind, global_id, returned, ret.
  cbn [blockIdx blockDim threadIdx].
  rewrite to_int_small by lia.
  destruct (Z.ltb_spec (bid * bs + tid) n) as [_ | ?]; [| lia].
  set (g := bid * bs + tid) in *.
  destruct (Z.le_gt_cases (Z.of_nat (length (mem_a m))) g) as [Ha | Ha].
  { exists a_gpu. split; [exact Ha |]. unfold gload. project.
    now rewrite in_bounds_false. }
  destruct (lookup_lt_is_Some_2 (mem_a m) (Z.to_nat g)) as [x Hx]; [lia |].
  rewrite (gload_ok a_gpu _ x) by (project; assumption || lia).
  destruct (Z.le_gt_cases (Z.of_nat (length (mem_b m))) g) as [Hb | Hb].
  { exists b_gpu. split; [exact Hb |]. unfold gload. project.
    now rewrite in_bounds_false. }
  destruct (lookup_lt_is_Some_2 (mem_b m) (Z.to_nat g)) as [y Hy]; [lia |].
  rewrite (gload_ok b_gpu _ y) by (project; assumption || lia).
  exists c_gpu. split; [cbn [buf]; lia |].
  unfold gstore. project. rewrite in_bounds_false; [reflexivity |].
  rewrite c_after_length. lia.
Qed.

(** The threads [ts] of a block when each of them either has its
    element in all three buffers or is beyond [n]. *)
Lemma naive_threads_some (m : gmem) (n bs bid : Z) (ts done : list Z) :
  0 <= n -> 0 <= bid ->
  Forall (fun t => 0 <= t < bs /\ bid * bs + t < 2 ^ 31 /\
                   (bid * bs + t < n ->
                    bid * bs + t < Z.of_nat (length (mem_a m)) /\
                    bid * bs + t < Z.of_nat (length (mem_b m)) /\
                    bid * bs + t < Z.of_nat (length (mem_c m)))) ts ->
  run_threads (matrix_add_unoptimized a_gpu b_gpu c_gpu n) bid bs ts
    (naive_state m bs done)
  = Done (map (fun t => (t, Returned)) ts)
      (naive_state m bs (done ++ gids n bs bid ts)).
Proof.
  intros Hn Hbid Hts. revert done.
  induction Hts as [| t ts (Ht & Hint & Hin) _ IH]; intros done.
  - cbn. now rewrite app_nil_r.
  - cbn [run_threads map]. rewrite gids_cons.
    assert (Hbs0 : 0 <= bid * bs) by nia.
    destruct (Z.ltb_spec (bid * bs + t) n) as [Hlt | Hout].
    + destruct (Hin Hlt) as (Ha & Hb & Hc).
      destruct (lookup_lt_is_Some_2 (mem_a m) (Z.to_nat (bid * bs + t))) as [x Hx]; [lia |].
      destruct (lookup_lt_is_Some_2 (mem_b m) (Z.to_nat (bid * bs + t))) as [y Hy]; [lia |].
      rewrite (naive_thread_in m n bs bid t done x y) by (assumption || lia).
      rewrite IH. rewrite <- app_assoc. reflexivity.
    + rewrite naive_thread_out by lia. now rewrite IH.
Qed.

Lemma run_blocks_app (k : kernel) (sch : schedule) (bs : Z) (l1 l2 : list Z) (s : state) :
  run_blocks k sch bs (l1 ++ l2) s =
    match run_blocks k sch bs l1 s with
    | Fault f => Fault f
    | Undefined u => Undefined u
    | Done _ s1 => run_blocks k sch bs l2 s1
    end.
Proof.
  revert s. induction l1 as [| b l1 IH]; intros s; cbn; [reflexivity |].
  destruct (run_block k sch bs b s) as [v s1 | |]; [apply IH | reflexivity ..].
Qed.

(** The blocks that lie within all three buffers. *)
Lemma naive_blocks_within (sch : schedule) (m : gmem) (n bs L : Z)
    (blocks done : list Z) :
  0 <= n -> 0 <= bs ->
  L <= Z.of_nat (length (mem_a m)) -> L <= Z.of_nat (length (mem_b m)) ->
  L <= Z.of_nat (length (mem_c m)) -> L <= 2 ^ 31 ->
  Forall (fun b => 0 <= b /\ (b + 1) * bs <= L) blocks ->
  (forall b, thread_order sch b ≡ₚ seqZ 0 bs) ->
  run_blocks (matrix_add_unoptimized a_gpu b_gpu c_gpu n) sch bs blocks
    (naive_state m bs done)
  = Done tt (naive_state m bs
               (done ++ flat_map (fun b => gids n bs b (thread_order sch b)) blocks)).
Proof.
  intros Hn Hbs Ha Hb Hc HL Hblocks Horder. revert done.
  induction Hblocks as [| b blocks (Hb0 & Hb1) _ IH]; intros done.
  - cbn. now rewrite app_nil_r.
  - cbn [run_blocks flat_map]. unfold run_block.
    change (with_shared fresh_shared (naive_state m bs done)) with (naive_state m bs done).
    rewrite naive_threads_some; try assumption.
    + rewrite forallb_all_returned. rewrite IH. now rewrite <- app_assoc.
    + eapply List.Forall_impl; [| exact (order_bounds _ _ (Horder b))].
      cbn. intros t Ht. repeat split; nia.
Qed.

(** A block in which the threads [pre] have their element in all three
    buffers or none to add, and the next thread, [t], has an element to
    add beyond the end of a buffer: the block comes to the access of
    [t], outside that buffer. *)
Lemma naive_block_past (sch : schedule) (m : gmem) (n bs bid t : Z)
    (pre post done : list Z) :
  thread_order sch bid = pre ++ t :: post ->
  0 <= n -> 0 <= bid ->
  Forall (fun t' => 0 <= t' < bs /\ bid * bs + t' < 2 ^ 31 /\
                    (bid * bs + t' < n ->
                     bid * bs + t' < Z.of_nat (length (mem_a m)) /\
                     bid * bs + t' < Z.of_nat (length (mem_b m)) /\
                     bid * bs + t' < Z.of_nat (length (mem_c m)))) pre ->
  0 <= bid * bs + t < n -> bid * bs + t < 2 ^ 31 ->
  (Z.of_nat (length (mem_a m)) <= bid * bs + t \/
   Z.of_nat (length (mem_b m)) <= bid * bs + t \/
   Z.of_nat (length (mem_c m)) <= bid * bs + t) ->
  exists p : buffer,
    Z.of_nat (length (buf p m)) <= bid * bs + t /\
    run_block (matrix_add_unoptimized a_gpu b_gpu c_gpu n) sch bs bid
      (naive_state m bs done)
    = Undefined (GlobalOutOfBounds p (bid * bs + t)).
Proof.
  intros Horder Hn Hbid Hpre Hg Hint Hpast. unfold run_block.
  change (with_shared fresh_shared (naive_state m bs done)) with (naive_state m bs done).
  rewrite Horder, run_threads_app.
  rewrite naive_threads_some by assumption.
  cbn [run_threads].
  destruct (naive_thread_past m n bs bid t (done ++ gids n bs bid pre) Hg Hint Hpast)
    as (p & Hp & Hrun).
  exists p. split; [exact Hp |]. now rewrite Hrun.
Qed.

(** In any order, a launch of the naive kernel over more elements than
    one of the buffers holds comes to an access beyond the end of a
    buffer. *)
Lemma naive_launch_past (sch : schedule) (m : gmem) (n bs : Z) :
  0 < n < 2 ^ 31 -> 1 <= bs <= 1024 -> grid_size_for n bs * bs <= 2 ^ 31 ->
  fair sch bs (grid_size_for n bs) ->
  (Z.of_nat (length (mem_a m)) < n \/
   Z.of_nat (length (mem_b m)) < n \/
   Z.of_nat (length (mem_c m)) < n) ->
  exists (p : buffer) (g : Z),
    Z.of_nat (length (buf p m)) <= g < n /\
    launch (matrix_add_unoptimized a_gpu b_gpu c_gpu n) sch bs (grid_size_for n bs) m
    = Undefined (GlobalOutOfBounds p g).
Proof.
  intros Hn Hbs Hint (Hblocks & Hthreads & _) Hshort.
  pose proof (grid_covers n bs ltac:(lia)) as Hg.
  set (la := Z.of_nat (length (mem_a m))) in *.
  set (lb := Z.of_nat (length (mem_b m))) in *.
  set (lc := Z.of_nat (length (mem_c m))) in *.
  set (L := Z.min (Z.min la lb) lc).
  assert (HL : 0 <= L < n /\ L <= la /\ L <= lb /\ L <= lc /\
               (la <= L \/ lb <= L \/ lc <= L)) by (unfold L, la, lb, lc in *; lia).
  destruct HL as (HL0 & HLa & HLb & HLc & HLmin).
  assert (Ea : Z.of_nat (length (mem_a m)) = la) by reflexivity.
  assert (Eb : Z.of_nat (length (mem_b m)) = lb) by reflexivity.
  assert (Ec : Z.of_nat (length (mem_c m)) = lc) by reflexivity.
  clearbody L la lb lc.
  pose proof (order_bounds _ _ Hblocks) as Bb.
  (* the first block, in the order of the launch, that reaches beyond [L] *)
  destruct (first_such (fun b => Z.ltb L ((b + 1) * bs)) (block_order sch))
    as (preB & b & postB & HorderB & HpreB & Hb).
  { exists (grid_size_for n bs - 1). split.
    - apply (Permutation_in _ (symmetry Hblocks)).
      apply list_elem_of_In, elem_of_seqZ. nia.
    - apply Z.ltb_lt. nia. }
  apply Z.ltb_lt in Hb.
  rewrite HorderB in Bb. apply Forall_app in Bb as [BpreB Bb].
  apply List.Forall_cons_iff in Bb as [Bb0 _].
  (* its first thread, in the order of the block, with an element beyond [L] *)
  pose proof (order_bounds _ _ (Hthreads b)) as Bt.
  destruct (first_such (fun t => Z.leb L (b * bs + t) && Z.ltb (b * bs + t) n)
              (thread_order sch b))
    as (pre & t & post & Horder & Hpre & Ht).
  { exists (Z.max 0 (L - b * bs)). split.
    - apply (Permutation_in _ (symmetry (Hthreads b))).
      apply list_elem_of_In, elem_of_seqZ. nia.
    - apply andb_true_intro. split; [apply Z.leb_le | apply Z.ltb_lt]; nia. }
  apply andb_prop in Ht as [Ht1 Ht2].
  apply Z.leb_le in Ht1. apply Z.ltb_lt in Ht2.
  rewrite Horder in Bt. apply Forall_app in Bt as [Bpre Bt].
  apply List.Forall_cons_iff in Bt as [Bt0 _].
  assert (Hbb : (b + 1) * bs <= grid_size_for n bs * bs) by nia.
  assert (Hb0 : 0 <= b * bs) by nia.
  assert (Hg31 : b * bs + t < 2 ^ 31) by lia.
  assert (Hpre' : Forall (fun t' => 0 <= t' < bs /\ b * bs + t' < 2 ^ 31 /\
                     (b * bs + t' < n ->
                      b * bs + t' < la /\ b * bs + t' < lb /\ b * bs + t' < lc)) pre).
  { rewrite List.Forall_forall in Bpre, Hpre |- *. intros t' Hin.
    specialize (Bpre t' Hin). specialize (Hpre t' Hin). cbn in Hpre.
    apply andb_false_iff in Hpre.
    assert (b * bs + t' < 2 ^ 31) by lia.
    destruct Hpre as [Hp | Hp];
      [apply Z.leb_gt in Hp | apply Z.ltb_ge in Hp]; repeat split; lia. }
  destruct (naive_block_past sch m n bs b t pre post
              (flat_map (fun b' => gids n bs b' (thread_order sch b')) preB)
              Horder ltac:(lia) ltac:(lia)
              ltac:(rewrite Ea, Eb, Ec; exact Hpre') ltac:(lia) Hg31
              ltac:(rewrite Ea, Eb, Ec; lia))
    as (p & Hp & Hrun).
  exists p, (b * bs + t). split; [lia |].
  rewrite <- Ea in HLa. rewrite <- Eb in HLb. rewrite <- Ec in HLc.
  unfold launch. rewrite launch_valid by nia.
  rewrite HorderB, run_blocks_app.
  replace {| global := m; shared := fresh_shared; log := [] |}
    with (naive_state m bs [])
    by (unfold naive_state; cbn [flat_map]; now rewrite gmem_after_nil).
  rewrite (naive_blocks_within sch m n bs L preB []); try (assumption || lia).
  - cbn [app run_blocks]. now rewrite Hrun.
  - rewrite List.Forall_forall in BpreB, HpreB |- *. intros b' Hin.
    specialize (BpreB b' Hin). specialize (HpreB b' Hin). cbn in HpreB.
    apply Z.ltb_ge in HpreB. lia.
Qed.

(** X20. Step 1 checks no length: when [N] is more than one of the
    three device buffers holds, in any order of the blocks and of the
    threads some thread passes the guard [gid < N] and accesses a
    buffer at an index at or beyond its end.  CUDA does not define such
    an access, so the result of the launch, and of the copy after it, is
    not determined by the program.  In the notebook the three buffers
    hold [N] values each. *)
Theorem step1_reads_past_short_buffer (sch : schedule) (n : Z) (h : host) :
  0 < n < 2 ^ 31 ->
  fair sch 256 (grid_size_for n 256) ->
  (Z.of_nat (length (mem_a (device h))) < n \/
   Z.of_nat (length (mem_b (device h))) < n \/
   Z.of_nat (length (mem_c (device h))) < n) ->
  exists (p : buffer) (g : Z),
    Z.of_nat (length (buf p (device h))) <= g < n /\
    step1 sch n h = Undefined (GlobalOutOfBounds p g).
Proof.
  intros Hn Hfair Hshort.
  destruct (naive_launch_past sch (device h) n 256) as (p & g & Hg & Hrun);
    try (assumption || lia).
  { apply grid_fits_int; [lia | reflexivity | lia]. }
  exists p, g. split; [exact Hg |].
  unfold step1, timed_call. rewrite np_int32_ok by lia. now rewrite Hrun.
Qed.

(** ** The block sizes the shared-memory kernel allows *)

(** X21. The shared-memory kernel allows every block size up to 256:
    launched by a timed call over a whole number of blocks of [bs]
    threads, [bs] from 1 to 256, on arrays of [n] values and in any
    order, it completes and leaves the element-wise sums in [c] and in
    [c_gpu]. *)
Theorem shared_kernel_up_to_256 (sch : schedule) (n bs : Z) (h : host) :
  0 < n < 2 ^ 31 -> 1 <= bs <= 256 -> n mod bs = 0 ->
  fair sch bs (grid_size_for n bs) ->
  Z.of_nat (length (mem_a (device h))) = n ->
  Z.of_nat (length (mem_b (device h))) = n ->
  Z.of_nat (length (mem_c (device h))) = n ->
  Z.of_nat (length (c h)) = n ->
  exists s : state,
    timed_call matrix_add_shared_memory sch n bs (grid_size_for n bs) h =
      Done {| a := a h; b := b h;
              c := zip_with fadd32 (mem_a (device h)) (mem_b (device h));
              device := {| mem_a := mem_a (device h); mem_b := mem_b (device h);
                           mem_c := zip_with fadd32 (mem_a (device h))
                                      (mem_b (device h)) |} |} s.
Proof.
  intros Hn Hbs Hmod Hfair Ha Hb Hc Hhost.
  destruct (shared_launch sch (device h) n bs) as (s & Hrun & Hglob);
    try assumption; try (unfold shared_size; lia).
  pose proof (shared_done_Permutation sch n bs ltac:(lia) ltac:(lia) Hmod Hfair) as Hperm.
  exists s. unfold timed_call. rewrite np_int32_ok by lia.
  rewrite Hrun, Hglob. unfold gmem_after. cbn [mem_c].
  rewrite (c_after_all (device h) _ n Hperm Ha Hb Hc).
  rewrite memcpy_dtoh_ok by (rewrite length_zip_with; lia).
  rewrite take_ge by (rewrite length_zip_with; lia).
  reflexivity.
Qed.

(** ** More runs on small arrays *)

Lemma grid_size_is_least_cover_witness :
  N <= grid_size_for N 256 * 256 /\
  (forall g : Z, N <= g * 256 -> grid_size_for N 256 <= g) /\
  (0 < N <-> 1 <= grid_size_for N 256).
Proof. apply (grid_size_is_least_cover N 256). lia. Defined.

Lemma step1_adds_the_arrays_witness :
  exists s : state,
    step1 (backwards 256 2) 300 (initialize (ramp 300 1) (ramp 300 10) no_junk) =
      Done {| a := ramp 300 1; b := ramp 300 10;
              c := zip_with fadd32 (ramp 300 1) (ramp 300 10);
              device := {| mem_a := ramp 300 1; mem_b := ramp 300 10;
                           mem_c := zip_with fadd32 (ramp 300 1) (ramp 300 10) |} |} s.
Proof.
  apply (step1_adds_the_arrays (backwards 256 2) (ramp 300 1) (ramp 300 10) no_junk);
    [reflexivity | vm_compute; split; reflexivity | exact (fair_backwards 256 2)].
Defined.

Lemma step1_leaves_junk_beyond_n_witness :
  exists (h' : host) (s : state),
    step1 (in_order 256 1) 2 (initialize (ramp 4 1) (ramp 2 10) no_junk) = Done h' s /\
    length (c h') = length (ramp 4 1) /\
    (forall (i : nat) (x y : float32),
       Z.of_nat i < 2 -> ramp 4 1 !! i = Some x -> ramp 2 10 !! i = Some y ->
       c h' !! i = Some (fadd32 x y)) /\
    (forall i : nat,
       2 <= Z.of_nat i -> (i < length (ramp 4 1))%nat -> c h' !! i = Some (no_junk i)).
Proof.
  apply (step1_leaves_junk_beyond_n (in_order 256 1) 2 (ramp 4 1) (ramp 2 10) no_junk);
    [lia | simpl; lia | simpl; lia | exact (fair_in_order 256 1)].
Defined.

Lemma naive_launch_any_order_witness :
  let m := {| mem_a := ramp 5 1; mem_b := ramp 5 10; mem_c := repeat S754_nan 5 |} in
  exists s1 s2 : state,
    launch (matrix_add_unoptimized a_gpu b_gpu c_gpu 5) (in_order 2 3) 2
      (grid_size_for 5 2) m = Done tt s1 /\
    launch (matrix_add_unoptimized a_gpu b_gpu c_gpu 5) (backwards 2 3) 2
      (grid_size_for 5 2) m = Done tt s2 /\
    global s1 = global s2 /\
    log s1 ≡ₚ log s2.
Proof.
  apply (naive_launch_any_order (in_order 2 3) (backwards 2 3)
           {| mem_a := ramp 5 1; mem_b := ramp 5 10; mem_c := repeat S754_nan 5 |} 5 2);
    [lia | lia | lia | exact (fair_in_order 2 3) | exact (fair_backwards 2 3)
    | simpl; lia | simpl; lia | simpl; lia].
Defined.

Lemma step2_after_step1_witness :
  exists (h1 : host) (s1 s2 : state),
    step1 (in_order 256 1) 256 (initialize (ramp 256 1) (ramp 256 10) no_junk)
      = Done h1 s1 /\
    step2 (backwards 256 1) 256 h1 = Done h1 s2 /\
    c h1 = zip_with fadd32 (ramp 256 1) (ramp 256 10) /\
    mem_c (device h1) = zip_with fadd32 (ramp 256 1) (ramp 256 10).
Proof.
  apply (step2_after_step1 (in_order 256 1) (backwards 256 1)
           (ramp 256 1) (ramp 256 10) no_junk);
    [reflexivity | vm_compute; split; reflexivity | reflexivity
    | exact (fair_in_order 256 1) | exact (fair_backwards 256 1)].
Defined.

Lemma no_launch_without_elements_witness :
  let h := initialize (ramp 2 1) (ramp 2 10) no_junk in
  grid_size_for 0 256 <= 0 /\ grid_size_for 0 512 <= 0 /\
  step1 (in_order 256 0) 0 h = Fault InvalidValue /\
  step2 (in_order 256 0) 0 h = Fault InvalidValue /\
  step3 (in_order 512 0) 0 h = Fault InvalidValue.
Proof.
  split; [| split; [| split; [| split]]].
  - apply (no_launch_without_elements (in_order 256 0) 0
             (initialize (ramp 2 1) (ramp 2 10) no_junk)). lia.
  - apply (no_launch_without_elements (in_order 256 0) 0
             (initialize (ramp 2 1) (ramp 2 10) no_junk)). lia.
  - apply (no_launch_without_elements (in_order 256 0) 0
             (initialize (ramp 2 1) (ramp 2 10) no_junk)). lia.
  - apply (no_launch_without_elements (in_order 256 0) 0
             (initialize (ramp 2 1) (ramp 2 10) no_junk)). lia.
  - apply (no_launch_without_elements (in_order 512 0) 0
             (initialize (ramp 2 1) (ramp 2 10) no_junk)). lia.
Defined.

Lemma step2_partial_block_diverges_witness :
  step2 (backwards 256 2) 300 (initialize (ramp 300 1) (ramp 300 10) no_junk)
  = Undefined (BarrierDivergence (300 / 256)).
Proof.
  apply (step2_partial_block_diverges (backwards 256 2) 300
           (initialize (ramp 300 1) (ramp 300 10) no_junk));
    [lia | vm_compute; discriminate | exact (fair_backwards 256 2)
    | vm_compute; discriminate | vm_compute; discriminate | vm_compute; discriminate].
Defined.

Lemma step3_undefined_for_every_length_witness :
  exists u : undefined,
    step3 (in_order 512 1) 300 (initialize (ramp 300 1) (ramp 300 10) no_junk)
      = Undefined u /\
    ((exists t : Z, 256 <= t < 512 /\ u = SharedOutOfBounds shared_a t) \/
     (exists b : Z, b * 512 < 300 <= b * 512 + 256 /\ u = BarrierDivergence b)).
Proof.
  apply (step3_undefined_for_every_length (in_order 512 1) 300
           (initialize (ramp 300 1) (ramp 300 10) no_junk));
    [lia | exact (fair_in_order 512 1)
    | vm_compute; discriminate | vm_compute; discriminate].
Defined.

Lemma shared_cells_are_private_witness :
  let m := {| mem_a := ramp 4 1; mem_b := ramp 4 10; mem_c := repeat S754_nan 4 |} in
  exists s : state,
    launch (matrix_add_shared_memory a_gpu b_gpu c_gpu 4) (backwards 2 2) 2
      (grid_size_for 4 2) m = Done tt s /\
    Forall own_cell (log s).
Proof.
  apply (shared_cells_are_private (backwards 2 2)
           {| mem_a := ramp 4 1; mem_b := ramp 4 10; mem_c := repeat S754_nan 4 |} 4 2);
    [lia | lia | unfold shared_size; lia | reflexivity | exact (fair_backwards 2 2)
    | simpl; lia | simpl; lia | simpl; lia].
Defined.

Lemma shared_memory_saves_no_global_access_witness :
  let m := {| mem_a := ramp 4 1; mem_b := ramp 4 10; mem_c := repeat S754_nan 4 |} in
  exists s1 s2 : state,
    launch (matrix_add_unoptimized a_gpu b_gpu c_gpu 4) (in_order 2 2) 2
      (grid_size_for 4 2) m = Done tt s1 /\
    launch (matrix_add_shared_memory a_gpu b_gpu c_gpu 4) (backwards 2 2) 2
      (grid_size_for 4 2) m = Done tt s2 /\
    List.filter global_access (log s2) ≡ₚ log s1 /\
    log s1 ≡ₚ flat_map (naive_accesses m 2) (seqZ 0 4).
Proof.
  apply (shared_memory_saves_no_global_access (in_order 2 2) (backwards 2 2)
           {| mem_a := ramp 4 1; mem_b := ramp 4 10; mem_c := repeat S754_nan 4 |} 4 2);
    [lia | lia | unfold shared_size; lia | reflexivity
    | exact (fair_in_order 2 2) | exact (fair_backwards 2 2)
    | simpl; lia | simpl; lia | simpl; lia].
Defined.

(** The runs the theorems above speak of, computed: step 1 over two of
    four elements, step 2 over 300 elements, step 3 over 300 and over 5
    elements. *)
Example step1_over_two_of_four :
  exists s : state,
    step1 (in_order 256 1) 2
      (initialize (ramp 4 1) (ramp 4 10) (fun i => of_Z32 (- 1 - Z.of_nat i)))
    = Done {| a := ramp 4 1; b := ramp 4 10;
              c := [of_Z32 0; of_Z32 11; of_Z32 (-3); of_Z32 (-4)];
              device := {| mem_a := ramp 4 1; mem_b := ramp 4 10;
                           mem_c := [of_Z32 0; of_Z32 11; of_Z32 (-3); of_Z32 (-4)] |} |} s.
Proof. eexists. vm_compute. reflexivity. Qed.

Example step3_partial_blocks :
  step3 (in_order 512 1) 300 (initialize (ramp 300 1) (ramp 300 10) no_junk)
    = Undefined (SharedOutOfBounds shared_a 256) /\
  step3 (in_order 512 1) 5 (initialize (ramp 5 1) (ramp 5 10) no_junk)
    = Undefined (BarrierDivergence 0).
Proof. split; vm_compute; reflexivity. Qed.

Lemma step1_reads_past_short_buffer_witness :
  let h := initialize (ramp 4 1) (ramp 2 10) no_junk in
  exists (p : buffer) (g : Z),
    Z.of_nat (length (buf p (device h))) <= g < 4 /\
    step1 (backwards 256 1) 4 h = Undefined (GlobalOutOfBounds p g).
Proof.
  apply (step1_reads_past_short_buffer (backwards 256 1) 4
           (initialize (ramp 4 1) (ramp 2 10) no_junk));
    [lia | exact (fair_backwards 256 1) | right; left; simpl; lia].
Defined.

(** Run backwards, the first thread with an element is thread 3, and
    [b] holds two values. *)
Example step1_past_b :
  step1 (backwards 256 1) 4 (initialize (ramp 4 1) (ramp 2 10) no_junk)
  = Undefined (GlobalOutOfBounds b_gpu 3).
Proof. vm_compute. reflexivity. Qed.

Lemma shared_kernel_up_to_256_witness :
  let h := initialize (ramp 4 1) (ramp 4 10) no_junk in
  exists s : state,
    timed_call matrix_add_shared_memory (backwards 2 2) 4 2 (grid_size_for 4 2) h =
      Done {| a := a h; b := b h;
              c := zip_with fadd32 (mem_a (device h)) (mem_b (device h));
              device := {| mem_a := mem_a (device h); mem_b := mem_b (device h);
                           mem_c := zip_with fadd32 (mem_a (device h))
                                      (mem_b (device h)) |} |} s.
Proof.
  apply (shared_kernel_up_to_256 (backwards 2 2) 4 2
           (initialize (ramp 4 1) (ramp 4 10) no_junk));
    [lia | lia | reflexivity | exact (fair_backwards 2 2)
    | reflexivity | reflexivity | reflexivity | reflexivity].
Defined.

End CudaFacts.
